(** * ACE-Step sampling pipeline: a shallow embedding of
      [ace_step/pipeline_ace_step.py]

    The development follows the Python class [ACEStepPipeline].

    Model:
    - [Py]        the Python-level values the pipeline computes with: ints
                  as [Z], host floats as [Q], exceptions as the left side
                  of a sum;
    - [Float]     rounding to the nearest value of a binary floating-point
                  format, and Python's float arithmetic by it;
    - [Tensor]    4-d tensors [batch, channel, feature, frame] with the
                  slicing, padding, broadcasting and concatenation the
                  pipeline uses;
    - [Extern]    the collaborators the pipeline calls and does not
                  implement: transformer, schedule provider, guidance
                  fusions, random generators;
    - [Sampler]   [text2music_diffusion_process]: setup, step loop, extend
                  reassembly, with [add_latents_noise];
    - [FlowEdit]  [calc_v] and [flowedit_diffusion_process];
    - [Seeds]     [set_seeds] and the seeding part of [__call__];
    - [Call]      [__call__] up to the choice of the sampler;
    - [Lyrics]    [get_lang] and the two [tokenize_lyrics];
    - [Cacher]    the cache of audio files of [ace_step_nodes.py];
    - [Stub], [Scenario], [Cases]  small collaborators and configurations
                  to run the model on.

    Properties: [TensorFacts], [FloatFacts], [ScheduleFacts], [LoopFacts],
    [RetakeFacts], [RepaintFacts], [Audio2AudioFacts], [ExtendFacts],
    [FlowEditFacts], [SeedsFacts], [WindowFacts], [PassFacts],
    [ExtendSetupFacts], [RepaintStartFacts], [SeedArgumentFacts],
    [FlowWindowFacts], [CallFacts], [LyricsFacts], [CacherFacts],
    [OssFacts].

    Numbers.  Python [int]s are [Z].  Python [float]s that steer control flow
    (scales, fractions, timesteps, sigmas) are rationals [Q]: every finite
    float is one, and comparisons stay executable.  A float argument is
    read as the double nearest to the number written.  The guidance window,
    the guidance scale of a step, the repaint start index, the retake angle
    and the audio2audio request are computed as the machine computes them:
    every operation rounded to the nearest double for Python's own
    arithmetic, and to the nearest value of the tensor dtype for the
    scalars the pipeline puts in tensors ([Float]).  The conversion of
    seconds to frames and the flow-edit indices are products taken
    exactly, which is what the floats give unless the exact product lies
    within one rounding of an integer.  Entries of latents are real numbers
    [R]: the rounding of their sums and products in the tensor dtype is
    outside the model.

    Effects.  A function that can raise returns [result]; objects Python
    mutates in place (scheduler, momentum buffers, generators) are passed in
    and returned.  The step loops record the collaborator calls they make,
    in order. *)

From Stdlib Require Import ZArith QArith Qabs Qround Qpower List Bool Lia.
From Stdlib Require Import Reals Psatz.
From Stdlib Require Import Ascii String.
Import ListNotations.

Local Open Scope Z_scope.

(* ------------------------------------------------------------------------- *)
(** ** Python values *)

Module Py.

(** The exceptions the modelled code can raise. *)
Inductive exn : Type :=
  | TypeError | RuntimeError | ZeroDivisionError | UnboundLocalError
  | AssertionError | AttributeError | IndexError | ValueError.

(** A computation either raises ([inl]) or returns ([inr]). *)
Definition result (A : Type) : Type := (exn + A)%type.

Definition ok {A} (a : A) : result A := inr a.
Definition raise {A} (e : exn) : result A := inl e.

Definition bind {A B} (m : result A) (k : A -> result B) : result B :=
    match m with
    | inl e => inl e
    | inr a => k a
    end.

(** [int(x)] on a float: truncation toward zero. *)
Definition int_of_float (x : Q) : Z := Z.quot (Qnum x) (Zpos (Qden x)).

(** [x[i]] on a sequence of length [n]: negative indices count from the
    end, anything else out of range raises [IndexError]. *)
Definition index {A} (l : list A) (i : Z) : result A :=
    let n := Z.of_nat (List.length l) in
    let j := if i <? 0 then i + n else i in
    if (0 <=? j) && (j <? n)
    then match nth_error l (Z.to_nat j) with
         | Some a => ok a
         | None => raise IndexError
         end
    else raise IndexError.

(** One bound of a slice [a:b] on a sequence of length [n]. *)
Definition clamp (n i : Z) : Z :=
    if i <? 0 then Z.max 0 (i + n) else Z.min i n.

(** [x[start:stop]] (step 1) on length [n]: first position and length. *)
Definition slice (n : Z) (start stop : option Z) : Z * Z :=
    let lo := match start with None => 0 | Some a => clamp n a end in
    let hi := match stop with None => n | Some b => clamp n b end in
    (lo, Z.max 0 (hi - lo)).

End Py.

Declare Scope py_scope.
Delimit Scope py_scope with py.
Notation "'let*' x ':=' m 'in' k" := (Py.bind m (fun x => k))
  (at level 10, x pattern, m at level 100, k at level 200) : py_scope.
Local Open Scope py_scope.

(* ------------------------------------------------------------------------- *)
(** ** Floating-point rounding *)

Module Float.

(** The formats the pipeline meets: Python's [float] is [float64]; the
    tensor dtype is one of the other three. *)
Inductive dtype : Type := float64 | float32 | float16 | bfloat16.

(** Significant bits, the hidden one included. *)
Definition precision (d : dtype) : Z :=
  match d with
  | float64 => 53
  | float32 => 24
  | float16 => 11
  | bfloat16 => 8
  end.

(** [floor(log2(q))] for a positive [q]. *)
Definition ilog2 (q : Q) : Z :=
  let e := Z.log2 (Qnum q) - Z.log2 (Zpos (Qden q)) in
  if Qle_bool (2 ^ e) q then e else e - 1.

(** The integer nearest to [q], the even one of two that are equally
    near. *)
Definition nearest_even (q : Q) : Z :=
  let num := Qnum q in
  let den := Zpos (Qden q) in
  let m := num / den in
  match 2 * (num mod den) ?= den with
  | Lt => m
  | Gt => m + 1
  | Eq => if Z.even m then m else m + 1
  end.

(** The number with [p] significant bits nearest to [q], ties to even:
    the magnitude is counted in units of the last place of its binade.
    The exponent is not bounded: overflow to infinity and the subnormal
    range are outside the model. *)
Definition round (p : Z) (q : Q) : Q :=
  if Qnum q =? 0 then 0%Q
  else
    let a := Qabs q in
    let u := (2 ^ (ilog2 a - (p - 1)))%Q in
    let v := (inject_Z (nearest_even (a / u)) * u)%Q in
    Qred (if Qnum q <? 0 then - v else v)%Q.

(** The powers of two, and the unit in the last place of a positive
    number for [p] significant bits. *)
Definition pow2 (k : Z) : Q := (2 ^ k)%Q.
Definition ulp (p : Z) (q : Q) : Q := pow2 (ilog2 q - (p - 1)).

(** A number as Python reads it, and as a tensor of a dtype holds it. *)
Definition double : Q -> Q := round 53.
Definition to (d : dtype) : Q -> Q := round (precision d).

(** Python's [a + b], [a - b], [a * b] and [a / b] on floats; an [int]
    operand is converted first, which is exact below [2 ** 53]. *)
Definition add (a b : Q) : Q := double (a + b).
Definition sub (a b : Q) : Q := double (a - b).
Definition mul (a b : Q) : Q := double (a * b).
Definition div (a b : Q) : Q := double (a / b).

(** [math.pi]. *)
Definition pi : Q := 884279719003555 # 281474976710656.

End Float.

(* ------------------------------------------------------------------------- *)
(** ** Tensors *)

Module Tensor.
Import Py.

Record shape : Type := Shape { dim0 : Z; dim1 : Z; dim2 : Z; dim3 : Z }.

(** A tensor is its shape and its entries.  Entries outside the shape are
    never read by the operations below. *)
Record tensor (A : Type) : Type := Tensor
    { shp : shape; elt : Z -> Z -> Z -> Z -> A }.
Arguments Tensor {A} _ _.
Arguments shp {A} _.
Arguments elt {A} _ _ _ _ _.

(** Broadcasting: a dimension of size 1 is read at position 0. *)
Definition bidx (d i : Z) : Z := if d =? 1 then 0 else i.

Definition get {A} (x : tensor A) (i j k l : Z) : A :=
    elt x (bidx (dim0 (shp x)) i) (bidx (dim1 (shp x)) j)
          (bidx (dim2 (shp x)) k) (bidx (dim3 (shp x)) l).

Definition bdim (a b : Z) : option Z :=
    if a =? b then Some a
    else if a =? 1 then Some b
    else if b =? 1 then Some a
    else None.

Definition broadcast (s1 s2 : shape) : option shape :=
    match bdim (dim0 s1) (dim0 s2), bdim (dim1 s1) (dim1 s2),
          bdim (dim2 s1) (dim2 s2), bdim (dim3 s1) (dim3 s2) with
    | Some a, Some b, Some c, Some d => Some (Shape a b c d)
    | _, _, _, _ => None
    end.

(** [torch.zeros(shape)], [torch.ones(shape)] and the like. *)
Definition full {A} (s : shape) (v : A) : tensor A :=
    Tensor s (fun _ _ _ _ => v).

(** A scalar applied to every entry ([c * x], [x.to(dtype)], [x == 1.0]). *)
Definition map {A B} (f : A -> B) (x : tensor A) : tensor B :=
    Tensor (shp x) (fun i j k l => f (elt x i j k l)).

(** A binary entrywise operation with broadcasting; shapes that do not
    broadcast raise, as in PyTorch. *)
Definition map2 {A B C} (f : A -> B -> C) (x : tensor A) (y : tensor B)
    : result (tensor C) :=
    match broadcast (shp x) (shp y) with
    | Some s => ok (Tensor s (fun i j k l => f (get x i j k l) (get y i j k l)))
    | None => raise RuntimeError
    end.

(** [torch.where(c, x, y)]. *)
Definition where_ {A} (c : tensor bool) (x y : tensor A) : result (tensor A) :=
    let* xy := map2 (fun a b => (a, b)) x y in
    map2 (fun (b : bool) (p : A * A) => if b then fst p else snd p) c xy.

(** [x[:, :, :, start:stop]]. *)
Definition slice3 {A} (x : tensor A) (start stop : option Z) : tensor A :=
    let s := shp x in
    let '(lo, len) := slice (dim3 s) start stop in
    Tensor (Shape (dim0 s) (dim1 s) (dim2 s) len)
           (fun i j k l => elt x i j k (lo + l)).

(** [x[:, :, :, start:stop] = v]. *)
Definition set_slice3 {A} (x : tensor A) (start stop : option Z) (v : A)
    : tensor A :=
    let '(lo, len) := slice (dim3 (shp x)) start stop in
    Tensor (shp x)
           (fun i j k l =>
              if (lo <=? l) && (l <? lo + len) then v else elt x i j k l).

(** [torch.nn.functional.pad(x, (left, right), "constant", v)]: pads the
    last axis; a negative amount crops; a negative resulting size raises. *)
Definition pad3 {A} (x : tensor A) (left right : Z) (v : A)
    : result (tensor A) :=
    let s := shp x in
    let n := dim3 s + left + right in
    if n <? 0 then raise RuntimeError
    else ok (Tensor (Shape (dim0 s) (dim1 s) (dim2 s) n)
                    (fun i j k l =>
                       let l' := l - left in
                       if (0 <=? l') && (l' <? dim3 s)
                       then elt x i j k l' else v)).

(** [torch.cat([x, y], dim=-1)]: the other three sizes must agree. *)
Definition cat3_2 {A} (x y : tensor A) : result (tensor A) :=
    let sx := shp x in
    let sy := shp y in
    if (dim0 sx =? dim0 sy) && (dim1 sx =? dim1 sy) && (dim2 sx =? dim2 sy)
    then ok (Tensor (Shape (dim0 sx) (dim1 sx) (dim2 sx) (dim3 sx + dim3 sy))
                    (fun i j k l =>
                       if l <? dim3 sx then elt x i j k l
                       else elt y i j k (l - dim3 sx)))
    else raise RuntimeError.

(** [torch.cat([x, y], dim=0)]. *)
Definition cat0_2 {A} (x y : tensor A) : result (tensor A) :=
    let sx := shp x in
    let sy := shp y in
    if (dim1 sx =? dim1 sy) && (dim2 sx =? dim2 sy) && (dim3 sx =? dim3 sy)
    then ok (Tensor (Shape (dim0 sx + dim0 sy) (dim1 sx) (dim2 sx) (dim3 sx))
                    (fun i j k l =>
                       if i <? dim0 sx then elt x i j k l
                       else elt y (i - dim0 sx) j k l))
    else raise RuntimeError.

(** [torch.cat(xs, dim)] over a Python list whose members may be [None]:
    a [None] member raises [TypeError], an empty list [RuntimeError]. *)
Fixpoint cat_with {A} (cat2 : tensor A -> tensor A -> result (tensor A))
           (acc : tensor A) (xs : list (option (tensor A)))
    : result (tensor A) :=
    match xs with
    | [] => ok acc
    | None :: _ => raise TypeError
    | Some x :: rest => let* acc' := cat2 acc x in cat_with cat2 acc' rest
    end.

Definition all_tensors {A} (xs : list (option (tensor A))) : bool :=
    forallb (fun o => match o with Some _ => true | None => false end) xs.

Definition cat {A} (cat2 : tensor A -> tensor A -> result (tensor A))
             (xs : list (option (tensor A))) : result (tensor A) :=
    if all_tensors xs
    then match xs with
         | Some x :: rest => cat_with cat2 x rest
         | _ => raise RuntimeError
         end
    else raise TypeError.

Definition cat3 {A} := @cat A cat3_2.
Definition cat0 {A} := @cat A cat0_2.

(** [a, b = x.chunk(2)]: two chunks along the batch axis, the first of
    [ceil(n / 2)] rows; fewer than two chunks cannot be unpacked. *)
Definition chunk2 {A} (x : tensor A) : result (tensor A * tensor A) :=
  let s := shp x in
  let h := (dim0 s + 1) / 2 in
  if dim0 s <=? 1 then raise ValueError
  else ok (Tensor (Shape h (dim1 s) (dim2 s) (dim3 s)) (elt x),
           Tensor (Shape (dim0 s - h) (dim1 s) (dim2 s) (dim3 s))
                  (fun i j k l => elt x (h + i) j k l)).

End Tensor.

(* ------------------------------------------------------------------------- *)
(** ** External collaborators

    The pipeline calls four collaborators it does not implement: the
    transformer (encoder and denoising predictor), the schedule provider, the
    guidance fusions of [ace_step.apg_guidance], and the random generators.
    Each is an interface here; the pipeline is written once against them.
    Python mutates the scheduler and the momentum buffer in place: the
    interface functions return the updated object instead. *)

Module Extern.
Import Py Tensor.

Definition latent : Type := tensor R.

(** [self.ace_step_transformer]. *)
Class Transformer : Type := {
  (** The dtype of the text hidden states the text encoder returns
      ([encoder_text_hidden_states.dtype], line 599), and that of the
      latents the autoencoder returns ([gt_latents.dtype], line 522); the
      pipeline puts both models in [self.dtype] (lines 40-69). *)
  dtype : Float.dtype;
  latent_dtype : Float.dtype;
  text_states : Type;
  text_mask : Type;
  speaker : Type;
  lyric_ids : Type;
  lyric_msk : Type;
  enc_states : Type;
  enc_mask : Type;
  (** [x.shape[0]] of the text hidden states. *)
  text_batch : text_states -> Z;
  zeros_like_text : text_states -> text_states;
  zeros_like_speaker : speaker -> speaker;
  zeros_like_lyric : lyric_ids -> lyric_ids;
  (** [encode(text, text_mask, speaker, lyric_ids, lyric_mask)]. *)
  encode : text_states -> text_mask -> speaker -> lyric_ids -> lyric_msk
           -> enc_states * enc_mask;
  (** [encode] while the temperature hooks of
      [forward_encoder_with_temperature] are attached. *)
  encode_with_temperature :
    text_states -> text_mask -> speaker -> lyric_ids -> lyric_msk
    -> enc_states * enc_mask;
  (** [decode(hidden_states, attention_mask, encoder_hidden_states,
      encoder_hidden_mask, output_length, timestep).sample]; the attention
      mask is all ones and is given by its two sizes. *)
  decode : latent -> Z * Z -> enc_states -> enc_mask -> Z -> Q -> latent;
  (** [decode] while the hooks of [forward_diffusion_with_temperature] are
      attached. *)
  decode_with_temperature :
    latent -> Z * Z -> enc_states -> enc_mask -> Z -> Q -> latent;
  (** The whole model called on [hidden_states, attention_mask,
      encoder_text_hidden_states, text_attention_mask, speaker_embeds,
      lyric_token_idx, lyric_mask, timestep], then [.sample]. *)
  forward : latent -> Z * Z -> text_states -> text_mask -> speaker
            -> lyric_ids -> lyric_msk -> Q -> latent;
  (** [torch.cat([x, y], 0)] on each kind of conditioning tensor, and
      [torch.zeros_like] on a lyric mask. *)
  cat_text : text_states -> text_states -> text_states;
  cat_text_mask : text_mask -> text_mask -> text_mask;
  cat_speaker : speaker -> speaker -> speaker;
  cat_lyric : lyric_ids -> lyric_ids -> lyric_ids;
  cat_lyric_mask : lyric_msk -> lyric_msk -> lyric_msk;
  zeros_like_lyric_mask : lyric_msk -> lyric_msk
}.

(** The schedule provider ([FlowMatchEulerDiscreteScheduler],
    [FlowMatchHeunDiscreteScheduler]) behind diffusers' [retrieve_timesteps]. *)
Class Schedules : Type := {
  scheduler : Type;
  FlowMatchEulerDiscreteScheduler : scheduler;
  FlowMatchHeunDiscreteScheduler : scheduler;
  (** [scheduler.set_timesteps(n)] and [scheduler.set_timesteps(sigmas=s)]. *)
  set_timesteps : scheduler -> Z -> scheduler;
  set_sigmas : scheduler -> list Q -> scheduler;
  timesteps : scheduler -> list Q;
  sigmas : scheduler -> list Q;
  (** [scheduler.step(model_output, timestep, sample, omega=...)[0]]. *)
  step : scheduler -> latent -> Q -> latent -> Q -> latent * scheduler;
  (** [scheduler._init_step_index(t); scheduler.step_index]. *)
  init_step_index : scheduler -> Q -> Z * scheduler
}.

(** [ace_step.apg_guidance].  The module is not among the sources read
    here: the pipeline is modelled for any implementation of it. *)
Class Guidance : Type := {
  momentum : Type;
  MomentumBuffer : momentum;
  (** [apg_forward(pred_cond, pred_uncond, guidance_scale, momentum_buffer)];
      the buffer argument may be [None]. *)
  apg_forward : latent -> latent -> Q -> option momentum
                -> latent * option momentum;
  (** [cfg_forward(cond_output, uncond_output, cfg_strength)]. *)
  cfg_forward : latent -> latent -> Q -> latent;
  (** [cfg_zero_star(cond, uncond, guidance_scale, i, zero_steps,
      use_zero_init)]. *)
  cfg_zero_star : latent -> latent -> Q -> Z -> Z -> bool -> latent;
  (** [cfg_double_condition_forward(cond, uncond, only_text,
      guidance_scale_text, guidance_scale_lyric)]. *)
  cfg_double_condition_forward :
    latent -> latent -> latent -> option Q -> option Q -> latent
}.

(** [torch.Generator] and the process-wide generator behind
    [torch.randint]. *)
Class Random : Type := {
  generator : Type;
  (** A generator after [manual_seed(seed)]. *)
  manual_seed : Z -> generator;
  (** One batch row [torch.randn((1, c, f, t), generator=g)]: its entries
      and the advanced generator. *)
  randn_row : generator -> Z -> Z -> Z -> (Z -> Z -> Z -> R) * generator;
  (** A whole tensor [torch.randn((b, c, f, t), generator=g)]. *)
  randn : generator -> shape -> (Z -> Z -> Z -> Z -> R) * generator;
  global_rng : Type;
  (** [torch.randint(0, 2**32, (1,)).item()], which lies in its range. *)
  randint32 : global_rng -> Z * global_rng;
  randint32_range : forall g, 0 <= fst (randint32 g) < 2 ^ 32
}.

(** diffusers' [retrieve_timesteps(scheduler, num_inference_steps=n)]
    returns the scheduler's timesteps and [n] itself. *)
Definition retrieve_timesteps `{Schedules} (s : scheduler) (n : Z)
  : list Q * Z * scheduler :=
  let s' := set_timesteps s n in
  (timesteps s', n, s').

(** [retrieve_timesteps(scheduler, sigmas=s)] returns the timesteps and
    their count. *)
Definition retrieve_timesteps_sigmas `{Schedules} (s : scheduler)
           (sg : list Q) : list Q * Z * scheduler :=
  let s' := set_sigmas s sg in
  (timesteps s', Z.of_nat (List.length (timesteps s')), s').

(** One draw per batch row, row [b] from generator [b]; returns the rows
    drawn so far and the advanced generators. *)
Fixpoint randn_rows `{Random} (gens : list generator) (c f t : Z)
  : list (Z -> Z -> Z -> R) * list generator :=
  match gens with
  | [] => ([], [])
  | g :: rest =>
      let '(row, g') := randn_row g c f t in
      let '(rows, rest') := randn_rows rest c f t in
      (row :: rows, g' :: rest')
  end.

(** diffusers' [randn_tensor(shape, generator=gens)] for a list of
    generators: a list of one generator draws the whole tensor from it; a
    longer list draws row [b] from generator [b], and misses a generator when
    it is shorter than the batch; no rows to concatenate is an error. *)
Definition randn_tensor `{Random} (s : shape) (gens : list generator)
  : result (latent * list generator) :=
  match gens with
  | [g] => let '(d, g') := randn g s in ok (Tensor s d, [g'])
  | _ =>
      if Z.of_nat (List.length gens) <? dim0 s then raise IndexError
      else if dim0 s <=? 0 then raise RuntimeError
      else
        let '(rows, gens') :=
          randn_rows (firstn (Z.to_nat (dim0 s)) gens)
                     (dim1 s) (dim2 s) (dim3 s) in
        ok (Tensor s (fun i j k l =>
                        nth (Z.to_nat i) rows (fun _ _ _ => 0%R) j k l),
            gens' ++ skipn (Z.to_nat (dim0 s)) gens)
  end.

End Extern.

(* ------------------------------------------------------------------------- *)
(** ** [text2music_diffusion_process]: configuration and setup *)

Module Sampler.
Import Py Tensor Extern.

(** Host-float comparisons. *)
Definition Qltb (a b : Q) : bool := negb (Qle_bool b a).

(** [c * x], [x + y], [x - y] on latents. *)
Definition scale (c : R) (x : latent) : latent := map (Rmult c) x.
Definition add (x y : latent) : result latent := map2 Rplus x y.
Definition sub (x y : latent) : result latent := map2 Rminus x y.

Inductive scheduler_kind : Type := SchedEuler | SchedHeun | SchedOther.
Inductive cfg_kind : Type := CfgApg | CfgCfg | CfgStar | CfgOther.

(** The keyword arguments of [text2music_diffusion_process] that are not
    tensors. *)
Record config : Type := {
  duration : Q;
  infer_steps : Z;
  guidance_scale : Q;
  omega_scale : Q;
  scheduler_type : scheduler_kind;
  cfg_type : cfg_kind;
  zero_steps : Z;
  use_zero_init : bool;
  guidance_interval : Q;
  guidance_interval_decay : Q;
  min_guidance_scale : Q;
  oss_steps : list Z;
  use_erg_lyric : bool;
  use_erg_diffusion : bool;
  retake_variance : Q;
  add_retake_noise : bool;
  guidance_scale_text : option Q;
  guidance_scale_lyric : option Q;
  repaint_start : Q;
  repaint_end : Q;
  audio2audio_enable : bool;
  ref_audio_strength : Q
}.

(** [int(x * 44100 / 512 / 8)]: seconds to latent frames. *)
Definition frames_of_seconds (x : Q) : Z :=
  int_of_float (x * 44100 / 512 / 8).

Definition max_infer_fame_length : Z := frames_of_seconds 240.

(** What repainting keeps from the setup to the step loop. *)
Record repaint_ctx : Type := {
  n_min : Z;
  x0 : latent;
  z0 : latent;
  zt_edit : latent;
  repaint_mask : tensor Q
}.

(** The outcome of the setup before the step loop; [repaint] is present
    exactly when [is_repaint] holds. *)
Record prepared : Type := {
  target_latents : latent;
  frame_length : Z;
  is_extend : bool;
  repaint : option repaint_ctx;
  to_right_pad_gt_latents : option latent;
  to_left_pad_gt_latents : option latent
}.

Section Setup.
Context `{TR : Transformer}.

(** [torch.tensor(retake_variance * math.pi / 2).to(device).to(dtype)]
    (lines 663-665): the product and the quotient are Python's,
    [torch.tensor] makes a [float32] of the result, and the cast takes it to
    the dtype. *)
Definition variance_angle (retake_variance : Q) : Q :=
  Float.to dtype
    (Float.to Float.float32
       (Float.div (Float.mul (Float.double retake_variance) Float.pi) 2)).

(** [torch.cos(v) * target_latents + torch.sin(v) * retake_latents] for the
    angle [v] the tensor holds. *)
Definition retake_blend (retake_variance : Q) (target retake : latent)
  : result latent :=
  let v := Q2R (variance_angle retake_variance) in
  add (scale (cos v) target) (scale (sin v) retake).

(** [repaint_mask == 1.0]. *)
Definition mask_is_one (m : tensor Q) : tensor bool :=
  map (fun q => Qeq_bool q 1) m.

(** The branch [elif not is_extend] (lines 689-703). *)
Definition repaint_setup (bsz frame_length n_min : Z) (retake_variance : Q)
           (repaint_start_frame repaint_end_frame : Z)
           (src_latents : option latent) (target retake : latent)
  : result prepared :=
  let m0 := full (Shape bsz 8 16 frame_length) (0 : Q) in
  let m := set_slice3 m0 (Some repaint_start_frame) (Some repaint_end_frame)
                      (1 : Q) in
  let* repaint_noise := retake_blend retake_variance target retake in
  let* repaint_noise := where_ (mask_is_one m) repaint_noise target in
  match src_latents with
  | None => raise AttributeError
  | Some x0 =>
      ok {| target_latents := target;
            frame_length := frame_length;
            is_extend := false;
            repaint := Some {| n_min := n_min; x0 := x0; z0 := repaint_noise;
                               zt_edit := x0; repaint_mask := m |};
            to_right_pad_gt_latents := None;
            to_left_pad_gt_latents := None |}
  end.

(** The state of the extend branch between its two padding blocks. *)
Record extend_pad : Type := {
  gt_latents : latent;
  e_frame_length : Z;
  pad_frame_length : Z;
  trim_length : Z;
  cached : option latent
}.

(** [if repaint_start_frame < 0] (lines 714-730). *)
Definition extend_left (gt : latent) (frame_length repaint_start_frame : Z)
  : result extend_pad :=
  if repaint_start_frame <? 0 then
    let left_pad_frame_length := Z.abs repaint_start_frame in
    let frame_length := left_pad_frame_length + dim3 (shp gt) in
    let* extend_gt_latents := pad3 gt left_pad_frame_length 0 0%R in
    if frame_length >? max_infer_fame_length then
      let right_trim_length := frame_length - max_infer_fame_length in
      let extend_gt_latents :=
        slice3 extend_gt_latents None (Some max_infer_fame_length) in
      let to_right := slice3 extend_gt_latents (Some (- right_trim_length)) None in
      ok {| gt_latents := extend_gt_latents;
            e_frame_length := max_infer_fame_length;
            pad_frame_length := left_pad_frame_length;
            trim_length := right_trim_length;
            cached := Some to_right |}
    else
      ok {| gt_latents := extend_gt_latents; e_frame_length := frame_length;
            pad_frame_length := left_pad_frame_length;
            trim_length := 0; cached := None |}
  else
    ok {| gt_latents := gt; e_frame_length := frame_length;
          pad_frame_length := 0; trim_length := 0; cached := None |}.

(** [if repaint_end_frame > src_latents_length] (lines 732-748). *)
Definition extend_right (gt : latent) (frame_length src_latents_length
                                       repaint_end_frame : Z)
  : result extend_pad :=
  if repaint_end_frame >? src_latents_length then
    let right_pad_frame_length := repaint_end_frame - dim3 (shp gt) in
    let frame_length := dim3 (shp gt) + right_pad_frame_length in
    let* extend_gt_latents := pad3 gt 0 right_pad_frame_length 0%R in
    if frame_length >? max_infer_fame_length then
      let left_trim_length := frame_length - max_infer_fame_length in
      let extend_gt_latents :=
        slice3 extend_gt_latents (Some (- max_infer_fame_length)) None in
      let to_left := slice3 extend_gt_latents None (Some left_trim_length) in
      ok {| gt_latents := extend_gt_latents;
            e_frame_length := max_infer_fame_length;
            pad_frame_length := right_pad_frame_length;
            trim_length := left_trim_length;
            cached := Some to_left |}
    else
      ok {| gt_latents := extend_gt_latents; e_frame_length := frame_length;
            pad_frame_length := right_pad_frame_length;
            trim_length := 0; cached := None |}
  else
    ok {| gt_latents := gt; e_frame_length := frame_length;
          pad_frame_length := 0; trim_length := 0; cached := None |}.

(** The branch [elif is_extend] (lines 704-776). *)
Definition extend_setup (bsz frame_length n_min : Z)
           (repaint_start_frame repaint_end_frame : Z)
           (src_latents : option latent) (target retake : latent)
  : result prepared :=
  match src_latents with
  | None => raise AttributeError
  | Some gt =>
      let src_latents_length := dim3 (shp gt) in
      let* lft := extend_left gt frame_length repaint_start_frame in
      let* rgt := extend_right (gt_latents lft) (e_frame_length lft)
                               src_latents_length repaint_end_frame in
      let frame_length := e_frame_length rgt in
      let left_pad_frame_length := pad_frame_length lft in
      let right_pad_frame_length := pad_frame_length rgt in
      let right_trim_length := trim_length lft in
      let left_trim_length := trim_length rgt in
      let m := full (Shape bsz 8 16 frame_length) (0 : Q) in
      let m := if left_pad_frame_length >? 0
               then set_slice3 m None (Some left_pad_frame_length) (1 : Q)
               else m in
      let m := if right_pad_frame_length >? 0
               then set_slice3 m (Some (- right_pad_frame_length)) None (1 : Q)
               else m in
      let x0 := gt_latents rgt in
      let padd_list :=
        (if left_pad_frame_length >? 0
         then [Some (slice3 retake None (Some left_pad_frame_length))]
         else [])
        ++ [Some (slice3 target (Some left_trim_length)
                         (Some (dim3 (shp target) - right_trim_length)))]
        ++ (if right_pad_frame_length >? 0
            then [Some (slice3 retake (Some (- right_pad_frame_length)) None)]
            else []) in
      let* target := cat3 padd_list in
      if dim3 (shp target) =? dim3 (shp x0) then
        ok {| target_latents := target;
              frame_length := frame_length;
              is_extend := true;
              repaint := Some {| n_min := n_min; x0 := x0; z0 := target;
                                 zt_edit := x0; repaint_mask := m |};
              to_right_pad_gt_latents := cached lft;
              to_left_pad_gt_latents := cached rgt |}
      else raise AssertionError
  end.

(** [int(infer_steps * (1 - retake_variance))] (line 662), in Python's
    floats. *)
Definition repaint_start_index (infer_steps : Z) (retake_variance : Q) : Z :=
  int_of_float
    (Float.mul (Float.double (inject_Z infer_steps))
               (Float.sub 1 (Float.double retake_variance))).

(** The block [if add_retake_noise] (lines 661-776), after both noise
    tensors have been drawn. *)
Definition retake_setup (c : config) (infer_steps bsz frame_length : Z)
           (src_latents : option latent) (target retake : latent)
  : result prepared :=
  let n_min := repaint_start_index infer_steps (retake_variance c) in
  let repaint_start_frame := frames_of_seconds (repaint_start c) in
  let repaint_end_frame := frames_of_seconds (repaint_end c) in
  let is_repaint :=
    negb (repaint_end_frame - repaint_start_frame =? frame_length) in
  let is_extend :=
    (repaint_start_frame <? 0) || (repaint_end_frame >? frame_length) in
  let is_repaint := if is_extend then true else is_repaint in
  if negb is_repaint then
    let* target := retake_blend (retake_variance c) target retake in
    ok {| target_latents := target; frame_length := frame_length;
          is_extend := false; repaint := None;
          to_right_pad_gt_latents := None; to_left_pad_gt_latents := None |}
  else if negb is_extend then
    repaint_setup bsz frame_length n_min (retake_variance c)
                  repaint_start_frame repaint_end_frame src_latents target retake
  else
    extend_setup bsz frame_length n_min repaint_start_frame repaint_end_frame
                 src_latents target retake.

(** Without [add_retake_noise] the fresh noise goes to the loop as it is. *)
Definition no_retake (frame_length : Z) (target : latent) : prepared :=
  {| target_latents := target; frame_length := frame_length;
     is_extend := false; repaint := None;
     to_right_pad_gt_latents := None; to_left_pad_gt_latents := None |}.

(** [torch.argmin] over a row of distances: the position of the first
    minimal value; [i] is the position of the head of [l]. *)
Fixpoint argmin_from (best : Q) (best_i i : Z) (l : list Q) : Z :=
  match l with
  | [] => best_i
  | d :: rest =>
      if Qltb d best then argmin_from d i (i + 1) rest
      else argmin_from best best_i (i + 1) rest
  end.

(** [torch.argmin(torch.cdist(indices, timesteps), dim=1)] for one query:
    the distance of two one-dimensional points is [|q - t|]. *)
Definition nearest_idx (q : Q) (ts : list Q) : result Z :=
  match List.map (fun t => Qabs (q - t)) ts with
  | [] => raise IndexError
  | d :: rest => ok (argmin_from d 0 1 rest)
  end.

(** [indices] of lines 522-525: the variance as a tensor of the latents'
    dtype, times [scheduler.config.num_train_timesteps], which is 1000, in
    that dtype, truncated by [.long()] and cast to the dtype again. *)
Definition requested_timestep (variance : Q) : Q :=
  let u := Float.to latent_dtype variance in
  let indices := int_of_float (Float.to latent_dtype (u * 1000)) in
  Float.to latent_dtype (inject_Z indices).

(** [add_latents_noise] (lines 514-533); the timesteps and the sigma that
    is read are cast to the latents' dtype, and [1.0 - sigma] is a tensor
    of it. *)
Definition add_latents_noise (gt_latents : latent) (variance : Q)
           (noise : latent) (timesteps sigmas : list Q)
  : result (latent * Q) :=
  let indices := requested_timestep variance in
  let timesteps := List.map (Float.to latent_dtype) timesteps in
  let* nearest := nearest_idx indices timesteps in
  let* sigma := index sigmas nearest in
  let sigma := Float.to latent_dtype sigma in
  let* noisy_image :=
    add (scale (Q2R sigma) noise)
        (scale (Q2R (Float.to latent_dtype (1 - sigma))) gt_latents) in
  let init_timestep := indices in
  ok (noisy_image, init_timestep).

End Setup.

(* ------------------------------------------------------------------------- *)
(** ** [text2music_diffusion_process]: the step loop *)

(** Which conditioning a predictor call is given. *)
Inductive cond_kind : Type := CondFull | CondNull | CondNoLyric.

Inductive fusion : Type := FuseDouble | FuseApg | FuseCfg | FuseCfgStar.

(** The calls to collaborators, recorded in program order with the loop
    index they occur at. *)
Inductive event : Type :=
| Decode (i : Z) (c : cond_kind)
| DecodeTemperature (i : Z) (c : cond_kind)
| Fuse (i : Z) (f : fusion)
| SchedulerStep (i : Z).

Section Loop.
Context `{TR : Transformer} `{SC : Schedules} `{GD : Guidance}.

(** What the loop reads and never writes. *)
Record loop_ctx : Type := {
  cfg : config;
  all_timesteps : list Q;
  init_timestep : Q;
  rp : option repaint_ctx;
  attention_mask : Z * Z;
  start_idx : Z;
  end_idx : Z;
  do_classifier_free_guidance : bool;
  do_double_condition_guidance : bool;
  encoder_hidden_states : enc_states;
  encoder_hidden_mask : enc_mask;
  encoder_hidden_states_null : enc_states;
  encoder_hidden_states_no_lyric : option enc_states
}.

(** What the loop updates; [noise_pred] is [None] while the Python local is
    unbound. *)
Record loop_state : Type := {
  latents : latent;
  noise_pred : option latent;
  momentum_buffer : momentum;
  sched : scheduler;
  trace : list event
}.

(** Lines 921-933: the guidance scale of a guided step, in Python's
    floats; [int / int] raises on a zero divisor and is rounded once. *)
Definition current_guidance_scale (x : loop_ctx) (i : Z) : result Q :=
  let c := cfg x in
  if Qltb 0 (guidance_interval_decay c) then
    let d := end_idx x - start_idx x - 1 in
    if d =? 0 then raise ZeroDivisionError
    else
      let progress :=
        Float.double (inject_Z (i - start_idx x) / inject_Z d) in
      ok (Float.sub
            (Float.double (guidance_scale c))
            (Float.mul
               (Float.mul
                  (Float.sub (Float.double (guidance_scale c))
                             (Float.double (min_guidance_scale c)))
                  progress)
               (Float.double (guidance_interval_decay c))))
  else ok (Float.double (guidance_scale c)).

(** Lines 919-1017: the guided branch. *)
Definition guided_prediction (x : loop_ctx) (i : Z) (t : Q) (s : loop_state)
  : result loop_state :=
  let c := cfg x in
  let* scale_now := current_guidance_scale x i in
  let latent_model_input := latents s in
  let output_length := dim3 (shp latent_model_input) in
  let noise_pred_with_cond :=
    decode latent_model_input (attention_mask x) (encoder_hidden_states x)
           (encoder_hidden_mask x) output_length t in
  let tr := trace s ++ [Decode i CondFull] in
  let '(noise_pred_with_only_text_cond, tr) :=
    match do_double_condition_guidance x, encoder_hidden_states_no_lyric x with
    | true, Some no_lyric =>
        (Some (decode latent_model_input (attention_mask x) no_lyric
                      (encoder_hidden_mask x) output_length t),
         tr ++ [Decode i CondNoLyric])
    | _, _ => (None, tr)
    end in
  let '(noise_pred_uncond, tr) :=
    if use_erg_diffusion c then
      (decode_with_temperature latent_model_input (attention_mask x)
         (encoder_hidden_states_null x) (encoder_hidden_mask x)
         output_length t,
       tr ++ [DecodeTemperature i CondNull])
    else
      (decode latent_model_input (attention_mask x)
         (encoder_hidden_states_null x) (encoder_hidden_mask x)
         output_length t,
       tr ++ [Decode i CondNull]) in
  match do_double_condition_guidance x, noise_pred_with_only_text_cond with
  | true, Some only_text =>
      ok {| latents := latents s;
            noise_pred :=
              Some (cfg_double_condition_forward
                      noise_pred_with_cond noise_pred_uncond only_text
                      (guidance_scale_text c) (guidance_scale_lyric c));
            momentum_buffer := momentum_buffer s;
            sched := sched s;
            trace := tr ++ [Fuse i FuseDouble] |}
  | _, _ =>
      match cfg_type c with
      | CfgApg =>
          let '(p, m) := apg_forward noise_pred_with_cond noise_pred_uncond
                                     scale_now (Some (momentum_buffer s)) in
          ok {| latents := latents s;
                noise_pred := Some p;
                momentum_buffer :=
                  match m with Some m' => m' | None => momentum_buffer s end;
                sched := sched s;
                trace := tr ++ [Fuse i FuseApg] |}
      | CfgCfg =>
          ok {| latents := latents s;
                noise_pred := Some (cfg_forward noise_pred_with_cond
                                                noise_pred_uncond scale_now);
                momentum_buffer := momentum_buffer s;
                sched := sched s;
                trace := tr ++ [Fuse i FuseCfg] |}
      | CfgStar =>
          ok {| latents := latents s;
                noise_pred :=
                  Some (cfg_zero_star noise_pred_with_cond noise_pred_uncond
                                      scale_now i (zero_steps c)
                                      (use_zero_init c));
                momentum_buffer := momentum_buffer s;
                sched := sched s;
                trace := tr ++ [Fuse i FuseCfgStar] |}
      | CfgOther =>
          ok {| latents := latents s;
                noise_pred := noise_pred s;
                momentum_buffer := momentum_buffer s;
                sched := sched s;
                trace := tr |}
      end
  end.

(** Lines 1018-1028: the branch without guidance. *)
Definition plain_prediction (x : loop_ctx) (i : Z) (t : Q) (s : loop_state)
  : loop_state :=
  let latent_model_input := latents s in
  {| latents := latents s;
     noise_pred :=
       Some (decode latent_model_input (attention_mask x)
                    (encoder_hidden_states x) (encoder_hidden_mask x)
                    (dim3 (shp latent_model_input)) t);
     momentum_buffer := momentum_buffer s;
     sched := sched s;
     trace := trace s ++ [Decode i CondFull] |}.

(** Lines 918-1028. *)
Definition prediction (x : loop_ctx) (i : Z) (t : Q) (s : loop_state)
  : result loop_state :=
  let is_in_guidance_interval := (start_idx x <=? i) && (i <? end_idx x) in
  if is_in_guidance_interval && do_classifier_free_guidance x
  then guided_prediction x i t s
  else ok (plain_prediction x i t s).

(** [timesteps[i + 1] / 1000] when there is a next timestep, else zero
    (lines 1031-1035). *)
Definition next_level (ts : list Q) (i : Z) : Q :=
  if i + 1 <? Z.of_nat (List.length ts)
  then (nth (Z.to_nat (i + 1)) ts 0 / 1000)%Q
  else 0%Q.

(** Lines 1030-1044: the manual Euler update and the splice by the mask.
    The casts to [float32] and back are the identity on real numbers. *)
Definition repaint_advance (x : loop_ctx) (r : repaint_ctx) (i : Z) (t : Q)
           (noise_pred target_latents : latent) : result latent :=
  let t_i := (t / 1000)%Q in
  let t_im1 := next_level (all_timesteps x) i in
  let* prev_sample :=
    add target_latents (scale (Q2R t_im1 - Q2R t_i) noise_pred) in
  let target_latents := prev_sample in
  let* zt_src := add (scale (1 - Q2R t_im1) (x0 r)) (scale (Q2R t_im1) (z0 r)) in
  where_ (mask_is_one (repaint_mask r)) target_latents zt_src.

(** Lines 909-913: the working latent at the repaint start index. *)
Definition repaint_start_latent (r : repaint_ctx) (t : Q) : result latent :=
  let t_i := (t / 1000)%Q in
  let* zt_src := add (scale (1 - Q2R t_i) (x0 r)) (scale (Q2R t_i) (z0 r)) in
  let* a := add (zt_edit r) zt_src in
  sub a (x0 r).

Definition with_latents (s : loop_state) (l : latent) : loop_state :=
  {| latents := l; noise_pred := noise_pred s;
     momentum_buffer := momentum_buffer s; sched := sched s;
     trace := trace s |}.

(** One iteration of [for i, t in enumerate(timesteps)] (lines 902-1052);
    a [continue] returns the state as it is. *)
Definition loop_body (x : loop_ctx) (i : Z) (t : Q) (s : loop_state)
  : result loop_state :=
  if Qltb (init_timestep x) t then ok s
  else
    match rp x with
    | Some r =>
        if i <? n_min r then ok s
        else
          let* s :=
            if i =? n_min r
            then let* l := repaint_start_latent r t in ok (with_latents s l)
            else ok s in
          let* s := prediction x i t s in
          match noise_pred s with
          | None => raise UnboundLocalError
          | Some p =>
              let* l := repaint_advance x r i t p (latents s) in
              ok (with_latents s l)
          end
    | None =>
        let* s := prediction x i t s in
        match noise_pred s with
        | None => raise UnboundLocalError
        | Some p =>
            let '(l, sc) := step (sched s) p t (latents s)
                                 (omega_scale (cfg x)) in
            ok {| latents := l; noise_pred := noise_pred s;
                  momentum_buffer := momentum_buffer s; sched := sc;
                  trace := trace s ++ [SchedulerStep i] |}
        end
    end.

(** The loop over [enumerate(timesteps)], from index [i]. *)
Fixpoint loop (x : loop_ctx) (i : Z) (ts : list Q) (s : loop_state)
  : result loop_state :=
  match ts with
  | [] => ok s
  | t :: rest => let* s' := loop_body x i t s in loop x (i + 1) rest s'
  end.

End Loop.

(** Lines 1054-1062: reattaching the cached slices. *)
Definition extend_reassembly (is_extend : bool) (target_latents : latent)
           (to_right_pad_gt_latents to_left_pad_gt_latents : option latent)
  : result latent :=
  if is_extend then
    let* target_latents :=
      match to_right_pad_gt_latents with
      | Some _ => cat3 [Some target_latents; to_right_pad_gt_latents]
      | None => ok target_latents
      end in
    match to_left_pad_gt_latents with
    | Some _ => cat0 [to_right_pad_gt_latents; Some target_latents]
    | None => ok target_latents
    end
  else ok target_latents.

(* ------------------------------------------------------------------------- *)
(** ** [text2music_diffusion_process]: the whole function *)

Section Process.
Context `{TR : Transformer} `{SC : Schedules} `{GD : Guidance} `{RD : Random}.

(** The tensor arguments of [text2music_diffusion_process]. *)
Record inputs : Type := {
  encoder_text_hidden_states : text_states;
  text_attention_mask : text_mask;
  speaker_embds : speaker;
  lyric_token_ids : lyric_ids;
  lyric_mask : lyric_msk;
  encoder_text_hidden_states_null : option text_states;
  random_generators : list generator;
  retake_random_generators : list generator;
  src_latents : option latent;
  ref_latents : option latent
}.

(** Lines 578-580. *)
Definition classifier_free_guidance (c : config) : bool :=
  negb (Qeq_bool (guidance_scale c) 0 || Qeq_bool (guidance_scale c) 1).

(** Lines 582-589. *)
Definition double_condition_guidance (c : config) : bool :=
  match guidance_scale_text c, guidance_scale_lyric c with
  | Some gt, Some gl => Qltb 1 gt && Qltb 1 gl
  | _, _ => false
  end.

(** Lines 602-611; any other scheduler name leaves the local unbound. *)
Definition make_scheduler (k : scheduler_kind) : result scheduler :=
  match k with
  | SchedEuler => ok FlowMatchEulerDiscreteScheduler
  | SchedHeun => ok FlowMatchHeunDiscreteScheduler
  | SchedOther => raise UnboundLocalError
  end.

(** Lines 613-618. *)
Definition working_frame_length (c : config) (a : inputs) : Z :=
  let frame_length := frames_of_seconds (duration c) in
  let frame_length := match src_latents a with
                      | Some s => dim3 (shp s)
                      | None => frame_length
                      end in
  match ref_latents a with
  | Some r => dim3 (shp r)
  | None => frame_length
  end.

Fixpoint map_result {A B} (f : A -> result B) (l : list A) : result (list B) :=
  match l with
  | [] => ok []
  | a :: rest =>
      let* b := f a in
      let* bs := map_result f rest in
      ok (b :: bs)
  end.

(** Lines 620-649: the schedule, the step count used for the guidance
    window, and [infer_steps] as later code sees it. *)
Definition make_schedule (c : config) (s : scheduler)
  : result (list Q * Z * Z * scheduler) :=
  match oss_steps c with
  | o :: os =>
      let infer_steps := fold_left Z.max os o in
      let '(timesteps, _, s) := retrieve_timesteps s infer_steps in
      let* new_timesteps :=
        map_result (fun k => index timesteps (k - 1)) (oss_steps c) in
      let sigmas := List.map (fun t => (t / 1000)%Q) new_timesteps in
      let '(timesteps, num_inference_steps, s) :=
        retrieve_timesteps_sigmas s sigmas in
      ok (timesteps, num_inference_steps, infer_steps, s)
  | [] =>
      let '(timesteps, num_inference_steps, s) :=
        retrieve_timesteps s (infer_steps c) in
      ok (timesteps, num_inference_steps, infer_steps c, s)
  end.

(** Lines 785-786, in Python's floats. *)
Definition guidance_window (c : config) (num_inference_steps : Z) : Z * Z :=
  let n := Float.double (inject_Z num_inference_steps) in
  let g := Float.double (guidance_interval c) in
  (int_of_float (Float.mul n (Float.div (Float.sub 1 g) 2)),
   int_of_float (Float.mul n (Float.add (Float.div g 2) 0.5))).

(** Lines 816-872: the three conditionings. *)
Definition conditionings (c : config) (a : inputs)
  : enc_states * enc_mask * enc_states * option enc_states :=
  let text := encoder_text_hidden_states a in
  let '(ehs, ehm) :=
    encode text (text_attention_mask a) (speaker_embds a)
           (lyric_token_ids a) (lyric_mask a) in
  let ehs_null :=
    if use_erg_lyric c then
      fst (encode_with_temperature
             (match encoder_text_hidden_states_null a with
              | Some n => n
              | None => zeros_like_text text
              end)
             (text_attention_mask a) (zeros_like_speaker (speaker_embds a))
             (lyric_token_ids a) (lyric_mask a))
    else
      fst (encode (zeros_like_text text) (text_attention_mask a)
                  (zeros_like_speaker (speaker_embds a))
                  (zeros_like_lyric (lyric_token_ids a)) (lyric_mask a)) in
  let ehs_no_lyric :=
    if double_condition_guidance c then
      if use_erg_lyric c then
        Some (fst (encode_with_temperature
                     text (text_attention_mask a)
                     (zeros_like_speaker (speaker_embds a))
                     (lyric_token_ids a) (lyric_mask a)))
      else
        Some (fst (encode text (text_attention_mask a)
                          (zeros_like_speaker (speaker_embds a))
                          (zeros_like_lyric (lyric_token_ids a))
                          (lyric_mask a)))
    else None in
  (ehs, ehm, ehs_null, ehs_no_lyric).

(** Lines 651-780: the initial latent, the retake setup and the audio2audio
    pre-noise; returns the setup and [init_timestep]. *)
Definition initial_latent (c : config) (a : inputs) (infer_steps bsz : Z)
           (s : scheduler) : result (prepared * Q) :=
  let frames := working_frame_length c a in
  let* (target, _) :=
    randn_tensor (Shape bsz 8 16 frames) (random_generators a) in
  let* p :=
    if add_retake_noise c then
      let* (retake, _) :=
        randn_tensor (Shape bsz 8 16 frames)
                     (retake_random_generators a) in
      retake_setup c infer_steps bsz frames (src_latents a) target retake
    else ok (no_retake frames target) in
  match audio2audio_enable c, ref_latents a with
  | true, Some ref =>
      let* (noisy, init_timestep) :=
        add_latents_noise ref
                          (Float.sub 1 (Float.double (ref_audio_strength c)))
                          (target_latents p) (timesteps s) (sigmas s) in
      ok ({| target_latents := noisy; frame_length := frame_length p;
             is_extend := is_extend p; repaint := repaint p;
             to_right_pad_gt_latents := to_right_pad_gt_latents p;
             to_left_pad_gt_latents := to_left_pad_gt_latents p |},
          init_timestep)
  | _, _ => ok (p, 1000%Q)
  end.

(** The context of the step loop, from the setup (lines 782-872). *)
Definition make_loop_ctx (c : config) (a : inputs) (bsz : Z)
           (timesteps : list Q) (num_inference_steps : Z)
           (p : prepared) (init_timestep : Q) : loop_ctx :=
  let '(ehs, ehm, ehs_null, ehs_no_lyric) := conditionings c a in
  let '(start_idx, end_idx) := guidance_window c num_inference_steps in
  {| cfg := c;
     all_timesteps := timesteps;
     init_timestep := init_timestep;
     rp := repaint p;
     attention_mask := (bsz, frame_length p);
     start_idx := start_idx;
     end_idx := end_idx;
     do_classifier_free_guidance := classifier_free_guidance c;
     do_double_condition_guidance := double_condition_guidance c;
     encoder_hidden_states := ehs;
     encoder_hidden_mask := ehm;
     encoder_hidden_states_null := ehs_null;
     encoder_hidden_states_no_lyric := ehs_no_lyric |}.

(** Everything before the step loop (lines 578-872): the loop's context,
    the schedule it iterates over, its first state and the setup. *)
Record run_setup : Type := {
  rs_ctx : loop_ctx;
  rs_timesteps : list Q;
  rs_state : loop_state;
  rs_prepared : prepared
}.

Definition text2music_setup (c : config) (a : inputs) : result run_setup :=
  let bsz := text_batch (encoder_text_hidden_states a) in
  let* s := make_scheduler (scheduler_type c) in
  let* (timesteps, num_inference_steps, infer_steps, s) := make_schedule c s in
  let* (p, init_timestep) := initial_latent c a infer_steps bsz s in
  ok {| rs_ctx := make_loop_ctx c a bsz timesteps num_inference_steps
                                p init_timestep;
        rs_timesteps := timesteps;
        rs_state := {| latents := target_latents p; noise_pred := None;
                       momentum_buffer := MomentumBuffer; sched := s;
                       trace := [] |};
        rs_prepared := p |}.

(** [text2music_diffusion_process], with the record of the loop's calls. *)
Definition text2music_run (c : config) (a : inputs)
  : result (latent * list event) :=
  let* r := text2music_setup c a in
  let* final := loop (rs_ctx r) 0 (rs_timesteps r) (rs_state r) in
  let p := rs_prepared r in
  let* out :=
    extend_reassembly (is_extend p) (latents final)
                      (to_right_pad_gt_latents p) (to_left_pad_gt_latents p) in
  ok (out, trace final).

Definition text2music_diffusion_process (c : config) (a : inputs)
  : result latent :=
  let* (out, _) := text2music_run c a in ok out.

End Process.

(** *** Reading the record of calls *)

(** The loop indices [i, i + 1, ..., i + n - 1]. *)
Definition indices (i : Z) (n : nat) : list Z :=
  List.map (fun k => i + Z.of_nat k) (seq 0 n).




End Sampler.

(* ------------------------------------------------------------------------- *)
(** ** [calc_v] and [flowedit_diffusion_process] *)

Module FlowEdit.
Import Py Tensor Extern.
Import Sampler (scale, add, sub, cfg_kind, CfgApg, CfgCfg, CfgStar, CfgOther,
                next_level).

(** The two [MomentumBuffer] objects of one sampling call (lines 405-406),
    by the name of the local that holds them. *)
Inductive buffer : Type := momentum_buffer | momentum_buffer_tar.

Inductive trajectory : Type := Source | Target.

(** A call of [apg_forward] at loop index [i], for one trajectory, with the
    buffer object it was handed ([None] when it was handed none). *)
Inductive event : Type :=
| Apg (i : Z) (tr : trajectory) (passed : option buffer)
| Cfg (i : Z) (tr : trajectory).

Section FlowEdit.
Context `{TR : Transformer} `{SC : Schedules} `{GD : Guidance} `{RD : Random}.

(** The contents of the two buffer objects. *)
Record buffers : Type := { of_src : momentum; of_tar : momentum }.

Definition read (b : buffers) (r : option buffer) : option momentum :=
  match r with
  | Some momentum_buffer => Some (of_src b)
  | Some momentum_buffer_tar => Some (of_tar b)
  | None => None
  end.

(** What [apg_forward] left in the object it was handed. *)
Definition write (b : buffers) (r : option buffer) (m : option momentum)
  : buffers :=
  match r, m with
  | Some momentum_buffer, Some m' => {| of_src := m'; of_tar := of_tar b |}
  | Some momentum_buffer_tar, Some m' => {| of_src := of_src b; of_tar := m' |}
  | _, _ => b
  end.

(** One trajectory's conditioning. *)
Record conditioning : Type := {
  c_text : text_states;
  c_text_mask : text_mask;
  c_speaker : speaker;
  c_lyric : lyric_ids;
  c_lyric_mask : lyric_msk
}.

(** Lines 252-284 and 286-316: one trajectory's prediction and fusion. *)
Definition guided_velocity (i : Z) (tr : trajectory) (zt : latent) (t : Q)
           (c : conditioning) (attention_mask : Z * Z)
           (do_classifier_free_guidance : bool) (guidance_scale : Q)
           (cfg_type : cfg_kind) (passed : option buffer)
           (b : buffers) (log : list event)
  : result (latent * buffers * list event) :=
  let* latent_model_input :=
    if do_classifier_free_guidance then cat0 [Some zt; Some zt] else ok zt in
  let noise_pred :=
    forward latent_model_input attention_mask (c_text c) (c_text_mask c)
            (c_speaker c) (c_lyric c) (c_lyric_mask c) t in
  if do_classifier_free_guidance then
    let* (with_cond, uncond) := chunk2 noise_pred in
    match cfg_type with
    | CfgApg =>
        let '(p, m) := apg_forward with_cond uncond guidance_scale
                                   (read b passed) in
        ok (p, write b passed m, log ++ [Apg i tr passed])
    | CfgCfg =>
        ok (cfg_forward with_cond uncond guidance_scale, b,
            log ++ [Cfg i tr])
    | _ => ok (noise_pred, b, log)
    end
  else ok (noise_pred, b, log).

(** What a latent that is [None] raises: [torch.cat([None, None])] is a
    [TypeError], and without guidance [None.shape] an [AttributeError]
    (lines 251-254 and 286-289). *)
Definition none_latent (do_classifier_free_guidance : bool) : exn :=
  if do_classifier_free_guidance then TypeError else AttributeError.

(** [calc_v] (lines 226-317); [i] is the caller's loop index, kept for the
    record of calls. *)
Definition calc_v (i : Z) (zt_src : option latent) (zt_tar : option latent)
           (t : Q) (src tar : conditioning)
           (do_classifier_free_guidance : bool)
           (guidance_scale target_guidance_scale : Q)
           (cfg_type : cfg_kind) (attention_mask : Z * Z)
           (momentum_buffer momentum_buffer_tar : option buffer)
           (return_src_pred : bool)
           (b : buffers) (log : list event)
  : result (option latent * latent * buffers * list event) :=
  let* (noise_pred_src, b, log) :=
    if return_src_pred then
      match zt_src with
      | None => raise (none_latent do_classifier_free_guidance)
      | Some z =>
          let* (p, b, log) :=
            guided_velocity i Source z t src attention_mask
                            do_classifier_free_guidance guidance_scale
                            cfg_type momentum_buffer b log in
          ok (Some p, b, log)
      end
    else ok (None, b, log) in
  match zt_tar with
  | None => raise (none_latent do_classifier_free_guidance)
  | Some z =>
      let* (noise_pred_tar, b, log) :=
        guided_velocity i Target z t tar attention_mask
                        do_classifier_free_guidance target_guidance_scale
                        cfg_type momentum_buffer_tar b log in
      ok (noise_pred_src, noise_pred_tar, b, log)
  end.

(** What the flow-edit loop reads and never writes. *)
Record flow_ctx : Type := {
  x_src : latent;
  f_timesteps : list Q;
  f_n_min : Z;
  f_n_max : Z;
  f_n_avg : Z;
  f_src : conditioning;
  f_tar : conditioning;
  f_do_classifier_free_guidance : bool;
  f_guidance_scale : Q;
  f_attention_mask : Z * Z
}.

(** What the flow-edit loop updates. *)
Record flow_state : Type := {
  zt_edit : latent;
  xt_tar : option latent;
  gens : list generator;
  bufs : buffers;
  f_sched : scheduler;
  calls : list event
}.

(** Lines 430-464: [for k in range(n_avg)], [k] repetitions left. *)
Fixpoint average_velocity (x : flow_ctx) (i : Z) (t : Q) (k : nat)
         (V_delta_avg : latent) (s : flow_state)
  : result (latent * flow_state) :=
  match k with
  | O => ok (V_delta_avg, s)
  | S k' =>
      let t_i := (t / 1000)%Q in
      let* (fwd_noise, g) := randn_tensor (shp (x_src x)) (gens s) in
      let* zt_src := add (scale (1 - Q2R t_i) (x_src x))
                         (scale (Q2R t_i) fwd_noise) in
      let* a := add (zt_edit s) zt_src in
      let* zt_tar := sub a (x_src x) in
      let* (Vt_src, Vt_tar, b, log) :=
        calc_v i (Some zt_src) (Some zt_tar) t (f_src x) (f_tar x)
               (f_do_classifier_free_guidance x)
               (f_guidance_scale x) (f_guidance_scale x) CfgApg
               (f_attention_mask x) (Some momentum_buffer) None true
               (bufs s) (calls s) in
      match Vt_src with
      | None => raise TypeError
      | Some Vt_src =>
          let* d := sub Vt_tar Vt_src in
          let* V := add V_delta_avg
                        (scale (Q2R (1 / inject_Z (f_n_avg x))) d) in
          average_velocity x i t k' V
            {| zt_edit := zt_edit s; xt_tar := xt_tar s; gens := g;
               bufs := b; f_sched := f_sched s; calls := log |}
      end
  end.

(** Lines 471-481: the pair frozen at the boundary step. *)
Definition freeze_pair (x : flow_ctx) (t : Q) (s : flow_state)
  : result flow_state :=
  let* (fwd_noise, g) := randn_tensor (shp (x_src x)) (gens s) in
  let '(step_index, sc) := init_step_index (f_sched s) t in
  let* sigma := index (sigmas sc) step_index in
  let* xt_src := add (scale (Q2R sigma) fwd_noise)
                     (scale (1 - Q2R sigma) (x_src x)) in
  let* a := add (zt_edit s) xt_src in
  let* xt := sub a (x_src x) in
  ok {| zt_edit := zt_edit s; xt_tar := Some xt; gens := g;
        bufs := bufs s; f_sched := sc; calls := calls s |}.

(** One iteration of the loop of lines 415-509. *)
Definition flow_body (x : flow_ctx) (i : Z) (t : Q) (s : flow_state)
  : result flow_state :=
  if i <? f_n_min x then ok s
  else
    let t_i := (t / 1000)%Q in
    let t_im1 := next_level (f_timesteps x) i in
    if i <? f_n_max x then
      let* (V_delta_avg, s) :=
        average_velocity x i t (Z.to_nat (f_n_avg x))
                         (full (shp (x_src x)) 0%R) s in
      let* z := add (zt_edit s) (scale (Q2R t_im1 - Q2R t_i) V_delta_avg) in
      ok {| zt_edit := z; xt_tar := xt_tar s; gens := gens s;
            bufs := bufs s; f_sched := f_sched s; calls := calls s |}
    else
      let* s := if i =? f_n_max x then freeze_pair x t s else ok s in
      let* (_, Vt_tar, b, log) :=
        calc_v i None (xt_tar s) t (f_src x) (f_tar x)
               (f_do_classifier_free_guidance x)
               (f_guidance_scale x) (f_guidance_scale x) CfgApg
               (f_attention_mask x) None (Some momentum_buffer_tar) false
               (bufs s) (calls s) in
      match xt_tar s with
      | None => raise TypeError
      | Some xt =>
          let* prev_sample := add xt (scale (Q2R t_im1 - Q2R t_i) Vt_tar) in
          ok {| zt_edit := zt_edit s; xt_tar := Some prev_sample;
                gens := gens s; bufs := b; f_sched := f_sched s;
                calls := log |}
      end.

Fixpoint flow_loop (x : flow_ctx) (i : Z) (ts : list Q) (s : flow_state)
  : result flow_state :=
  match ts with
  | [] => ok s
  | t :: rest => let* s' := flow_body x i t s in flow_loop x (i + 1) rest s'
  end.

(** Lines 363-403: every conditioning tensor concatenated with its null
    counterpart along the batch axis. *)
Definition with_null (c : conditioning) : conditioning :=
  {| c_text := cat_text (c_text c) (zeros_like_text (c_text c));
     c_text_mask := cat_text_mask (c_text_mask c) (c_text_mask c);
     c_speaker := cat_speaker (c_speaker c) (zeros_like_speaker (c_speaker c));
     c_lyric := cat_lyric (c_lyric c) (zeros_like_lyric (c_lyric c));
     c_lyric_mask := cat_lyric_mask (c_lyric_mask c)
                                    (zeros_like_lyric_mask (c_lyric_mask c)) |}.

(** [flowedit_diffusion_process] (lines 320-512), with the record of the
    fusion calls. *)
Definition flowedit_run (src tar : conditioning) (src_latents : latent)
           (random_generators : list generator) (infer_steps : Z)
           (guidance_scale n_min n_max : Q) (n_avg : Z)
  : result (latent * list event) :=
  let do_classifier_free_guidance :=
    negb (Qeq_bool guidance_scale 0 || Qeq_bool guidance_scale 1) in
  let bsz := text_batch (c_text src) in
  let frame_length := dim3 (shp src_latents) in
  let '(timesteps, T_steps, sc) :=
    retrieve_timesteps FlowMatchEulerDiscreteScheduler infer_steps in
  let x :=
    {| x_src := src_latents;
       f_timesteps := timesteps;
       f_n_min := int_of_float (inject_Z infer_steps * n_min);
       f_n_max := int_of_float (inject_Z infer_steps * n_max);
       f_n_avg := n_avg;
       f_src := if do_classifier_free_guidance then with_null src else src;
       f_tar := if do_classifier_free_guidance then with_null tar else tar;
       f_do_classifier_free_guidance := do_classifier_free_guidance;
       f_guidance_scale := guidance_scale;
       f_attention_mask :=
         (if do_classifier_free_guidance then bsz + bsz else bsz,
          frame_length) |} in
  let* s :=
    flow_loop x 0 timesteps
              {| zt_edit := src_latents; xt_tar := None;
                 gens := random_generators;
                 bufs := {| of_src := MomentumBuffer;
                            of_tar := MomentumBuffer |};
                 f_sched := sc; calls := [] |} in
  ok (match xt_tar s with Some xt => xt | None => zt_edit s end, calls s).

Definition flowedit_diffusion_process (src tar : conditioning)
           (src_latents : latent) (random_generators : list generator)
           (infer_steps : Z) (guidance_scale n_min n_max : Q) (n_avg : Z)
  : result latent :=
  let* (out, _) :=
    flowedit_run src tar src_latents random_generators infer_steps
                 guidance_scale n_min n_max n_avg in
  ok out.

End FlowEdit.

End FlowEdit.

(* ------------------------------------------------------------------------- *)
(** ** [set_seeds] and the generators handed to the sampler *)

Module Seeds.
Import Py Tensor Extern.

(** The Python string methods [set_seeds] relies on. *)
Class Strings : Type := {
  (** [int(s)], [None] where Python raises [ValueError]. *)
  int_of_string : string -> option Z;
  (** [s.isdigit()]. *)
  isdigit : string -> bool
}.

(** A member of a Python list: an [int] or something else. *)
Inductive member : Type := IsInt (n : Z) | NotInt.

(** The values [manual_seeds] can hold. *)
Inductive seeds_arg : Type :=
| SeedsNone
| SeedsStr (s : string)
| SeedsList (l : list member)
| SeedsInt (n : Z)
| SeedsOther.

(** [processed_input_seeds]. *)
Inductive processed : Type :=
| NoSeeds
| OneSeed (n : Z)
| SeedList (l : list Z).

(** [s.split(",")]; [cur] is the piece read since the last comma. *)
Fixpoint split_comma (s : string) (cur : string) : list string :=
  match s with
  | EmptyString => [cur]
  | String c rest =>
      if Ascii.eqb c ","%char then cur :: split_comma rest EmptyString
      else split_comma rest (cur ++ String c EmptyString)
  end.

(** ["," in s]. *)
Fixpoint has_comma (s : string) : bool :=
  match s with
  | EmptyString => false
  | String c rest => Ascii.eqb c ","%char || has_comma rest
  end.

Definition int_member (m : member) : option Z :=
  match m with IsInt n => Some n | NotInt => None end.

(** [all(isinstance(s, int) for s in l)] together with the members as
    integers. *)
Fixpoint all_ints (l : list member) : option (list Z) :=
  match l with
  | [] => Some []
  | m :: rest =>
      match int_member m, all_ints rest with
      | Some n, Some ns => Some (n :: ns)
      | _, _ => None
      end
  end.

(** *** The seeds as a function of the argument alone *)

(** [processed_input_seeds is not None]. *)
Definition explicit (p : processed) : bool :=
  match p with NoSeeds => false | _ => true end.

(** The seed of batch row [i] as a function of the given seeds alone. *)
Definition seed_of (p : processed) (i : Z) : result Z :=
  match p with
  | NoSeeds => raise ValueError
  | OneSeed n => ok n
  | SeedList l =>
      if i <? Z.of_nat (List.length l) then index l i else index l (-1)
  end.

(** [torch.Generator.manual_seed] takes a seed of 64 bits, signed or
    unsigned, and raises [RuntimeError] on any other. *)
Definition seed_fits (n : Z) : bool :=
  (- 2 ^ 63 <=? n) && (n <=? 2 ^ 64 - 1).

Definition check_seed (n : Z) : result unit :=
  if seed_fits n then ok tt else raise RuntimeError.

(** The seeds of rows [i, i + 1, ..., i + k - 1], each accepted by its
    generator. *)
Fixpoint seeds_from (p : processed) (i : Z) (k : nat) : result (list Z) :=
  match k with
  | O => ok []
  | S k' =>
      let* n := seed_of p i in
      let* _ := check_seed n in
      let* ns := seeds_from p (i + 1) k' in
      ok (n :: ns)
  end.

Section SetSeeds.
Context `{ST : Strings} `{RD : Random}.

(** Lines 146-157. *)
Definition process_seeds (manual_seeds : seeds_arg) : result processed :=
  match manual_seeds with
  | SeedsNone => ok NoSeeds
  | SeedsStr s =>
      if has_comma s then
        let* l := (fix parse (ps : list string) : result (list Z) :=
                     match ps with
                     | [] => ok []
                     | p :: rest =>
                         match int_of_string p with
                         | None => raise ValueError
                         | Some n => let* ns := parse rest in ok (n :: ns)
                         end
                     end) (split_comma s EmptyString) in
        ok (SeedList l)
      else if isdigit s then
        match int_of_string s with
        | Some n => ok (OneSeed n)
        | None => raise ValueError
        end
      else ok NoSeeds
  | SeedsList l =>
      match all_ints l with
      | Some ns => if 0 <? Z.of_nat (List.length ns) then ok (SeedList ns)
                   else ok NoSeeds
      | None => ok NoSeeds
      end
  | SeedsInt n => ok (OneSeed n)
  | SeedsOther => ok NoSeeds
  end.

(** Lines 163-174: the seed of batch row [i]. *)
Definition current_seed_for_generator (p : processed) (i : Z) (g : global_rng)
  : result (Z * global_rng) :=
  match p with
  | NoSeeds => ok (randint32 g)
  | OneSeed n => ok (n, g)
  | SeedList l =>
      if i <? Z.of_nat (List.length l)
      then let* n := index l i in ok (n, g)
      else let* n := index l (-1) in ok (n, g)
  end.

(** Lines 162-176: [for i in range(batch_size)], [k] rows left; the
    generator of row [i] refuses a seed that does not fit (line 175). *)
Fixpoint seed_rows (p : processed) (i : Z) (k : nat) (g : global_rng)
  : result (list Z * global_rng) :=
  match k with
  | O => ok ([], g)
  | S k' =>
      let* (n, g) := current_seed_for_generator p i g in
      let* _ := check_seed n in
      let* (ns, g) := seed_rows p (i + 1) k' g in
      ok (n :: ns, g)
  end.

(** [set_seeds] (lines 145-177): the seeded generators, the seeds, and the
    process-wide generator afterwards; every seed has passed
    [manual_seed]. *)
Definition set_seeds (batch_size : Z) (manual_seeds : seeds_arg)
           (g : global_rng)
  : result (list generator * list Z * global_rng) :=
  let* processed_input_seeds := process_seeds manual_seeds in
  let* (actual_seeds, g) :=
    seed_rows processed_input_seeds 0 (Z.to_nat batch_size) g in
  ok (List.map manual_seed actual_seeds, actual_seeds, g).

Context `{TR : Transformer} `{SC : Schedules} `{GD : Guidance}.

(** The tensor arguments [__call__] computes before it seeds anything. *)
Record conditioning : Type := {
  encoder_text_hidden_states : text_states;
  text_attention_mask : text_mask;
  speaker_embds : speaker;
  lyric_token_ids : lyric_ids;
  lyric_mask : lyric_msk;
  encoder_text_hidden_states_null : option text_states;
  src_latents : option latent;
  ref_latents : option latent
}.

(** [__call__], lines 1137-1138 and 1232-1263: both generator lists come
    from [set_seeds] and go to [text2music_diffusion_process]. *)
Definition seeded_text2music (c : Sampler.config) (batch_size : Z)
           (manual_seeds retake_seeds : seeds_arg) (a : conditioning)
           (g : global_rng) : result latent :=
  let* (random_generators, _, g) := set_seeds batch_size manual_seeds g in
  let* (retake_random_generators, _, g) :=
    set_seeds batch_size retake_seeds g in
  Sampler.text2music_diffusion_process c
    {| Sampler.encoder_text_hidden_states := encoder_text_hidden_states a;
       Sampler.text_attention_mask := text_attention_mask a;
       Sampler.speaker_embds := speaker_embds a;
       Sampler.lyric_token_ids := lyric_token_ids a;
       Sampler.lyric_mask := lyric_mask a;
       Sampler.encoder_text_hidden_states_null :=
         encoder_text_hidden_states_null a;
       Sampler.random_generators := random_generators;
       Sampler.retake_random_generators := retake_random_generators;
       Sampler.src_latents := src_latents a;
       Sampler.ref_latents := ref_latents a |}.

End SetSeeds.

End Seeds.

(* ------------------------------------------------------------------------- *)
(** ** Test doubles

    Small collaborators to run the pipeline on: a predictor that returns the
    latent it is given, a linear schedule whose step leaves the sample alone,
    fusions that return the conditional prediction and count the buffer's
    updates, and generators that are their own seed. *)

Module Stub.
Import Py Tensor Extern.

Definition transformer : Transformer := {|
  dtype := Float.float32;
  latent_dtype := Float.float32;
  text_states := Z;
  text_mask := unit;
  speaker := unit;
  lyric_ids := unit;
  lyric_msk := unit;
  enc_states := unit;
  enc_mask := unit;
  text_batch := fun b => b;
  zeros_like_text := fun b => b;
  zeros_like_speaker := fun u => u;
  zeros_like_lyric := fun u => u;
  encode := fun _ _ _ _ _ => (tt, tt);
  encode_with_temperature := fun _ _ _ _ _ => (tt, tt);
  decode := fun x _ _ _ _ _ => x;
  decode_with_temperature := fun x _ _ _ _ _ => x;
  forward := fun x _ _ _ _ _ _ _ => x;
  cat_text := Z.add;
  cat_text_mask := fun _ _ => tt;
  cat_speaker := fun _ _ => tt;
  cat_lyric := fun _ _ => tt;
  cat_lyric_mask := fun _ _ => tt;
  zeros_like_lyric_mask := fun u => u
|}.

(** [1000, 1000 (n-1)/n, ..., 1000/n]. *)
Definition linear (n : Z) : list Q :=
  List.map (fun k => Qred (1000 * inject_Z (n - Z.of_nat k) / inject_Z n))
           (seq 0 (Z.to_nat n)).

Definition schedules : Schedules := {|
  scheduler := list Q;
  FlowMatchEulerDiscreteScheduler := [];
  FlowMatchHeunDiscreteScheduler := [];
  set_timesteps := fun _ n => linear n;
  set_sigmas := fun _ sg => List.map (fun s => Qred (s * 1000)) sg;
  timesteps := fun s => s;
  sigmas := fun s => List.map (fun t => Qred (t / 1000)) s ++ [0%Q];
  step := fun s _ _ x _ => (x, s);
  init_step_index := fun s _ => (0, s)
|}.

Definition guidance : Guidance := {|
  momentum := Z;
  MomentumBuffer := 0;
  apg_forward := fun c _ _ m => (c, option_map Z.succ m);
  cfg_forward := fun c _ _ => c;
  cfg_zero_star := fun c _ _ _ _ _ => c;
  cfg_double_condition_forward := fun c _ _ _ _ => c
|}.

Definition random : Random := {|
  generator := Z;
  manual_seed := fun n => n;
  randn_row := fun g _ _ _ => (fun _ _ _ => IZR g, g + 1);
  randn := fun g _ => (fun _ _ _ _ => IZR g, g + 1);
  global_rng := Z;
  randint32 := fun g => (g mod 2 ^ 32, g + 1);
  randint32_range := fun g => Z.mod_pos_bound g (2 ^ 32) eq_refl
|}.

Definition digit (c : ascii) : option Z :=
  let n := Z.of_nat (nat_of_ascii c) in
  if (48 <=? n) && (n <=? 57) then Some (n - 48) else None.

Fixpoint decimal (s : string) (acc : Z) : option Z :=
  match s with
  | EmptyString => Some acc
  | String c rest =>
      match digit c with
      | Some d => decimal rest (10 * acc + d)
      | None => None
      end
  end.

Definition strings : Seeds.Strings := {|
  Seeds.int_of_string := fun s =>
    match s with EmptyString => None | _ => decimal s 0 end;
  Seeds.isdigit := fun s =>
    match s with
    | EmptyString => false
    | _ => match decimal s 0 with Some _ => true | None => false end
    end
|}.

(** A configuration from the settings the scenarios vary; everything else
    is the default of [text2music_diffusion_process]'s signature.  [retake]
    is [(retake_variance, repaint_start, repaint_end)] when retake noise is
    added, [a2a] the reference strength when audio2audio is enabled. *)
Definition settings (d : Q) (steps : Z) (scale interval decay : Q)
           (text lyric : option Q) (retake : option (Q * Q * Q))
           (a2a : option Q) : Sampler.config := {|
  Sampler.duration := d;
  Sampler.infer_steps := steps;
  Sampler.guidance_scale := scale;
  Sampler.omega_scale := 10;
  Sampler.scheduler_type := Sampler.SchedEuler;
  Sampler.cfg_type := Sampler.CfgApg;
  Sampler.zero_steps := 1;
  Sampler.use_zero_init := true;
  Sampler.guidance_interval := interval;
  Sampler.guidance_interval_decay := decay;
  Sampler.min_guidance_scale := 3;
  Sampler.oss_steps := [];
  Sampler.use_erg_lyric := false;
  Sampler.use_erg_diffusion := false;
  Sampler.retake_variance :=
    match retake with Some (v, _, _) => v | None => 0.5%Q end;
  Sampler.add_retake_noise :=
    match retake with Some _ => true | None => false end;
  Sampler.guidance_scale_text := text;
  Sampler.guidance_scale_lyric := lyric;
  Sampler.repaint_start :=
    match retake with Some (_, b, _) => b | None => 0%Q end;
  Sampler.repaint_end :=
    match retake with Some (_, _, e) => e | None => 0%Q end;
  Sampler.audio2audio_enable :=
    match a2a with Some _ => true | None => false end;
  Sampler.ref_audio_strength :=
    match a2a with Some r => r | None => 0.5%Q end
|}.

(** Inputs for a batch of [b] rows seeded [0, 1, ...]. *)
Definition inputs (b : Z) (src ref : option latent)
  : @Sampler.inputs transformer random := {|
  Sampler.encoder_text_hidden_states := b : @text_states transformer;
  Sampler.text_attention_mask := tt : @text_mask transformer;
  Sampler.speaker_embds := tt : @speaker transformer;
  Sampler.lyric_token_ids := tt : @lyric_ids transformer;
  Sampler.lyric_mask := tt : @lyric_msk transformer;
  Sampler.encoder_text_hidden_states_null := None;
  Sampler.random_generators :=
    List.map Z.of_nat (seq 0 (Z.to_nat b)) : list (@generator random);
  Sampler.retake_random_generators :=
    List.map (fun k => 100 + Z.of_nat k) (seq 0 (Z.to_nat b))
    : list (@generator random);
  Sampler.src_latents := src;
  Sampler.ref_latents := ref
|}.

End Stub.

(* ------------------------------------------------------------------------- *)
(** ** Scenarios *)

Module Scenario.
Import Py Tensor Extern.

Definition run :=
  @Sampler.text2music_run Stub.transformer Stub.schedules Stub.guidance
                          Stub.random.

Definition setup :=
  @Sampler.text2music_setup Stub.transformer Stub.schedules Stub.guidance
                            Stub.random.

(** The calls a run records, without its latent. *)
Definition calls_of (r : result (latent * list Sampler.event))
  : result (list Sampler.event) :=
  let* (_, calls) := r in ok calls.

(** The spec's scenario: ten steps, guidance scale 1. *)
Definition single_pass : Sampler.config :=
  Stub.settings 1 10 1 0.5 0 (Some 0%Q) (Some 0%Q) None None.

(** Two steps, guidance in the middle half of the schedule, decaying. *)
Definition narrow_window : Sampler.config :=
  Stub.settings 1 2 15 0.5 1 (Some 0%Q) (Some 0%Q) None None.


(** A clip of 200 seconds extended by 100 seconds on the right, as
    [ACEStepExtend] asks for it. *)
Definition extend_right : Sampler.config :=
  Stub.settings 200 4 1 0.5 0 (Some 0%Q) (Some 0%Q)
                (Some (1%Q, 0%Q, 300%Q)) None.


(** A one-second clip retaken in full, with the given variance. *)
Definition retake (variance : Q) : Sampler.config :=
  Stub.settings 1 4 1 0.5 0 (Some 0%Q) (Some 0%Q)
                (Some (variance, 0%Q, 1%Q)) None.

(** audio2audio over four steps with reference strength 0.3. *)
Definition audio2audio : Sampler.config :=
  Stub.settings 1 4 1 0.5 0 (Some 0%Q) (Some 0%Q) None (Some 0.3%Q).

(** A source or reference clip of [n] frames, every entry [v]. *)
Definition clip (n : Z) (v : R) : latent := full (Shape 1 8 16 n) v.


(** The flow-edit sampler on the test doubles, and one trajectory's
    conditioning for a batch of one. *)
Definition flowedit :=
  @FlowEdit.flowedit_run Stub.transformer Stub.schedules Stub.guidance
                         Stub.random.

Definition flow_conditioning : @FlowEdit.conditioning Stub.transformer := {|
  FlowEdit.c_text := 1 : @text_states Stub.transformer;
  FlowEdit.c_text_mask := tt : @text_mask Stub.transformer;
  FlowEdit.c_speaker := tt : @speaker Stub.transformer;
  FlowEdit.c_lyric := tt : @lyric_ids Stub.transformer;
  FlowEdit.c_lyric_mask := tt : @lyric_msk Stub.transformer
|}.

(** The fusion calls a flow-edit run records, without its latent. *)
Definition fusions_of (r : result (latent * list FlowEdit.event))
  : result (list FlowEdit.event) :=
  let* (_, calls) := r in ok calls.

(** The conditioning of a batch of two, before any seeding. *)
Definition call_conditioning
  : @Seeds.conditioning Stub.transformer := {|
  Seeds.encoder_text_hidden_states := 2 : @text_states Stub.transformer;
  Seeds.text_attention_mask := tt : @text_mask Stub.transformer;
  Seeds.speaker_embds := tt : @speaker Stub.transformer;
  Seeds.lyric_token_ids := tt : @lyric_ids Stub.transformer;
  Seeds.lyric_mask := tt : @lyric_msk Stub.transformer;
  Seeds.encoder_text_hidden_states_null := None;
  Seeds.src_latents := None;
  Seeds.ref_latents := None
|}.

End Scenario.

(* ------------------------------------------------------------------------- *)
(** ** [__call__]: the task, the windows and the source a call settles on *)

Module Call.
Import Py Tensor Extern.

(** What [__call__] asks of the file system and of the text encoder. *)
Class Files : Type := {
  (** [os.path.exists]. *)
  path_exists : string -> bool;
  (** [self.infer_latents]: the latent of the audio file at a path. *)
  infer_latents : string -> latent;
  (** [self.get_text_embeddings([prompt], self.device)] and
      [self.get_text_embeddings_null([prompt], self.device)]: whether the
      tokenizer and the text encoder return for the prompt, or what they
      raise; the hidden states themselves are the [conditioning] of
      [Seeds]. *)
  get_text_embeddings : option string -> result unit;
  get_text_embeddings_null : option string -> result unit
}.

(** [s in (a, b, c)] on strings. *)
Definition member_of (s : string) (l : list string) : bool :=
  existsb (String.eqb s) l.

(** The arguments of [__call__] that decide what is run; [None] is the
    default of [lyrics], [ref_audio_input], [src_audio_path],
    [edit_target_lyrics] and [oss_steps]. *)
Record arguments : Type := {
  audio_duration : Q;
  prompt : option string;
  lyrics : option string;
  manual_seeds : Seeds.seeds_arg;
  retake_seeds : Seeds.seeds_arg;
  use_erg_tag : bool;
  batch_size : Z;
  task : string;
  audio2audio_enable : bool;
  ref_audio_input : option string;
  src_audio_path : option string;
  repaint_start : Q;
  repaint_end : Q;
  edit_target_lyrics : option string;
  oss_steps : option string
}.

(** What the call hands to the sampler it chooses. *)
Record plan : Type := {
  p_task : string;
  p_duration : Q;
  p_oss_steps : list Z;
  p_add_retake_noise : bool;
  p_repaint_start : Q;
  p_repaint_end : Q;
  p_src_latents : option latent;
  p_ref_latents : option latent;
  (** [flowedit_diffusion_process] is called, not
      [text2music_diffusion_process]. *)
  p_edit : bool
}.

Definition retake_tasks : list string := ["retake"; "repaint"; "extend"]%string.
Definition source_tasks : list string := ["repaint"; "edit"; "extend"]%string.

Section Call.
Context `{ST : Seeds.Strings} `{FS : Files}.

(** [list(map(int, pieces))]. *)
Fixpoint parse_ints (ps : list string) : result (list Z) :=
  match ps with
  | [] => ok []
  | p :: rest =>
      match Seeds.int_of_string p with
      | None => raise ValueError
      | Some n => let* ns := parse_ints rest in ok (n :: ns)
      end
  end.

(** Lines 1140-1143. *)
Definition parse_oss_steps (o : option string) : result (list Z) :=
  match o with
  | Some s =>
      if 0 <? Z.of_nat (String.length s)
      then parse_ints (Seeds.split_comma s EmptyString)
      else ok []
  | None => ok []
  end.

(** [len(x)] on an argument whose default is [None]. *)
Definition len_of (o : option string) : result Z :=
  match o with
  | Some s => ok (Z.of_nat (String.length s))
  | None => raise TypeError
  end.

(** Lines 1132-1133. *)
Definition effective_task (a : arguments) : string :=
  match audio2audio_enable a, ref_audio_input a with
  | true, Some _ => "audio2audio"%string
  | _, _ => task a
  end.

(** Lines 1182-1186. *)
Definition load_source (task : string) (path : option string)
  : result (option latent) :=
  match path with
  | None => ok None
  | Some p =>
      if negb (member_of task source_tasks) then raise AssertionError
      else if negb (path_exists p) then raise AssertionError
      else ok (Some (infer_latents p))
  end.

(** Lines 1188-1194. *)
Definition load_reference (a : arguments) : result (option latent) :=
  match ref_audio_input a, audio2audio_enable a with
  | Some p, true =>
      if negb (path_exists p) then raise AssertionError
      else ok (Some (infer_latents p))
  | _, _ => ok None
  end.

(** [x.repeat(batch_size, 1, 1)] (lines 1148-1149) refuses a negative
    count. *)
Definition repeat_rows (batch_size : Z) : result unit :=
  if batch_size <? 0 then raise RuntimeError else ok tt.

(** [__call__] after the seeding, from line 1140 to the choice of the
    sampler at line 1196, with the task of lines 1132-1133; [drawn] is
    what [random.uniform(30.0, 240.0)] returns when it is called.  The
    lyric tokenizer of line 1162 swallows what it raises ([Lyrics]). *)
Definition plan_call (a : arguments) (drawn : Q) : result plan :=
  let task := effective_task a in
  let* oss_steps := parse_oss_steps (oss_steps a) in
  let* _ := get_text_embeddings (prompt a) in
  let* _ := repeat_rows (batch_size a) in
  let* _ := if use_erg_tag a then get_text_embeddings_null (prompt a)
            else ok tt in
  let* _ := len_of (lyrics a) in
  let audio_duration :=
    if Qle_bool (audio_duration a) 0 then drawn else audio_duration a in
  let add_retake_noise := member_of task retake_tasks in
  let '(repaint_start, repaint_end) :=
    if String.eqb task "retake" then (0%Q, audio_duration)
    else (repaint_start a, repaint_end a) in
  let* src_latents := load_source task (src_audio_path a) in
  let* ref_latents := load_reference a in
  let* _ := if String.eqb task "edit" then len_of (edit_target_lyrics a)
            else ok 0 in
  ok {| p_task := task;
        p_duration := audio_duration;
        p_oss_steps := oss_steps;
        p_add_retake_noise := add_retake_noise;
        p_repaint_start := repaint_start;
        p_repaint_end := repaint_end;
        p_src_latents := src_latents;
        p_ref_latents := ref_latents;
        p_edit := String.eqb task "edit" |}.

(** The keyword arguments of [text2music_diffusion_process] at lines
    1232-1263: those the call settled on, the others as they were given. *)
Definition sampler_config (given : Sampler.config) (a : arguments) (p : plan)
  : Sampler.config :=
  {| Sampler.duration := p_duration p;
     Sampler.infer_steps := Sampler.infer_steps given;
     Sampler.guidance_scale := Sampler.guidance_scale given;
     Sampler.omega_scale := Sampler.omega_scale given;
     Sampler.scheduler_type := Sampler.scheduler_type given;
     Sampler.cfg_type := Sampler.cfg_type given;
     Sampler.zero_steps := Sampler.zero_steps given;
     Sampler.use_zero_init := Sampler.use_zero_init given;
     Sampler.guidance_interval := Sampler.guidance_interval given;
     Sampler.guidance_interval_decay := Sampler.guidance_interval_decay given;
     Sampler.min_guidance_scale := Sampler.min_guidance_scale given;
     Sampler.oss_steps := p_oss_steps p;
     Sampler.use_erg_lyric := Sampler.use_erg_lyric given;
     Sampler.use_erg_diffusion := Sampler.use_erg_diffusion given;
     Sampler.retake_variance := Sampler.retake_variance given;
     Sampler.add_retake_noise := p_add_retake_noise p;
     Sampler.guidance_scale_text := Sampler.guidance_scale_text given;
     Sampler.guidance_scale_lyric := Sampler.guidance_scale_lyric given;
     Sampler.repaint_start := p_repaint_start p;
     Sampler.repaint_end := p_repaint_end p;
     Sampler.audio2audio_enable := audio2audio_enable a;
     Sampler.ref_audio_strength := Sampler.ref_audio_strength given |}.

End Call.

Section Seeded.
Context `{ST : Seeds.Strings} `{FS : Files} `{RD : Random}.

(** [__call__] up to the choice of the sampler: the two seedings of lines
    1137-1138 come first, then everything [plan_call] does. *)
Definition call (a : arguments) (drawn : Q) (g : global_rng)
  : result (plan * list generator * list generator * global_rng) :=
  let* (random_generators, _, g) :=
    Seeds.set_seeds (batch_size a) (manual_seeds a) g in
  let* (retake_random_generators, _, g) :=
    Seeds.set_seeds (batch_size a) (retake_seeds a) g in
  let* p := plan_call a drawn in
  ok (p, random_generators, retake_random_generators, g).

End Seeded.

End Call.

(* ------------------------------------------------------------------------- *)
(** ** [get_lang] and [tokenize_lyrics] *)

Module Lyrics.
Import Py.
Local Open Scope string_scope.

(** The language segmenter, the lyric tokenizer and the one string method
    that is not written out below. *)
Class Tokenizer : Type := {
  (** [line.strip()]. *)
  strip : string -> string;
  (** [lang_segment.getTexts(text)] followed by [lang_segment.getCounts()]:
      the languages found, most frequent first; [None] when either call
      raises. *)
  getCounts : string -> option (list string);
  (** [lyric_tokenizer.encode(line, lang)], [None] when it raises. *)
  encode : string -> string -> option (list Z);
  (** Whether [lyric_tokenizer.batch_decode] raises on these tokens. *)
  batch_decode_raises : list Z -> bool;
  (** [lyric_tokenizer.preprocess_text(line, lang)], [None] when it
      raises. *)
  preprocess_text : string -> string -> option string
}.

(** The keys of [SUPPORT_LANGUAGES]. *)
Definition SUPPORT_LANGUAGES : list string :=
  ["en"; "de"; "fr"; "es"; "it"; "pt"; "pl"; "tr"; "ru"; "cs"; "nl"; "ar";
   "zh"; "ja"; "hu"; "ko"; "hi"].

Definition supported (lang : string) : bool :=
  existsb (String.eqb lang) SUPPORT_LANGUAGES.

(** [needle in hay] on strings. *)
Fixpoint contains (needle hay : string) : bool :=
  String.prefix needle hay
  || match hay with
     | EmptyString => false
     | String _ rest => contains needle rest
     end.

Definition newline : ascii := "010"%char.

(** [s.split("\n")]; [cur] is the piece read since the last newline. *)
Fixpoint split_lines (s : string) (cur : string) : list string :=
  match s with
  | EmptyString => [cur]
  | String c rest =>
      if Ascii.eqb c newline then cur :: split_lines rest EmptyString
      else split_lines rest (cur ++ String c EmptyString)
  end.

(** Whether [".*?\]"] matches at the head of [s]: a closing bracket before
    any newline. *)
Fixpoint closes (s : string) : bool :=
  match s with
  | EmptyString => false
  | String c rest =>
      if Ascii.eqb c "]"%char then true
      else if Ascii.eqb c newline then false
      else closes rest
  end.

(** [re.compile(r"\[.*?\]").match(line)]. *)
Definition structure_pattern_match (line : string) : bool :=
  match line with
  | String c rest => Ascii.eqb c "["%char && closes rest
  | EmptyString => false
  end.

Section Lyrics.
Context `{TK : Tokenizer}.

(** [get_lang] (pipeline lines 179-189, text2lyric lines 33-43): an empty
    count list raises [IndexError] inside the [try]. *)
Definition get_lang (text : string) : string :=
  match getCounts text with
  | Some (language :: more) =>
      match more with
      | second :: _ => if String.eqb language "en" then second else language
      | [] => language
      end
  | Some [] => "en"
  | None => "en"
  end.

(** Lines 200-207: the language a line is encoded with when it is not a
    structure line. *)
Definition language_of (line : string) : string :=
  let lang := get_lang line in
  let lang := if negb (supported lang) then "en" else lang in
  let lang := if contains "zh" lang then "zh" else lang in
  let lang := if contains "spa" lang then "es" else lang in
  lang.

(** One iteration of the loop of lines 194-222. *)
Definition tokenize_line (debug : bool) (lyric_token_idx : list Z)
           (line : string) : list Z :=
  let line := strip line in
  if String.eqb line "" then lyric_token_idx ++ [2]
  else
    let lang := language_of line in
    match encode line (if structure_pattern_match line then "en" else lang)
    with
    | Some token_idx =>
        if debug && batch_decode_raises token_idx then lyric_token_idx
        else lyric_token_idx ++ token_idx ++ [2]
    | None => lyric_token_idx
    end.

(** [ACEStepPipeline.tokenize_lyrics] (lines 191-223). *)
Definition tokenize_lyrics (lyrics : string) (debug : bool) : list Z :=
  fold_left (tokenize_line debug) (split_lines lyrics "") [261].

(** One iteration of the loop of text2lyric lines 48-72. *)
Definition text2lyric_line (pieces : list string) (line : string) : list string :=
  let line := strip line in
  if String.eqb line "" then pieces ++ [String newline ""]
  else
    let lang := language_of line in
    if structure_pattern_match line then
      match preprocess_text line "en" with
      | Some text => pieces ++ [text ++ String newline ""]
      | None => pieces
      end
    else
      match preprocess_text line lang with
      | Some text =>
          pieces ++ ["[" ++ lang ++ "]" ++ text ++ String newline ""]
      | None => pieces
      end.

(** [text2lyric.tokenize_lyrics] (lines 45-74). *)
Definition text2lyric_tokenize_lyrics (lyrics : string) : string :=
  String.concat "" (fold_left text2lyric_line (split_lines lyrics "") []).

(** [LyricsLangSwitch.lyricsgen] (text2lyric lines 94-95). *)
Definition lyricsgen (lyrics : string) : string :=
  text2lyric_tokenize_lyrics (strip lyrics).

End Lyrics.

End Lyrics.

(* ------------------------------------------------------------------------- *)
(** ** [AudioCacher] *)

Module Cacher.
Import Py.
Local Open Scope string_scope.
Local Open Scope list_scope.

(** What the cacher asks of the operating system and of [torchaudio]. *)
Class Disk : Type := {
  (** Whether [os.remove(path)] raises [OSError] on a file that exists. *)
  remove_raises : string -> bool;
  (** The name [tempfile.NamedTemporaryFile] creates among the files that
      exist, for a prefix and a suffix; [None] when it raises. *)
  temp_name : list string -> string -> string -> option string;
  (** The name is new. *)
  temp_name_new : forall files prefix suffix name,
      temp_name files prefix suffix = Some name ->
      existsb (String.eqb name) files = false;
  (** Whether [torchaudio.save] raises for the file of this name. *)
  save_raises : string -> bool
}.

(** The files on disk and the fields of one [AudioCacher]. *)
Record state : Type := {
  files : list string;
  default_format : string;
  files_to_cleanup_in_context : list string
}.

(** [os.path.exists(path)]. *)
Definition path_exists (path : string) (st : state) : bool :=
  existsb (String.eqb path) (files st).

(** [path in l]. *)
Definition tracked (path : string) (l : list string) : bool :=
  existsb (String.eqb path) l.

(** [l.remove(path)]: the first occurrence goes. *)
Fixpoint list_remove (path : string) (l : list string) : list string :=
  match l with
  | [] => []
  | x :: rest => if String.eqb path x then rest else x :: list_remove path rest
  end.

(** The disk after a successful [os.remove(path)]. *)
Definition unlink (path : string) (fs : list string) : list string :=
  filter (fun x => negb (String.eqb path x)) fs.

(** [s.lstrip(".")]. *)
Fixpoint lstrip_dot (s : string) : string :=
  match s with
  | String c rest => if Ascii.eqb c "."%char then lstrip_dot rest else s
  | EmptyString => EmptyString
  end.

Section Cacher.
Context `{DK : Disk}.

(** Lines 95-96 and 101-102. *)
Definition forget (path : string) (l : list string) : list string :=
  if tracked path l then list_remove path l else l.

(** [cleanup_file] (lines 80-103): what it returns and the state after. *)
Definition cleanup_file (filepath : string) (st : state) : bool * state :=
  if String.eqb filepath "" then (true, st)
  else if path_exists filepath st then
    if remove_raises filepath then (false, st)
    else (true,
          {| files := unlink filepath (files st);
             default_format := default_format st;
             files_to_cleanup_in_context :=
               forget filepath (files_to_cleanup_in_context st) |})
  else (true,
        {| files := files st;
           default_format := default_format st;
           files_to_cleanup_in_context :=
             forget filepath (files_to_cleanup_in_context st) |}).

(** [cleanup_all_tracked_files] (lines 105-112): the loop runs over a copy
    of the list. *)
Definition cleanup_all_tracked_files (st : state) : state :=
  let st' := fold_left (fun s f_path => snd (cleanup_file f_path s))
                       (files_to_cleanup_in_context st) st in
  {| files := files st';
     default_format := default_format st';
     files_to_cleanup_in_context := [] |}.

(** [__enter__] (lines 114-118). *)
Definition enter (st : state) : state :=
  {| files := files st;
     default_format := default_format st;
     files_to_cleanup_in_context := [] |}.

(** [__exit__] (lines 120-124); it returns [False]. *)
Definition exit (st : state) : bool * state :=
  (false, cleanup_all_tracked_files st).

(** [cache_audio_tensor] (lines 48-78): the path or the [RuntimeError], and
    the state after either. *)
Definition cache_audio_tensor (filename_prefix : string)
           (audio_format : option string) (st : state)
  : result string * state :=
  let current_format :=
    lstrip_dot (match audio_format with
                | Some f => if String.eqb f "" then default_format st else f
                | None => default_format st
                end) in
  match temp_name (files st) filename_prefix
                  (String "."%char current_format) with
  | None => (raise RuntimeError, st)
  | Some temp_filepath =>
      let created :=
        {| files := files st ++ [temp_filepath];
           default_format := default_format st;
           files_to_cleanup_in_context := files_to_cleanup_in_context st |} in
      if save_raises temp_filepath then
        (raise RuntimeError,
         if path_exists temp_filepath created
         then if remove_raises temp_filepath then created
              else {| files := unlink temp_filepath (files created);
                      default_format := default_format st;
                      files_to_cleanup_in_context :=
                        files_to_cleanup_in_context st |}
         else created)
      else
        (ok temp_filepath,
         {| files := files created;
            default_format := default_format st;
            files_to_cleanup_in_context :=
              files_to_cleanup_in_context st ++ [temp_filepath] |})
  end.

End Cacher.

End Cacher.

(* ------------------------------------------------------------------------- *)
(** ** Further observers and scenarios *)

Module Cases.
Import Py Tensor Extern Sampler.

Section Observers.
Context `{TR : Transformer} `{SC : Schedules} `{GD : Guidance}.

(** Whether the loop takes the guided branch at index [i] (line 918). *)
Definition guided (x : loop_ctx) (i : Z) : bool :=
  (start_idx x <=? i) && (i <? end_idx x) && do_classifier_free_guidance x.




(** The decayed guidance scale of lines 921-933 as a function of the
    progress through the window: every operation is Python's. *)
Definition decayed (x : loop_ctx) (progress : Q) : Q :=
  let g := Float.double (guidance_scale (cfg x)) in
  let m := Float.double (min_guidance_scale (cfg x)) in
  let d := Float.double (guidance_interval_decay (cfg x)) in
  Float.sub g (Float.mul (Float.mul (Float.sub g m) progress) d).

End Observers.

(** Sixty steps, the default interval 0.5 and a full decay from 15 to 3. *)
Definition decaying : @loop_ctx Stub.transformer :=
  @make_loop_ctx Stub.transformer Stub.random
    (Stub.settings 10 60 15 0.5 1 None None None None)
    (Stub.inputs 1 None None) 1 [] 60
    (no_retake 4 (full (Shape 1 8 16 4) 0%R)) 1000%Q.

(** The first second of a two-second clip repainted with variance 0. *)
Definition repaint_no_variance : Sampler.config :=
  Stub.settings 2 4 1 0.5 0 (Some 0%Q) (Some 0%Q) (Some (0%Q, 0%Q, 1%Q)) None.

(** One row whose fresh noise comes from a generator seeded 1 and whose
    retake noise from one seeded 0: the test generators draw their seed
    everywhere. *)
Definition retake_inputs : @inputs Stub.transformer Stub.random := {|
  encoder_text_hidden_states := 1 : @text_states Stub.transformer;
  text_attention_mask := tt : @text_mask Stub.transformer;
  speaker_embds := tt : @speaker Stub.transformer;
  lyric_token_ids := tt : @lyric_ids Stub.transformer;
  lyric_mask := tt : @lyric_msk Stub.transformer;
  encoder_text_hidden_states_null := None;
  random_generators := [1] : list (@generator Stub.random);
  retake_random_generators := [0] : list (@generator Stub.random);
  src_latents := None;
  ref_latents := None
|}.


(** The integers a seed argument gives: the one integer, or the integer
    members of a list. *)
Definition given (m : Seeds.seeds_arg) (n : Z) : Prop :=
  match m with
  | Seeds.SeedsInt k => k = n
  | Seeds.SeedsList l => In (Seeds.IsInt n) l
  | _ => False
  end.


(** Two audio files on disk, both of 21 frames, and a text encoder that
    wants a prompt. *)
Definition files : Call.Files := {|
  Call.path_exists := fun p =>
    String.eqb p "src.wav" || String.eqb p "ref.wav";
  Call.infer_latents := fun _ => Scenario.clip 21 2%R;
  Call.get_text_embeddings := fun p =>
    match p with Some _ => ok tt | None => raise ValueError end;
  Call.get_text_embeddings_null := fun p =>
    match p with Some _ => ok tt | None => raise ValueError end
|}.

(** A call for two seconds of audio with a prompt and lyrics, one row and
    no seeds, for a task, a source path, a reference path and the
    audio2audio switch. *)
Definition call (task : string) (src ref : option string) (a2a : bool)
  : Call.arguments := {|
  Call.audio_duration := 2;
  Call.prompt := Some "pop"%string;
  Call.lyrics := Some "la"%string;
  Call.manual_seeds := Seeds.SeedsNone;
  Call.retake_seeds := Seeds.SeedsNone;
  Call.use_erg_tag := true;
  Call.batch_size := 1;
  Call.task := task;
  Call.audio2audio_enable := a2a;
  Call.ref_audio_input := ref;
  Call.src_audio_path := src;
  Call.repaint_start := 0;
  Call.repaint_end := 1;
  Call.edit_target_lyrics := None;
  Call.oss_steps := None
|}.

Definition plan_of (a : Call.arguments) : result Call.plan :=
  @Call.plan_call Stub.strings files a 60%Q.

(** The same call with the seeds given as a string. *)
Definition seeded (a : Call.arguments) (seeds : string) : Call.arguments := {|
  Call.audio_duration := Call.audio_duration a;
  Call.prompt := Call.prompt a;
  Call.lyrics := Call.lyrics a;
  Call.manual_seeds := Seeds.SeedsStr seeds;
  Call.retake_seeds := Call.retake_seeds a;
  Call.use_erg_tag := Call.use_erg_tag a;
  Call.batch_size := Call.batch_size a;
  Call.task := Call.task a;
  Call.audio2audio_enable := Call.audio2audio_enable a;
  Call.ref_audio_input := Call.ref_audio_input a;
  Call.src_audio_path := Call.src_audio_path a;
  Call.repaint_start := Call.repaint_start a;
  Call.repaint_end := Call.repaint_end a;
  Call.edit_target_lyrics := Call.edit_target_lyrics a;
  Call.oss_steps := Call.oss_steps a
|}.

(** A segmenter that counts English, then Chinese, in every text, and a
    tokenizer that gives one token per line, its length. *)
Definition tokenizer : Lyrics.Tokenizer := {|
  Lyrics.strip := fun s => s;
  Lyrics.getCounts := fun _ => Some ["en"; "zh"]%string;
  Lyrics.encode := fun line _ => Some [Z.of_nat (String.length line)];
  Lyrics.batch_decode_raises := fun _ => false;
  Lyrics.preprocess_text := fun line _ => Some line
|}.

(** A disk on which one file cannot be removed and one cannot be saved;
    a temporary file is named by its prefix, [0] and its suffix, and
    cannot be created when that name is taken. *)
Definition disk : Cacher.Disk.
Proof.
  refine {| Cacher.remove_raises := fun p => String.eqb p "locked.wav";
            Cacher.temp_name := fun fs pre suf =>
              if existsb (String.eqb (pre ++ "0" ++ suf)%string) fs
              then None else Some (pre ++ "0" ++ suf)%string;
            Cacher.temp_name_new := _;
            Cacher.save_raises := fun p => String.eqb p "bad_0.wav" |}.
  intros fs pre suf name.
  destruct (existsb (String.eqb (pre ++ "0" ++ suf)%string) fs) eqn:E;
    [discriminate|].
  intros H. inversion H. subst name. exact E.
Defined.

(** Two files on disk, the first of them tracked. *)
Definition cached : Cacher.state := {|
  Cacher.files := ["a.wav"; "b.wav"]%string;
  Cacher.default_format := "wav"%string;
  Cacher.files_to_cleanup_in_context := ["a.wav"%string]
|}.


(** [max(oss_steps)] when steps are given, else [infer_steps]: the step
    count the setup works with (lines 620-621). *)
Definition counted_steps (c : Sampler.config) : Z :=
  match Sampler.oss_steps c with
  | o :: os => fold_left Z.max os o
  | [] => Sampler.infer_steps c
  end.

End Cases.

(* ========================================================================= *)
(** * Properties *)

(* ------------------------------------------------------------------------- *)
(** ** Tensor operations read entry by entry *)

Module TensorFacts.
Import Py Tensor.

Lemma bdim_refl (a : Z) : bdim a a = Some a.
Proof. unfold bdim. now rewrite Z.eqb_refl. Qed.

Lemma broadcast_refl (s : shape) : broadcast s s = Some s.
Proof. destruct s; unfold broadcast; simpl. now rewrite !bdim_refl. Qed.

(** Reading a broadcast result at a position reads each operand at the
    same position. *)
Lemma bidx_bdim_l (a b d i : Z) :
  bdim a b = Some d -> bidx a (bidx d i) = bidx a i.
Proof.
  unfold bdim, bidx. intros H.
  destruct (Z.eqb_spec a b), (Z.eqb_spec a 1), (Z.eqb_spec b 1),
    (Z.eqb_spec d 1); inversion H; subst; try reflexivity; try lia;
    try (now destruct (Z.eqb_spec 1 1)).
Qed.

Lemma bidx_bdim_r (a b d i : Z) :
  bdim a b = Some d -> bidx b (bidx d i) = bidx b i.
Proof.
  unfold bdim, bidx. intros H.
  destruct (Z.eqb_spec a b), (Z.eqb_spec a 1), (Z.eqb_spec b 1),
    (Z.eqb_spec d 1); inversion H; subst; try reflexivity; try lia;
    try (now destruct (Z.eqb_spec 1 1)).
Qed.

Lemma broadcast_dims (s1 s2 s : shape) :
  broadcast s1 s2 = Some s ->
  bdim (dim0 s1) (dim0 s2) = Some (dim0 s)
  /\ bdim (dim1 s1) (dim1 s2) = Some (dim1 s)
  /\ bdim (dim2 s1) (dim2 s2) = Some (dim2 s)
  /\ bdim (dim3 s1) (dim3 s2) = Some (dim3 s).
Proof.
  unfold broadcast.
  destruct (bdim (dim0 s1) (dim0 s2)), (bdim (dim1 s1) (dim1 s2)),
    (bdim (dim2 s1) (dim2 s2)), (bdim (dim3 s1) (dim3 s2));
    intros H; inversion H; subst; simpl; auto.
Qed.


Lemma get_full {A} (s : shape) (v : A) (i j k l : Z) :
  get (full s v) i j k l = v.
Proof. reflexivity. Qed.

Lemma map2_ok {A B C} (f : A -> B -> C) (x : tensor A) (y : tensor B)
      (r : tensor C) :
  map2 f x y = ok r ->
  broadcast (shp x) (shp y) = Some (shp r)
  /\ forall i j k l, get r i j k l = f (get x i j k l) (get y i j k l).
Proof.
  unfold map2. destruct (broadcast (shp x) (shp y)) as [s|] eqn:E;
    [|discriminate].
  intros H. inversion H; subst; clear H. split; [reflexivity|].
  intros i j k l. apply broadcast_dims in E. destruct E as (E0 & E1 & E2 & E3).
  unfold get at 1. simpl.
  unfold get.
  now rewrite (bidx_bdim_l _ _ _ _ E0), (bidx_bdim_l _ _ _ _ E1),
    (bidx_bdim_l _ _ _ _ E2), (bidx_bdim_l _ _ _ _ E3),
    (bidx_bdim_r _ _ _ _ E0), (bidx_bdim_r _ _ _ _ E1),
    (bidx_bdim_r _ _ _ _ E2), (bidx_bdim_r _ _ _ _ E3).
Qed.

Lemma get_map2 {A B C} (f : A -> B -> C) (x : tensor A) (y : tensor B)
      (r : tensor C) (i j k l : Z) :
  map2 f x y = ok r -> get r i j k l = f (get x i j k l) (get y i j k l).
Proof. intros H. now apply map2_ok in H. Qed.

(** Operands of one shape always combine, into that shape. *)
Lemma map2_same_shape {A B C} (f : A -> B -> C) (x : tensor A) (y : tensor B) :
  shp x = shp y -> exists r, map2 f x y = ok r /\ shp r = shp x.
Proof.
  intros E. unfold map2. rewrite <- E, broadcast_refl.
  eexists. split; reflexivity.
Qed.



End TensorFacts.
(* ------------------------------------------------------------------------- *)
(** ** Floats: what rounding to the nearest keeps *)

Module FloatFacts.
Import Float.
Local Open Scope Z_scope.

(** *** Rounding to the nearest integer *)

Lemma nearest_even_spec (q : Q) :
  let m := nearest_even q in
  let n := Qnum q in
  let d := Zpos (Qden q) in
  2 * n - d <= 2 * d * m <= 2 * n + d
  /\ (2 * d * m = 2 * n + d -> Z.even m = true)
  /\ (2 * d * m = 2 * n - d -> Z.even m = true).
Proof.
  intros m n d. subst m. unfold nearest_even. fold n. fold d.
  assert (Hd : 0 < d) by (unfold d; lia).
  pose proof (Z.div_mod n d ltac:(lia)) as E.
  pose proof (Z.mod_pos_bound n d Hd) as B.
  set (k := n / d) in *. set (r := n mod d) in *.
  destruct (Z.compare_spec (2 * r) d) as [C|C|C].
  - destruct (Z.even k) eqn:Ev.
    + repeat split; try nia; intros; assumption.
    + assert (Z.even (k + 1) = true).
      { rewrite Z.even_add, Ev. reflexivity. }
      repeat split; try nia; intros; assumption.
  - repeat split; try nia; intros; exfalso; nia.
  - repeat split; try nia; intros; exfalso; nia.
Qed.

Lemma nearest_even_mono (x y : Q) :
  (x <= y)%Q -> nearest_even x <= nearest_even y.
Proof.
  intros H. unfold Qle in H.
  destruct (nearest_even_spec x) as ([_ U1] & T1 & _).
  destruct (nearest_even_spec y) as ([L2 _] & _ & T2).
  set (m1 := nearest_even x) in *. set (m2 := nearest_even y) in *.
  set (n1 := Qnum x) in *. set (n2 := Qnum y) in *.
  set (d1 := Zpos (Qden x)) in *. set (d2 := Zpos (Qden y)) in *.
  assert (H1 : 0 < d1) by (unfold d1; lia).
  assert (H2 : 0 < d2) by (unfold d2; lia).
  destruct (Z_le_gt_dec m1 m2) as [|G]; [assumption|exfalso].
  assert (A : 2 * d1 * d2 * m1 <= 2 * n1 * d2 + d1 * d2) by nia.
  assert (B : 2 * n2 * d1 - d1 * d2 <= 2 * d1 * d2 * m2) by nia.
  assert (M : m1 = m2 + 1) by nia.
  assert (E1 : 2 * d1 * m1 = 2 * n1 + d1) by nia.
  assert (E2 : 2 * d2 * m2 = 2 * n2 - d2) by nia.
  specialize (T1 E1). specialize (T2 E2).
  rewrite M, Z.even_add, T2 in T1. discriminate.
Qed.

Lemma nearest_even_inject (k : Z) : nearest_even (inject_Z k) = k.
Proof.
  unfold nearest_even, inject_Z. cbn [Qnum Qden].
  rewrite Z.div_1_r, Z.mod_1_r. reflexivity.
Qed.

Lemma nearest_even_compat (x y : Q) :
  (x == y)%Q -> nearest_even x = nearest_even y.
Proof.
  intros E. apply Z.le_antisymm; apply nearest_even_mono; rewrite E;
    apply Qle_refl.
Qed.

Lemma nearest_even_int (x : Q) (k : Z) :
  (x == inject_Z k)%Q -> nearest_even x = k.
Proof.
  intros E. rewrite (nearest_even_compat _ _ E). apply nearest_even_inject.
Qed.

(** *** Powers of two and the binade of a positive number *)

Lemma pow2_pos (k : Z) : (0 < pow2 k)%Q.
Proof. apply Qpower_0_lt. reflexivity. Qed.

Lemma pow2_add (a b : Z) : (pow2 (a + b) == pow2 a * pow2 b)%Q.
Proof. apply Qpower_plus. discriminate. Qed.

Lemma pow2_inject (k : Z) : 0 <= k -> (inject_Z (2 ^ k) == pow2 k)%Q.
Proof. intros H. apply (Zpower_Qpower 2 k H). Qed.

Lemma pow2_le (a b : Z) : a <= b -> (pow2 a <= pow2 b)%Q.
Proof. intros H. apply Qpower_le_compat_l; [exact H|discriminate]. Qed.

Lemma pow2_lt_inv (a b : Z) : (pow2 a < pow2 b)%Q -> a < b.
Proof. intros H. apply (Qpower_lt_compat_l_inv 2); [exact H|reflexivity]. Qed.

Lemma pow2_succ (a : Z) : (pow2 (a + 1) == 2 * pow2 a)%Q.
Proof. rewrite pow2_add. unfold pow2 at 2. rewrite Qpower_1_r. ring. Qed.

Lemma log2_bounds (n : Z) :
  0 < n ->
  (pow2 (Z.log2 n) <= inject_Z n)%Q /\ (inject_Z n < pow2 (Z.log2 n + 1))%Q.
Proof.
  intros H. pose proof (Z.log2_spec n H) as [L U].
  pose proof (Z.log2_nonneg n) as N.
  rewrite <- !pow2_inject by lia. rewrite <- Zle_Qle, <- Zlt_Qlt.
  split; [exact L|]. now rewrite <- Z.add_1_r in U.
Qed.

Lemma ilog2_spec (q : Q) :
  (0 < q)%Q ->
  (pow2 (ilog2 q) <= q)%Q /\ (q < pow2 (ilog2 q + 1))%Q.
Proof.
  intros H.
  assert (Hn : 0 < Qnum q).
  { unfold Qlt in H. cbn in H. lia. }
  set (n := Qnum q) in *. set (d := Zpos (Qden q)).
  assert (Hd : (0 < inject_Z d)%Q).
  { change 0%Q with (inject_Z 0). rewrite <- Zlt_Qlt. reflexivity. }
  assert (E : (q * inject_Z d == inject_Z n)%Q).
  { unfold Qeq, n, d. destruct q as [a b]. cbn. lia. }
  destruct (log2_bounds n Hn) as [Ln Un].
  destruct (log2_bounds d eq_refl) as [Ld Ud].
  set (ln := Z.log2 n) in *. set (ld := Z.log2 d) in *.
  assert (Up : (q < pow2 (ln - ld + 1))%Q).
  { apply (Qmult_lt_r _ _ (pow2 ld) (pow2_pos ld)).
    rewrite <- pow2_add. replace (ln - ld + 1 + ld) with (ln + 1) by lia.
    apply Qle_lt_trans with (q * inject_Z d)%Q.
    - rewrite !(Qmult_comm q). apply Qmult_le_compat_r; [exact Ld|].
      apply Qlt_le_weak, H.
    - rewrite E. exact Un. }
  assert (Lo : (pow2 (ln - ld - 1) < q)%Q).
  { apply (Qmult_lt_r _ _ (inject_Z d) Hd). rewrite E.
    apply Qlt_le_trans with (pow2 (ln - ld - 1) * pow2 (ld + 1))%Q.
    - rewrite !(Qmult_comm (pow2 (ln - ld - 1))).
      apply Qmult_lt_compat_r; [apply pow2_pos|exact Ud].
    - rewrite <- pow2_add.
      replace (ln - ld - 1 + (ld + 1)) with ln by lia. exact Ln. }
  unfold ilog2. fold n. fold d. fold ln. fold ld. fold (pow2 (ln - ld)).
  destruct (Qle_bool (pow2 (ln - ld)) q) eqn:B.
  - apply Qle_bool_iff in B. split; assumption.
  - assert (B' : (q < pow2 (ln - ld))%Q).
    { apply Qnot_le_lt. intros C. apply Qle_bool_iff in C. congruence. }
    split; [apply Qlt_le_weak, Lo|].
    now replace (ln - ld - 1 + 1) with (ln - ld) by lia.
Qed.

Lemma ilog2_unique (q : Q) (e : Z) :
  (pow2 e <= q)%Q -> (q < pow2 (e + 1))%Q -> ilog2 q = e.
Proof.
  intros L U.
  assert (H : (0 < q)%Q) by (eapply Qlt_le_trans; [apply (pow2_pos e)|exact L]).
  destruct (ilog2_spec q H) as [L' U'].
  assert (A : e < ilog2 q + 1).
  { apply pow2_lt_inv. eapply Qle_lt_trans; eassumption. }
  assert (B : ilog2 q < e + 1).
  { apply pow2_lt_inv. eapply Qle_lt_trans; eassumption. }
  lia.
Qed.

Lemma ilog2_mono (x y : Q) :
  (0 < x)%Q -> (x <= y)%Q -> ilog2 x <= ilog2 y.
Proof.
  intros Hx H.
  assert (Hy : (0 < y)%Q) by (eapply Qlt_le_trans; eassumption).
  destruct (ilog2_spec x Hx) as [L _].
  destruct (ilog2_spec y Hy) as [_ U].
  assert (A : ilog2 x < ilog2 y + 1).
  { apply pow2_lt_inv. eapply Qle_lt_trans; [exact L|].
    eapply Qle_lt_trans; eassumption. }
  lia.
Qed.

(** *** Rounding to [p] significant bits *)

Lemma ulp_pos (p : Z) (q : Q) : (0 < ulp p q)%Q.
Proof. apply pow2_pos. Qed.

Lemma round_0 (p : Z) (q : Q) : (q == 0)%Q -> round p q = 0%Q.
Proof.
  intros H. unfold round.
  assert (E : Qnum q = 0).
  { unfold Qeq in H. cbn [Qnum Qden] in H. lia. }
  now rewrite E.
Qed.

Lemma round_pos (p : Z) (q : Q) :
  (0 < q)%Q ->
  (round p q == inject_Z (nearest_even (q / ulp p q)) * ulp p q)%Q.
Proof.
  destruct q as [[|n|n] d]; intros H; try (now inversion H).
  unfold round, ulp, pow2. cbn [Qnum].
  change (Z.pos n =? 0) with false. change (Z.pos n <? 0) with false.
  cbv iota. rewrite Qred_correct.
  change (Qabs (Z.pos n # d)) with (Z.pos n # d). reflexivity.
Qed.

Lemma round_opp (p : Z) (q : Q) : (round p (- q) == - round p q)%Q.
Proof.
  destruct q as [[|n|n] d].
  - reflexivity.
  - unfold round. cbn [Qnum Qopp Z.opp].
    change (Z.neg n =? 0) with false. change (Z.pos n =? 0) with false.
    change (Z.neg n <? 0) with true. change (Z.pos n <? 0) with false.
    cbv iota. rewrite !Qred_correct.
    change (Qabs (Z.neg n # d)) with (Z.pos n # d).
    change (Qabs (Z.pos n # d)) with (Z.pos n # d). reflexivity.
  - unfold round. cbn [Qnum Qopp Z.opp].
    change (Z.neg n =? 0) with false. change (Z.pos n =? 0) with false.
    change (Z.neg n <? 0) with true. change (Z.pos n <? 0) with false.
    cbv iota. rewrite !Qred_correct.
    change (Qabs (Z.neg n # d)) with (Z.pos n # d).
    change (Qabs (Z.pos n # d)) with (Z.pos n # d).
    now rewrite Qopp_involutive.
Qed.

Section Precision.
Variable p : Z.
Hypothesis Hp : 1 <= p.

(** The significand of a positive number lies in [2^(p-1), 2^p]. *)
Lemma significand_bounds (q : Q) :
  (0 < q)%Q ->
  (pow2 (p - 1) <= q / ulp p q)%Q /\ (q / ulp p q < pow2 p)%Q.
Proof.
  intros H. destruct (ilog2_spec q H) as [L U]. unfold ulp.
  set (e := ilog2 q) in *. split.
  - apply Qle_shift_div_l; [apply pow2_pos|].
    rewrite <- pow2_add. now replace (p - 1 + (e - (p - 1))) with e by lia.
  - apply Qlt_shift_div_r; [apply pow2_pos|].
    rewrite <- pow2_add. now replace (p + (e - (p - 1))) with (e + 1) by lia.
Qed.

Lemma nearest_significand (q : Q) :
  (0 < q)%Q ->
  2 ^ (p - 1) <= nearest_even (q / ulp p q) <= 2 ^ p.
Proof.
  intros H. destruct (significand_bounds q H) as [L U]. split.
  - rewrite <- (nearest_even_inject (2 ^ (p - 1))).
    apply nearest_even_mono. rewrite pow2_inject by lia. exact L.
  - rewrite <- (nearest_even_inject (2 ^ p)).
    apply nearest_even_mono. rewrite pow2_inject by lia.
    apply Qlt_le_weak, U.
Qed.

(** A positive number is rounded within its binade, ends included. *)
Lemma round_binade (q : Q) :
  (0 < q)%Q ->
  (pow2 (ilog2 q) <= round p q)%Q /\ (round p q <= pow2 (ilog2 q + 1))%Q.
Proof.
  intros H. rewrite (round_pos p q H).
  destruct (nearest_significand q H) as [L U].
  set (m := nearest_even (q / ulp p q)) in *.
  pose proof (ulp_pos p q) as Hu.
  split.
  - apply Qle_trans with (pow2 (p - 1) * ulp p q)%Q.
    + unfold ulp. rewrite <- pow2_add.
      replace (p - 1 + (ilog2 q - (p - 1))) with (ilog2 q) by lia.
      apply Qle_refl.
    + apply Qmult_le_compat_r; [|apply Qlt_le_weak, Hu].
      rewrite <- pow2_inject by lia. now rewrite <- Zle_Qle.
  - apply Qle_trans with (pow2 p * ulp p q)%Q.
    + apply Qmult_le_compat_r; [|apply Qlt_le_weak, Hu].
      rewrite <- pow2_inject by lia. now rewrite <- Zle_Qle.
    + unfold ulp. rewrite <- pow2_add.
      replace (p + (ilog2 q - (p - 1))) with (ilog2 q + 1) by lia.
      apply Qle_refl.
Qed.

Lemma round_pos_pos (q : Q) : (0 < q)%Q -> (0 < round p q)%Q.
Proof.
  intros H. eapply Qlt_le_trans; [apply (pow2_pos (ilog2 q))|].
  apply (round_binade q H).
Qed.

Lemma round_mono_pos (x y : Q) :
  (0 < x)%Q -> (x <= y)%Q -> (round p x <= round p y)%Q.
Proof.
  intros Hx H.
  assert (Hy : (0 < y)%Q) by (eapply Qlt_le_trans; eassumption).
  pose proof (ilog2_mono x y Hx H) as He.
  destruct (Z.eq_dec (ilog2 x) (ilog2 y)) as [E|N].
  - rewrite (round_pos p x Hx), (round_pos p y Hy).
    unfold ulp. rewrite E. fold (ulp p y).
    apply Qmult_le_compat_r; [|apply Qlt_le_weak, ulp_pos].
    rewrite <- Zle_Qle. apply nearest_even_mono.
    apply Qmult_le_compat_r; [exact H|].
    apply Qlt_le_weak, Qinv_lt_0_compat, ulp_pos.
  - apply Qle_trans with (pow2 (ilog2 x + 1)); [apply (round_binade x Hx)|].
    apply Qle_trans with (pow2 (ilog2 y)); [|apply (round_binade y Hy)].
    apply pow2_le. lia.
Qed.

Lemma round_nonneg (q : Q) : (0 <= q)%Q -> (0 <= round p q)%Q.
Proof.
  intros H. destruct (Qlt_le_dec 0 q) as [P|Z].
  - apply Qlt_le_weak, round_pos_pos, P.
  - rewrite (round_0 p q); [apply Qle_refl|]. now apply Qle_antisym.
Qed.

(** Rounding never reverses an order. *)
Lemma round_mono (x y : Q) : (x <= y)%Q -> (round p x <= round p y)%Q.
Proof.
  intros H. destruct (Qlt_le_dec 0 x) as [Px|Nx].
  - now apply round_mono_pos.
  - destruct (Qlt_le_dec y 0) as [Ny|Py].
    + apply Qopp_le_compat in H.
      assert (Hy' : (0 < - y)%Q).
      { apply Qopp_lt_compat in Ny. exact Ny. }
      pose proof (round_mono_pos (- y) (- x) Hy' H) as M.
      rewrite !round_opp in M. apply Qopp_le_compat in M.
      now rewrite !Qopp_involutive in M.
    + apply Qle_trans with 0%Q; [|now apply round_nonneg].
      apply Qopp_le_compat in Nx.
      pose proof (round_nonneg (- x) Nx) as M.
      rewrite round_opp in M. apply Qopp_le_compat in M.
      now rewrite Qopp_involutive in M.
Qed.

(** It is a function of the number, not of the fraction that writes it. *)
Lemma round_compat (x y : Q) : (x == y)%Q -> (round p x == round p y)%Q.
Proof.
  intros E. apply Qle_antisym; apply round_mono; rewrite E; apply Qle_refl.
Qed.

(** A positive number whose significand is an integer is its own
    rounding. *)
Lemma round_exact (q : Q) (m e : Z) :
  (q == inject_Z m * pow2 (e - (p - 1)))%Q ->
  2 ^ (p - 1) <= m < 2 ^ p ->
  (round p q == q)%Q.
Proof.
  intros E [L U].
  assert (Lq : (pow2 e <= q)%Q).
  { rewrite E. apply Qle_trans with (pow2 (p - 1) * pow2 (e - (p - 1)))%Q.
    - rewrite <- pow2_add. replace (p - 1 + (e - (p - 1))) with e by lia.
      apply Qle_refl.
    - apply Qmult_le_compat_r; [|apply Qlt_le_weak, pow2_pos].
      rewrite <- pow2_inject by lia. now rewrite <- Zle_Qle. }
  assert (Uq : (q < pow2 (e + 1))%Q).
  { rewrite E.
    apply Qlt_le_trans with (pow2 p * pow2 (e - (p - 1)))%Q.
    - apply Qmult_lt_compat_r; [apply pow2_pos|].
      rewrite <- pow2_inject by lia. now rewrite <- Zlt_Qlt.
    - rewrite <- pow2_add. replace (p + (e - (p - 1))) with (e + 1) by lia.
      apply Qle_refl. }
  assert (Hq : (0 < q)%Q) by (eapply Qlt_le_trans; [apply (pow2_pos e)|exact Lq]).
  rewrite (round_pos p q Hq). unfold ulp.
  rewrite (ilog2_unique q e Lq Uq).
  rewrite (nearest_even_int _ m).
  - symmetry. exact E.
  - rewrite E. field. apply Qnot_eq_sym, Qlt_not_eq, pow2_pos.
Qed.

(** What is rounded stays as it is when rounded again. *)
Lemma round_idempotent (q : Q) : (round p (round p q) == round p q)%Q.
Proof.
  assert (P : forall x, (0 < x)%Q -> (round p (round p x) == round p x)%Q).
  { intros x Hx. destruct (nearest_significand x Hx) as [L U].
    pose proof (round_pos p x Hx) as E.
    set (m := nearest_even (x / ulp p x)) in *. unfold ulp in E.
    destruct (Z.eq_dec m (2 ^ p)) as [T|T].
    - apply (round_exact _ (2 ^ (p - 1)) (ilog2 x + 1)).
      + rewrite E, T. rewrite !pow2_inject by lia. rewrite <- !pow2_add.
        replace (p - 1 + (ilog2 x + 1 - (p - 1)))
          with (p + (ilog2 x - (p - 1))) by lia.
        reflexivity.
      + split; [lia|]. apply Z.pow_lt_mono_r; lia.
    - apply (round_exact _ m (ilog2 x)); [exact E|lia]. }
  destruct (Qlt_le_dec 0 q) as [Hq|Hq]; [now apply P|].
  destruct (Qlt_le_dec q 0) as [Nq|Zq].
  - assert (H : (0 < - q)%Q) by (apply Qopp_lt_compat in Nq; exact Nq).
    pose proof (P (- q)%Q H) as E.
    rewrite (round_compat (round p (- q)) (- round p q) (round_opp p q)) in E.
    rewrite !round_opp in E.
    apply Qopp_comp in E. now rewrite !Qopp_involutive in E.
  - assert (Z0 : (q == 0)%Q) by now apply Qle_antisym.
    rewrite (round_0 p q Z0). reflexivity.
Qed.

(** Integers of at most [p] bits are kept. *)
Lemma round_inject (n : Z) :
  0 <= n < 2 ^ p -> (round p (inject_Z n) == inject_Z n)%Q.
Proof.
  intros [L U]. destruct (Z.eq_dec n 0) as [->|N]; [reflexivity|].
  assert (Hn : 0 < n) by lia.
  destruct (log2_bounds n Hn) as [Lo Up].
  pose proof (Z.log2_nonneg n) as G.
  assert (Hl : Z.log2 n < p).
  { apply Z.log2_lt_pow2; lia. }
  set (e := Z.log2 n) in *.
  apply (round_exact _ (n * 2 ^ (p - 1 - e)) e).
  - rewrite inject_Z_mult, pow2_inject by lia.
    rewrite <- Qmult_assoc, <- pow2_add.
    replace (p - 1 - e + (e - (p - 1))) with 0 by lia.
    unfold pow2. rewrite Qpower_0_r. ring.
  - pose proof (Z.log2_spec n Hn) as [A B]. fold e in A, B.
    rewrite <- Z.add_1_r in B.
    split.
    + replace (p - 1) with (e + (p - 1 - e)) at 1 by lia.
      rewrite Z.pow_add_r by lia.
      apply Z.mul_le_mono_nonneg_r; [apply Z.pow_nonneg; lia|exact A].
    + replace p with (e + 1 + (p - 1 - e)) at 2 by lia.
      rewrite Z.pow_add_r by lia.
      apply Z.mul_lt_mono_pos_r; [apply Z.pow_pos_nonneg; lia|exact B].
Qed.

End Precision.

End FloatFacts.


(* ------------------------------------------------------------------------- *)
(** ** The nearest-index lookup *)

Module ScheduleFacts.
Import Py Tensor Extern Sampler.

Lemma Qltb_true (a b : Q) : Qltb a b = true <-> (a < b)%Q.
Proof.
  unfold Qltb. rewrite negb_true_iff. split.
  - intros H. apply Qnot_le_lt. intros L.
    apply Qle_bool_iff in L. congruence.
  - intros H. destruct (Qle_bool b a) eqn:E; [|reflexivity].
    apply Qle_bool_iff in E. exfalso. exact (Qlt_not_le _ _ H E).
Qed.

Lemma Qltb_false (a b : Q) : Qltb a b = false <-> (b <= a)%Q.
Proof.
  unfold Qltb. rewrite negb_false_iff. apply Qle_bool_iff.
Qed.

(** The scan keeps the first position of the least value seen so far:
    [pre] is what has been scanned, [l] what is left. *)
Lemma argmin_from_scan (l : list Q) :
  forall (pre : list Q) (best : Q) (bi : nat),
    (bi < List.length pre)%nat ->
    nth bi pre 0%Q = best ->
    (forall j, (j < List.length pre)%nat -> (best <= nth j pre 0)%Q) ->
    (forall j, (j < bi)%nat -> (best < nth j pre 0)%Q) ->
    exists k : nat,
      argmin_from best (Z.of_nat bi) (Z.of_nat (List.length pre)) l
      = Z.of_nat k
      /\ (k < List.length (pre ++ l))%nat
      /\ (forall j, (j < List.length (pre ++ l))%nat ->
                    (nth k (pre ++ l) 0 <= nth j (pre ++ l) 0)%Q)
      /\ (forall j, (j < k)%nat ->
                    (nth k (pre ++ l) 0 < nth j (pre ++ l) 0)%Q).
Proof.
  induction l as [|d rest IH]; intros pre best bi Hbi Hbest Hmin Hfirst.
  - exists bi. rewrite app_nil_r. simpl. subst best. repeat split; auto.
  - assert (Hlen : Z.of_nat (List.length pre) + 1
                   = Z.of_nat (List.length (pre ++ [d]))).
    { rewrite length_app. simpl. lia. }
    assert (Hsplit : pre ++ d :: rest = (pre ++ [d]) ++ rest).
    { now rewrite <- app_assoc. }
    cbn [argmin_from]. rewrite Hlen, Hsplit.
    destruct (Qltb d best) eqn:E.
    + apply Qltb_true in E.
      apply (IH (pre ++ [d]) d (List.length pre)).
      * rewrite length_app. simpl. lia.
      * rewrite app_nth2 by lia. now rewrite Nat.sub_diag.
      * intros j Hj. rewrite length_app in Hj. simpl in Hj.
        destruct (Nat.lt_ge_cases j (List.length pre)) as [Hlt|Hge].
        -- rewrite app_nth1 by exact Hlt. apply Qlt_le_weak.
           eapply Qlt_le_trans; [exact E|apply Hmin, Hlt].
        -- replace j with (List.length pre) by lia.
           rewrite app_nth2 by lia. rewrite Nat.sub_diag. simpl.
           apply Qle_refl.
      * intros j Hj. rewrite app_nth1 by exact Hj.
        eapply Qlt_le_trans; [exact E|apply Hmin, Hj].
    + apply Qltb_false in E.
      apply (IH (pre ++ [d]) best bi).
      * rewrite length_app. simpl. lia.
      * rewrite app_nth1 by exact Hbi. exact Hbest.
      * intros j Hj. rewrite length_app in Hj. simpl in Hj.
        destruct (Nat.lt_ge_cases j (List.length pre)) as [Hlt|Hge].
        -- rewrite app_nth1 by exact Hlt. apply Hmin, Hlt.
        -- replace j with (List.length pre) by lia.
           rewrite app_nth2 by lia. rewrite Nat.sub_diag. simpl. exact E.
      * intros j Hj. rewrite app_nth1 by lia. apply Hfirst, Hj.
Qed.

Lemma nth_distance (q : Q) (ts : list Q) (j : nat) :
  (j < List.length ts)%nat ->
  nth j (List.map (fun t => Qabs (q - t)) ts) 0%Q
  = Qabs (q - nth j ts 0%Q).
Proof.
  intros H.
  rewrite (nth_indep _ 0%Q (Qabs (q - 0))) by now rewrite length_map.
  apply (map_nth (fun t => Qabs (q - t))).
Qed.

(** The lookup returns a position of the schedule at least distance from the
    query, the first one. *)
Lemma nearest_idx_minimizes (q : Q) (ts : list Q) :
  ts <> [] ->
  exists k : nat,
    nearest_idx q ts = ok (Z.of_nat k)
    /\ (k < List.length ts)%nat
    /\ (forall j, (j < List.length ts)%nat ->
                  (Qabs (q - nth k ts 0) <= Qabs (q - nth j ts 0))%Q)
    /\ (forall j, (j < k)%nat ->
                  (Qabs (q - nth k ts 0) < Qabs (q - nth j ts 0))%Q).
Proof.
  intros Hne. destruct ts as [|t0 ts']; [congruence|].
  unfold nearest_idx. cbn [List.map].
  destruct (argmin_from_scan
              (List.map (fun t => Qabs (q - t)) ts')
              [Qabs (q - t0)] (Qabs (q - t0)) 0)
    as (k & Hk & Hlt & Hmin & Hfirst).
  - simpl. lia.
  - reflexivity.
  - intros j Hj. simpl in Hj. replace j with 0%nat by lia. apply Qle_refl.
  - intros j Hj. lia.
  - change ([Qabs (q - t0)] ++ List.map (fun t => Qabs (q - t)) ts')
      with (List.map (fun t => Qabs (q - t)) (t0 :: ts')) in *.
    rewrite length_map in Hlt.
    exists k. split; [|split; [exact Hlt|split]].
    + change (Z.of_nat 0) with 0 in Hk.
      change (Z.of_nat (List.length [Qabs (q - t0)])) with 1 in Hk.
      now rewrite Hk.
    + intros j Hj. rewrite <- !nth_distance by assumption.
      apply Hmin. now rewrite length_map.
    + intros j Hj. rewrite <- !nth_distance by lia. apply Hfirst, Hj.
Qed.

(** C8.  For every query and every non-empty schedule the lookup returns an
    index of the schedule whose distance to the query is least, and the first
    such index: every earlier entry is strictly farther.  On the schedule
    [1000, 750, 500, 250, 0] and the query 600 it returns 2. *)
Theorem nearest_idx_first_minimum :
  (forall (q : Q) (ts : list Q),
      ts <> [] ->
      exists k : nat,
        nearest_idx q ts = ok (Z.of_nat k)
        /\ (k < List.length ts)%nat
        /\ (forall j, (j < List.length ts)%nat ->
                      (Qabs (q - nth k ts 0) <= Qabs (q - nth j ts 0))%Q)
        /\ (forall j, (j < k)%nat ->
                      (Qabs (q - nth k ts 0) < Qabs (q - nth j ts 0))%Q))
  /\ nearest_idx 600 [1000; 750; 500; 250; 0]%Q = ok 2.
Proof.
  split; [exact nearest_idx_minimizes|reflexivity].
Qed.

(** The general statement at the schedule of the example. *)
Lemma nearest_idx_first_minimum_witness :
  exists k : nat,
    nearest_idx 600 [1000; 750; 500; 250; 0]%Q = ok (Z.of_nat k)
    /\ k = 2%nat
    /\ (forall j, (j < 5)%nat ->
                  (Qabs (600 - nth k [1000; 750; 500; 250; 0] 0)
                   <= Qabs (600 - nth j [1000; 750; 500; 250; 0] 0))%Q).
Proof.
  destruct (proj1 nearest_idx_first_minimum 600%Q
                  [1000; 750; 500; 250; 0]%Q ltac:(discriminate))
    as (k & Hk & _ & Hmin & _).
  exists k. split; [exact Hk|]. split; [|exact Hmin].
  rewrite (proj2 nearest_idx_first_minimum) in Hk.
  injection Hk as Hk. lia.
Defined.

End ScheduleFacts.

(* ------------------------------------------------------------------------- *)
(** ** The step loop: which collaborators an iteration calls *)

Module LoopFacts.
Import Py Tensor Extern Sampler ScheduleFacts.


Section Loop.
Context `{TR : Transformer} `{SC : Schedules} `{GD : Guidance}.



End Loop.

Section Run.
Context `{TR : Transformer} `{SC : Schedules} `{GD : Guidance} `{RD : Random}.

Lemma make_loop_ctx_fields (c : config) (a : inputs) (bsz : Z) (ts : list Q)
      (n : Z) (p : prepared) (init : Q) :
  let x := make_loop_ctx c a bsz ts n p init in
  cfg x = c /\ rp x = repaint p /\ init_timestep x = init
  /\ all_timesteps x = ts
  /\ (start_idx x, end_idx x) = guidance_window c n
  /\ do_classifier_free_guidance x = classifier_free_guidance c
  /\ do_double_condition_guidance x = double_condition_guidance c
  /\ (encoder_hidden_states_no_lyric x = None
      <-> double_condition_guidance c = false).
Proof.
  unfold make_loop_ctx, conditionings.
  destruct (encode _ _ _ _ _) as [ehs ehm].
  destruct (guidance_window c n) as [s e].
  cbn. repeat split; try reflexivity.
  - destruct (double_condition_guidance c); [|reflexivity].
    destruct (use_erg_lyric c); discriminate.
  - intros H. now rewrite H.
Qed.





End Run.

Section OnTestDoubles.
#[local] Existing Instance Stub.transformer.
#[local] Existing Instance Stub.schedules.
#[local] Existing Instance Stub.guidance.
#[local] Existing Instance Stub.random.



End OnTestDoubles.

(** C10.  With two inference steps, guidance interval 0.5 and a positive
    decay, the guidance window is [[0, 1)]: it holds the single index 0, the
    divisor [end_idx - start_idx - 1] is 0, and the step at index 0 raises
    [ZeroDivisionError], whatever the collaborators are; the whole run on the
    test doubles raises it too. *)
Theorem guidance_decay_divides_by_zero :
  (forall (TR : Transformer) (SC : Schedules) (GD : Guidance) (RD : Random)
          (a : inputs) (bsz : Z) (ts : list Q) (p : prepared) (init t : Q)
          (s : loop_state),
      prediction (make_loop_ctx Scenario.narrow_window a bsz ts 2 p init)
                 0 t s
      = raise ZeroDivisionError)
  /\ guidance_window Scenario.narrow_window 2 = (0, 1)
  /\ Scenario.calls_of
       (Scenario.run Scenario.narrow_window (Stub.inputs 1 None None))
     = raise ZeroDivisionError.
Proof.
  split; [|split; reflexivity].
  intros TR SC GD RD a bsz ts p init t s.
  destruct (make_loop_ctx_fields Scenario.narrow_window a bsz ts 2 p init)
    as (Hc & _ & _ & _ & Hw & Hcfg & _).
  change (guidance_window Scenario.narrow_window 2) with (0, 1) in Hw.
  injection Hw as Hs He.
  unfold prediction, guided_prediction, current_guidance_scale.
  rewrite Hs, He, Hcfg, Hc. reflexivity.
Qed.

End LoopFacts.

(* ------------------------------------------------------------------------- *)
(** ** The retake noise blend *)

Module RetakeFacts.
Import Py Tensor Extern Sampler TensorFacts.


Lemma get_scale (c : R) (x : latent) (i j k l : Z) :
  get (scale c x) i j k l = (c * get x i j k l)%R.
Proof. reflexivity. Qed.

Lemma get_add (x y r : latent) (i j k l : Z) :
  add x y = ok r -> get r i j k l = (get x i j k l + get y i j k l)%R.
Proof. apply get_map2. Qed.

Lemma get_sub (x y r : latent) (i j k l : Z) :
  sub x y = ok r -> get r i j k l = (get x i j k l - get y i j k l)%R.
Proof. apply get_map2. Qed.

(** The blend of two draws of one shape is defined and reads, entry by
    entry, as the quarter-sine interpolation at the angle the tensor
    holds. *)
Lemma retake_blend_entries `{TR : Transformer} (variance : Q)
      (target retake : latent) :
  shp target = shp retake ->
  exists b,
    retake_blend variance target retake = ok b
    /\ shp b = shp target
    /\ forall i j k l,
        get b i j k l
        = (cos (Q2R (variance_angle variance)) * get target i j k l
           + sin (Q2R (variance_angle variance)) * get retake i j k l)%R.
Proof.
  intros E. unfold retake_blend, add.
  destruct (map2_same_shape Rplus
              (scale (cos (Q2R (variance_angle variance))) target)
              (scale (sin (Q2R (variance_angle variance))) retake))
    as (b & Hb & Sb); [exact E|].
  exists b. split; [exact Hb|]. split; [exact Sb|].
  intros i j k l. now rewrite (get_map2 _ _ _ _ _ _ _ _ Hb).
Qed.

(** Zero rounds to zero, so the angle of variance 0 is 0 in every dtype. *)
Lemma variance_angle_0 `{TR : Transformer} (variance : Q) :
  (variance == 0)%Q -> variance_angle variance = 0%Q.
Proof.
  intros H. unfold variance_angle, Float.to, Float.div, Float.mul,
    Float.double.
  rewrite (FloatFacts.round_0 53 variance H).
  reflexivity.
Qed.

Lemma quarter_sine_at_0 `{TR : Transformer} (variance : Q) (a b : R) :
  (variance == 0)%Q ->
  (cos (Q2R (variance_angle variance)) * a
   + sin (Q2R (variance_angle variance)) * b)%R = a.
Proof.
  intros H. rewrite (variance_angle_0 variance H), RMicromega.Q2R_0.
  rewrite cos_0, sin_0. lra.
Qed.

(** [pi] lies below twice the [float32] nearest to [math.pi / 2], by the
    first seven terms of Machin's series for [2 atan (1/3) + atan (1/7)]. *)
Lemma PI_below_float32 : (PI < 13176795 / 4194304)%R.
Proof.
  pose proof (Machin.PI_2_3_7_ineq 3) as [_ H].
  unfold Machin.PI_2_3_7_tg, tg_alt, Ratan.Ratan_seq in H.
  cbn [sum_f_R0 Nat.mul Nat.add pow INR] in H.
  lra.
Qed.

(** So the cosine of that float is negative. *)
Lemma cos_float32_half_pi : (cos (Q2R (13176795 # 8388608)) < 0)%R.
Proof.
  assert (E : Q2R (13176795 # 8388608) = (13176795 / 8388608)%R)
    by reflexivity.
  rewrite E. pose proof PI_below_float32. pose proof PI2_3_2.
  apply cos_lt_0; lra.
Qed.

Section Run.
Context `{TR : Transformer} `{SC : Schedules} `{GD : Guidance} `{RD : Random}.

Lemma randn_tensor_shape (s : shape) (g g' : list generator) (x : latent) :
  randn_tensor s g = ok (x, g') -> shp x = s.
Proof.
  unfold randn_tensor. intros H.
  assert (Hrows :
            (if Z.of_nat (List.length g) <? dim0 s then raise IndexError
             else if dim0 s <=? 0 then raise RuntimeError
             else
               let '(rows, gens') :=
                 randn_rows (firstn (Z.to_nat (dim0 s)) g)
                            (dim1 s) (dim2 s) (dim3 s) in
               ok (Tensor s (fun i j k l =>
                               nth (Z.to_nat i) rows (fun _ _ _ => 0%R) j k l),
                   gens' ++ skipn (Z.to_nat (dim0 s)) g))
            = ok (x, g') -> shp x = s).
  { destruct (Z.of_nat (List.length g) <? dim0 s); [discriminate|].
    destruct (dim0 s <=? 0); [discriminate|].
    destruct (randn_rows _ _ _ _) as [rows gens'].
    intros E. now inversion E. }
  destruct g as [|g0 [|g1 rest]]; try (exact (Hrows H)).
  destruct (randn g0 s) as [d g0']. now inversion H.
Qed.

(** A run that adds retake noise over a span equal to the whole clip and
    uses no reference clip starts its loop from the blend of the two
    draws, and sets up no repaint mask. *)
Lemma pure_retake_blend (c : config) (a : inputs) (r : run_setup) :
  let bsz := text_batch (encoder_text_hidden_states a) in
  let frames := working_frame_length c a in
  let v := Q2R (variance_angle (retake_variance c)) in
  add_retake_noise c = true ->
  audio2audio_enable c = false ->
  frames_of_seconds (repaint_end c) - frames_of_seconds (repaint_start c)
  = frames ->
  0 <= frames_of_seconds (repaint_start c) ->
  frames_of_seconds (repaint_end c) <= frames ->
  text2music_setup c a = ok r ->
  exists fresh retake g g',
    randn_tensor (Shape bsz 8 16 frames) (random_generators a)
    = ok (fresh, g)
    /\ randn_tensor (Shape bsz 8 16 frames) (retake_random_generators a)
       = ok (retake, g')
    /\ rp (rs_ctx r) = None
    /\ (forall i j k l,
           get (latents (rs_state r)) i j k l
           = (cos v * get fresh i j k l + sin v * get retake i j k l)%R).
Proof.
  intros bsz frames v Hretake Ha2a Hspan Hlo Hhi.
  unfold text2music_setup, bind.
  destruct (make_scheduler _) as [e|s]; [discriminate|].
  destruct (make_schedule c s) as [e|[[[ts n] steps] s']]; [discriminate|].
  unfold initial_latent, bind. rewrite Hretake, Ha2a.
  fold bsz. fold frames.
  destruct (randn_tensor (Shape bsz 8 16 frames) (random_generators a))
    as [e|[fresh g]] eqn:Ef; [discriminate|].
  destruct (randn_tensor (Shape bsz 8 16 frames) (retake_random_generators a))
    as [e|[retake g']] eqn:Er; [discriminate|].
  unfold retake_setup.
  assert (Hrep : (frames_of_seconds (repaint_end c)
                  - frames_of_seconds (repaint_start c) =? frames) = true)
    by now apply Z.eqb_eq.
  assert (Hext : (frames_of_seconds (repaint_start c) <? 0)
                 || (frames_of_seconds (repaint_end c) >? frames) = false).
  { apply orb_false_iff. split; [apply Z.ltb_ge; lia|].
    rewrite Z.gtb_ltb. apply Z.ltb_ge. lia. }
  rewrite Hrep, Hext. cbn [negb].
  destruct (retake_blend_entries (retake_variance c) fresh retake)
    as (b & Hb & _ & Hentries).
  { rewrite (randn_tensor_shape _ _ _ _ Ef), (randn_tensor_shape _ _ _ _ Er).
    reflexivity. }
  rewrite Hb. cbn [bind ok].
  intros H. inversion H; subst; clear H.
  exists fresh, retake, g, g'.
  pose proof (LoopFacts.make_loop_ctx_fields
                c a bsz ts n
                {| target_latents := b; frame_length := frames;
                   is_extend := false; repaint := None;
                   to_right_pad_gt_latents := None;
                   to_left_pad_gt_latents := None |} 1000%Q) as F.
  cbv zeta in F. destruct F as (_ & Hrp & _).
  cbn [rs_ctx rs_state latents target_latents].
  split; [reflexivity|]. split; [reflexivity|]. split; [exact Hrp|].
  exact Hentries.
Qed.

(** C7.  In a run that adds retake noise over a span equal to the whole
    clip (so neither repaint nor extend applies) and uses no reference clip,
    the latent the loop starts from is, entry by entry,
    [cos v * fresh + sin v * retake] for the two noise draws, where [v] is
    the angle as the tensor holds it: [retake_variance * math.pi / 2]
    computed in Python's floats, made a [float32] and cast to the dtype of
    the text hidden states; no repaint mask is set up.  At variance 0 the
    angle is 0 and the blend is the fresh noise.  The cosine and the sine
    are those of the real numbers, taken at the rounded angle. *)
Theorem pure_retake_quarter_sine (c : config) (a : inputs) (r : run_setup) :
  let bsz := text_batch (encoder_text_hidden_states a) in
  let frames := working_frame_length c a in
  let v := Q2R (variance_angle (retake_variance c)) in
  add_retake_noise c = true ->
  audio2audio_enable c = false ->
  frames_of_seconds (repaint_end c) - frames_of_seconds (repaint_start c)
  = frames ->
  0 <= frames_of_seconds (repaint_start c) ->
  frames_of_seconds (repaint_end c) <= frames ->
  text2music_setup c a = ok r ->
  exists fresh retake g g',
    randn_tensor (Shape bsz 8 16 frames) (random_generators a)
    = ok (fresh, g)
    /\ randn_tensor (Shape bsz 8 16 frames) (retake_random_generators a)
       = ok (retake, g')
    /\ rp (rs_ctx r) = None
    /\ (forall i j k l,
           get (latents (rs_state r)) i j k l
           = (cos v * get fresh i j k l + sin v * get retake i j k l)%R)
    /\ ((retake_variance c == 0)%Q ->
        forall i j k l,
          get (latents (rs_state r)) i j k l = get fresh i j k l).
Proof.
  intros bsz frames v Hretake Ha2a Hspan Hlo Hhi Hr.
  destruct (pure_retake_blend c a r Hretake Ha2a Hspan Hlo Hhi Hr)
    as (fresh & retake & g & g' & Hf & Hk & Hrp & Hentries).
  exists fresh, retake, g, g'.
  split; [exact Hf|]. split; [exact Hk|]. split; [exact Hrp|].
  split; [exact Hentries|].
  intros H0 i j k l. rewrite Hentries. now apply quarter_sine_at_0.
Qed.

End Run.

Section OnTestDoubles.
#[local] Existing Instance Stub.transformer.
#[local] Existing Instance Stub.schedules.
#[local] Existing Instance Stub.guidance.
#[local] Existing Instance Stub.random.

(** C7 on a one-second clip retaken in full with variance 0: the loop
    starts from the fresh noise, which the test generator seeded 1 draws as
    1 everywhere. *)
Lemma pure_retake_quarter_sine_witness :
  exists r,
    text2music_setup (Scenario.retake 0) Cases.retake_inputs = ok r
    /\ rp (rs_ctx r) = None
    /\ get (latents (rs_state r)) 0 0 0 0 = 1%R.
Proof.
  edestruct (pure_retake_quarter_sine (Scenario.retake 0) Cases.retake_inputs)
    as (fresh & retake & g & g' & Hf & Hr & Hrp & _ & H0).
  - reflexivity.
  - reflexivity.
  - reflexivity.
  - vm_compute. discriminate.
  - vm_compute. discriminate.
  - reflexivity.
  - eexists. split; [reflexivity|]. split; [exact Hrp|].
    rewrite (H0 ltac:(reflexivity) 0 0 0 0).
    injection Hf as Hf _. subst fresh. reflexivity.
Defined.

(** Against C7 as written: with variance 1 in [float32] the angle is
    [13176795 / 8388608], the float nearest to [pi / 2] and above it, whose
    cosine is negative.  Where the fresh noise is 1 and the retake noise is
    0 the blend is that cosine, not the retake noise. *)
Lemma variance_one_keeps_fresh_noise :
  exists r retake g,
    text2music_setup (Scenario.retake 1) Cases.retake_inputs = ok r
    /\ randn_tensor (Shape 1 8 16 10)
                    (retake_random_generators Cases.retake_inputs)
       = ok (retake, g)
    /\ get (latents (rs_state r)) 0 0 0 0 <> get retake 0 0 0 0.
Proof.
  edestruct (pure_retake_blend (Scenario.retake 1) Cases.retake_inputs)
    as (fresh & retake & g & g' & Hf & Hr & _ & Hentries).
  - reflexivity.
  - reflexivity.
  - reflexivity.
  - vm_compute. discriminate.
  - vm_compute. discriminate.
  - reflexivity.
  - eexists. exists retake, g'. split; [reflexivity|]. split; [exact Hr|].
    rewrite (Hentries 0 0 0 0).
    injection Hf as Hf _. injection Hr as Hr _. subst fresh retake.
    replace (variance_angle (retake_variance (Scenario.retake 1)))
      with (13176795 # 8388608) by (vm_compute; reflexivity).
    cbn -[cos sin Q2R].
    pose proof cos_float32_half_pi. lra.
Defined.

End OnTestDoubles.

End RetakeFacts.

(* ------------------------------------------------------------------------- *)
(** ** Repainting: what the mask preserves *)

Module RepaintFacts.
Import Py Tensor Extern Sampler TensorFacts ScheduleFacts RetakeFacts.




(** The repaint context of a run that repaints without extending: [x0] is
    the source latent, and so is the edit anchor. *)
Lemma repaint_setup_source `{TR : Transformer} (bsz frames n : Z)
      (variance : Q) (b e : Z) (src target retake : latent) (p : prepared) :
  repaint_setup bsz frames n variance b e (Some src) target retake = ok p ->
  exists rc, repaint p = Some rc /\ x0 rc = src /\ zt_edit rc = src
             /\ n_min rc = n /\ is_extend p = false.
Proof.
  unfold repaint_setup, bind.
  destruct (retake_blend _ _ _) as [err|noise]; [discriminate|].
  destruct (where_ _ _ _) as [err|noise']; [discriminate|].
  intros H. inversion H. eexists. cbn. repeat split.
Qed.

Section Loop.
Context `{TR : Transformer} `{SC : Schedules} `{GD : Guidance}.







End Loop.

Section OnTestDoubles.
#[local] Existing Instance Stub.transformer.
#[local] Existing Instance Stub.schedules.
#[local] Existing Instance Stub.guidance.
#[local] Existing Instance Stub.random.



End OnTestDoubles.

End RepaintFacts.

(* ------------------------------------------------------------------------- *)
(** ** audio2audio: the pre-noise and the cut-off *)

Module Audio2AudioFacts.
Import Py Tensor Extern Sampler TensorFacts ScheduleFacts RetakeFacts.

(** [add_latents_noise] returns the request, as the latents' dtype holds
    it after truncation, as the initial timestep, and blends by the sigma
    at the index whose timestep, cast to that dtype, is nearest to it. *)
Lemma add_latents_noise_entries `{TR : Transformer} (gt noise noisy : latent)
      (variance init : Q) (ts sg : list Q) :
  let cast := Float.to latent_dtype in
  add_latents_noise gt variance noise ts sg = ok (noisy, init) ->
  init = requested_timestep variance
  /\ exists (k : nat) (sigma : Q),
      nearest_idx init (List.map cast ts) = ok (Z.of_nat k)
      /\ (k < List.length ts)%nat
      /\ (forall j, (j < List.length ts)%nat ->
                    (Qabs (init - nth k (List.map cast ts) 0)
                     <= Qabs (init - nth j (List.map cast ts) 0))%Q)
      /\ (forall j, (j < k)%nat ->
                    (Qabs (init - nth k (List.map cast ts) 0)
                     < Qabs (init - nth j (List.map cast ts) 0))%Q)
      /\ index sg (Z.of_nat k) = ok sigma
      /\ forall a b c d,
          get noisy a b c d
          = (Q2R (cast sigma) * get noise a b c d
             + Q2R (cast (1 - cast sigma)%Q) * get gt a b c d)%R.
Proof.
  intros cast. unfold add_latents_noise, bind. fold cast.
  set (q := requested_timestep variance).
  destruct ts as [|t0 ts'] eqn:Ets;
    [unfold nearest_idx, raise; cbn [List.map]; discriminate|].
  rewrite <- Ets.
  destruct (nearest_idx_minimizes q (List.map cast ts))
    as (k & Hk & Hlt & Hmin & Hfirst);
    [rewrite Ets; discriminate|].
  rewrite length_map in Hlt, Hmin.
  rewrite Hk. unfold ok. cbv beta iota.
  destruct (index sg (Z.of_nat k)) as [e|sigma] eqn:Es; [discriminate|].
  destruct (add _ _) as [e|n] eqn:En; [discriminate|].
  intros H. inversion H; subst noisy init; clear H.
  split; [reflexivity|]. exists k, sigma.
  repeat (split; [assumption|]).
  intros a b c d. rewrite (get_add _ _ _ _ _ _ _ En). now rewrite !get_scale.
Qed.

Section Loop.
Context `{TR : Transformer} `{SC : Schedules} `{GD : Guidance}.

(** An iteration whose timestep exceeds the initial timestep does nothing:
    no call, the state as it was. *)
Lemma loop_body_cut_off (x : loop_ctx) (i : Z) (t : Q) (s : loop_state) :
  (init_timestep x < t)%Q -> loop_body x i t s = ok s.
Proof.
  intros H. unfold loop_body. apply Qltb_true in H. now rewrite H.
Qed.

(** The loop begins after the leading timesteps above the cut-off. *)
Lemma loop_skips (x : loop_ctx) (skipped : list Q) :
  forall (i : Z) (rest : list Q) (s : loop_state),
    Forall (fun t => (init_timestep x < t)%Q) skipped ->
    loop x i (skipped ++ rest) s
    = loop x (i + Z.of_nat (List.length skipped)) rest s.
Proof.
  induction skipped as [|t sk IH]; intros i rest s H.
  - cbn. now rewrite Z.add_0_r.
  - inversion H as [|? ? Ht Hsk]; subst.
    rewrite <- app_comm_cons. cbn [loop].
    rewrite (loop_body_cut_off x i t s Ht). cbn [bind ok].
    rewrite (IH _ _ _ Hsk). cbn [List.length]. f_equal. lia.
Qed.

(** The predictor records its call with the full conditioning first. *)
Lemma prediction_trace (x : loop_ctx) (i : Z) (t : Q) (s s1 : loop_state) :
  prediction x i t s = ok s1 ->
  exists more, trace s1 = trace s ++ Decode i CondFull :: more.
Proof.
  unfold prediction.
  destruct ((start_idx x <=? i) && (i <? end_idx x)
            && do_classifier_free_guidance x).
  - unfold guided_prediction, bind.
    destruct (current_guidance_scale x i) as [e|g]; [discriminate|].
    destruct (do_double_condition_guidance x);
      destruct (encoder_hidden_states_no_lyric x);
      destruct (use_erg_diffusion (cfg x));
      destruct (cfg_type (cfg x));
      try destruct (apg_forward _ _ _ _);
      intros H; inversion H; cbn [trace]; rewrite <- ?app_assoc;
      cbn [app]; eexists; reflexivity.
  - intros H. inversion H. cbn [trace]. eexists. reflexivity.
Qed.

(** An iteration only adds to the record of calls. *)
Lemma loop_body_trace (x : loop_ctx) (i : Z) (t : Q) (s s' : loop_state) :
  loop_body x i t s = ok s' -> exists more, trace s' = trace s ++ more.
Proof.
  unfold loop_body.
  destruct (Qltb (init_timestep x) t).
  { intros H. inversion H. exists []. now rewrite app_nil_r. }
  destruct (rp x) as [r|].
  - destruct (i <? n_min r).
    { intros H. inversion H. exists []. now rewrite app_nil_r. }
    unfold bind.
    destruct (if i =? n_min r then _ else _) as [e|s0] eqn:E0;
      [discriminate|].
    assert (T0 : trace s0 = trace s).
    { destruct (i =? n_min r).
      - destruct (repaint_start_latent r t); [discriminate|].
        now inversion E0.
      - now inversion E0. }
    destruct (prediction x i t s0) as [e|s1] eqn:E1; [discriminate|].
    destruct (prediction_trace x i t s0 s1 E1) as (more & T1).
    destruct (noise_pred s1); [|discriminate].
    destruct (repaint_advance _ _ _ _ _ _); [discriminate|].
    intros H. inversion H. cbn [with_latents trace].
    rewrite T1, T0. eexists. reflexivity.
  - unfold bind.
    destruct (prediction x i t s) as [e|s1] eqn:E1; [discriminate|].
    destruct (prediction_trace x i t s s1 E1) as (more & T1).
    destruct (noise_pred s1); [|discriminate].
    destruct (step _ _ _ _ _).
    intros H. inversion H. cbn [trace]. rewrite T1, <- app_assoc.
    eexists. reflexivity.
Qed.

Lemma loop_trace (x : loop_ctx) (ts : list Q) :
  forall (i : Z) (s s' : loop_state),
    loop x i ts s = ok s' -> exists more, trace s' = trace s ++ more.
Proof.
  induction ts as [|t rest IH]; intros i s s'.
  - intros H. inversion H. exists []. now rewrite app_nil_r.
  - cbn [loop]. unfold bind.
    destruct (loop_body x i t s) as [e|s1] eqn:E1; [discriminate|].
    intros H. destruct (loop_body_trace x i t s s1 E1) as (m1 & T1).
    destruct (IH _ _ _ H) as (m2 & T2).
    exists (m1 ++ m2). now rewrite T2, T1, app_assoc.
Qed.

(** Without repainting, an iteration that is not cut off begins with the
    predictor call. *)
Lemma loop_body_begins (x : loop_ctx) (i : Z) (t : Q) (s s' : loop_state) :
  rp x = None ->
  (t <= init_timestep x)%Q ->
  loop_body x i t s = ok s' ->
  exists more, trace s' = trace s ++ Decode i CondFull :: more.
Proof.
  intros Hrp Ht. unfold loop_body.
  apply Qltb_false in Ht. rewrite Ht, Hrp. unfold bind.
  destruct (prediction x i t s) as [e|s1] eqn:E1; [discriminate|].
  destruct (prediction_trace x i t s s1 E1) as (more & T1).
  destruct (noise_pred s1); [|discriminate].
  destruct (step _ _ _ _ _).
  intros H. inversion H. cbn [trace]. rewrite T1, <- app_assoc.
  cbn [app]. eexists. reflexivity.
Qed.

(** Outside the guided branch such an iteration always returns. *)
Lemma loop_body_unguided_returns (x : loop_ctx) (i : Z) (t : Q)
      (s : loop_state) :
  rp x = None ->
  (t <= init_timestep x)%Q ->
  Cases.guided x i = false ->
  exists s', loop_body x i t s = ok s'.
Proof.
  intros Hrp Ht Hg. unfold loop_body.
  apply Qltb_false in Ht. rewrite Ht, Hrp.
  unfold prediction. unfold Cases.guided in Hg. rewrite Hg.
  cbn [bind ok]. cbn [plain_prediction noise_pred].
  destruct (step _ _ _ _ _). eexists. reflexivity.
Qed.

(** The loop's first call is the predictor's, at the first index whose
    timestep is not above the cut-off. *)
Lemma loop_begins (x : loop_ctx) (skipped rest : list Q) (t : Q)
      (s s' : loop_state) :
  rp x = None ->
  Forall (fun u => (init_timestep x < u)%Q) skipped ->
  (t <= init_timestep x)%Q ->
  loop x 0 (skipped ++ t :: rest) s = ok s' ->
  exists more,
    trace s'
    = trace s ++ Decode (Z.of_nat (List.length skipped)) CondFull :: more.
Proof.
  intros Hrp Hsk Ht. rewrite (loop_skips x skipped 0 (t :: rest) s Hsk).
  cbn [loop]. unfold bind. rewrite Z.add_0_l.
  destruct (loop_body x _ t s) as [e|s1] eqn:E1; [discriminate|].
  intros H.
  destruct (loop_body_begins x _ t s s1 Hrp Ht E1) as (m1 & T1).
  destruct (loop_trace x rest _ s1 s' H) as (m2 & T2).
  exists (m1 ++ m2). rewrite T2, T1, <- app_assoc. reflexivity.
Qed.

End Loop.

Section Run.
Context `{TR : Transformer} `{SC : Schedules} `{GD : Guidance} `{RD : Random}.

Lemma make_schedule_timesteps (c : config) (s s' : scheduler) (ts : list Q)
      (n steps : Z) :
  make_schedule c s = ok (ts, n, steps, s') -> ts = timesteps s'.
Proof.
  unfold make_schedule, retrieve_timesteps, retrieve_timesteps_sigmas, bind.
  destruct (oss_steps c) as [|o os].
  - intros H. now inversion H.
  - destruct (map_result _ _) as [e|l]; [discriminate|].
    intros H. now inversion H.
Qed.

(** C3, as the code has it.  In an audio2audio run with a reference latent
    (and no retake noise) the requested noise level
    [(1 - ref_audio_strength) * 1000], computed in the latents' dtype, is
    truncated to an integer [q] (and held in that dtype); the latent the
    loop starts from is [sigma * noise + (1 - sigma) * reference] for the
    fresh noise and the sigma at the schedule index whose timestep is
    nearest to [q] (the first such index), timesteps and sigma cast to the
    dtype; the initial timestep is [q] itself.  Every iteration whose
    timestep exceeds [q] leaves the state as it was and calls nothing; an
    iteration whose timestep is at most [q] begins with the predictor call
    when it returns, and it returns whenever it is not a guided one.  So
    the first call of the loop is the predictor's at the first schedule
    index whose timestep is at most [q]. *)
Theorem audio2audio_prenoise_and_cutoff (c : config) (a : inputs)
        (r : run_setup) (ref : latent) :
  let bsz := text_batch (encoder_text_hidden_states a) in
  let q :=
    requested_timestep (Float.sub 1 (Float.double (ref_audio_strength c))) in
  let cast := Float.to latent_dtype in
  audio2audio_enable c = true ->
  ref_latents a = Some ref ->
  add_retake_noise c = false ->
  text2music_setup c a = ok r ->
  init_timestep (rs_ctx r) = q
  /\ rs_timesteps r = timesteps (sched (rs_state r))
  /\ (exists (noise : latent) (g : list generator) (k : nat) (sigma : Q),
         randn_tensor (Shape bsz 8 16 (working_frame_length c a))
                      (random_generators a) = ok (noise, g)
         /\ nearest_idx q (List.map cast (rs_timesteps r)) = ok (Z.of_nat k)
         /\ (k < List.length (rs_timesteps r))%nat
         /\ (forall j, (j < List.length (rs_timesteps r))%nat ->
                       (Qabs (q - nth k (List.map cast (rs_timesteps r)) 0)
                        <= Qabs (q - nth j (List.map cast (rs_timesteps r)) 0))%Q)
         /\ (forall j, (j < k)%nat ->
                       (Qabs (q - nth k (List.map cast (rs_timesteps r)) 0)
                        < Qabs (q - nth j (List.map cast (rs_timesteps r)) 0))%Q)
         /\ index (sigmas (sched (rs_state r))) (Z.of_nat k) = ok sigma
         /\ forall i j k l,
             get (latents (rs_state r)) i j k l
             = (Q2R (cast sigma) * get noise i j k l
                + Q2R (cast (1 - cast sigma)%Q) * get ref i j k l)%R)
  /\ (forall (i : Z) (t : Q) (s : loop_state),
         (q < t)%Q -> loop_body (rs_ctx r) i t s = ok s)
  /\ (forall (i : Z) (t : Q) (s s' : loop_state),
         (t <= q)%Q ->
         loop_body (rs_ctx r) i t s = ok s' ->
         exists more, trace s' = trace s ++ Decode i CondFull :: more)
  /\ (forall (i : Z) (t : Q) (s : loop_state),
         (t <= q)%Q ->
         Cases.guided (rs_ctx r) i = false ->
         exists s', loop_body (rs_ctx r) i t s = ok s')
  /\ (forall (skipped rest : list Q) (t : Q) (s s' : loop_state),
         Forall (fun u => (q < u)%Q) skipped ->
         (t <= q)%Q ->
         loop (rs_ctx r) 0 (skipped ++ t :: rest) s = ok s' ->
         exists more,
           trace s'
           = trace s
             ++ Decode (Z.of_nat (List.length skipped)) CondFull :: more).
Proof.
  intros bsz q cast Ha2a Href Hretake.
  unfold text2music_setup, bind.
  destruct (make_scheduler _) as [e|s]; [discriminate|].
  destruct (make_schedule c s) as [e|[[[ts n] steps] s']] eqn:Esch;
    [discriminate|].
  apply make_schedule_timesteps in Esch.
  unfold initial_latent, bind. rewrite Hretake, Ha2a, Href. fold bsz.
  destruct (randn_tensor _ _) as [e|[noise g]] eqn:En; [discriminate|].
  unfold ok. cbv beta iota. cbn [no_retake target_latents].
  destruct (add_latents_noise _ _ _ _ _) as [e|[noisy init]] eqn:Ea;
    [discriminate|].
  intros H. inversion H; subst r; clear H.
  cbn [rs_ctx rs_state rs_timesteps latents sched].
  destruct (add_latents_noise_entries _ _ _ _ _ _ _ Ea)
    as (Hinit & k & sigma & Hk & Hlt & Hmin & Hfirst & Hs & Hentries).
  fold q in Hinit. fold cast in Hk, Hmin, Hfirst, Hentries. subst init.
  match goal with
  | |- context [make_loop_ctx ?c' ?a' ?b' ?ts' ?n' ?p' ?q'] =>
      pose proof (LoopFacts.make_loop_ctx_fields c' a' b' ts' n' p' q') as F
  end.
  cbv zeta in F. destruct F as (_ & Hrp & Hi & _).
  cbn [repaint] in Hrp.
  split; [exact Hi|]. split; [exact Esch|]. split.
  { exists noise, g, k, sigma. rewrite <- Esch in Hk, Hlt, Hmin, Hfirst.
    split; [reflexivity|]. repeat (split; [assumption|]). exact Hentries. }
  split.
  { intros i t s0 Ht. apply loop_body_cut_off. now rewrite Hi. }
  split.
  { intros i t s0 s1 Ht. apply loop_body_begins; [exact Hrp|].
    now rewrite Hi. }
  split.
  { intros i t s0 Ht. apply loop_body_unguided_returns; [exact Hrp|].
    now rewrite Hi. }
  intros skipped rest t s0 s1 Hall Ht.
  apply loop_begins; [exact Hrp| |]; now rewrite Hi.
Qed.

End Run.

Section OnTestDoubles.
#[local] Existing Instance Stub.transformer.
#[local] Existing Instance Stub.schedules.
#[local] Existing Instance Stub.guidance.
#[local] Existing Instance Stub.random.

(** C3 as stated fails.  With the schedule [1000, 750, 500, 250] and
    reference strength 0.3 the request is 700; the nearest index is 1
    (timestep 750, distance 50), yet the iteration at index 1 is cut off
    (750 > 700) and the first predictor call is at index 2. *)
Lemma audio2audio_starts_after_nearest :
  exists (k first : Z),
    timesteps (set_timesteps FlowMatchEulerDiscreteScheduler 4)
    = [1000; 750; 500; 250]%Q
    /\ requested_timestep (Float.sub 1 (Float.double 0.3)) = 700%Q
    /\ nearest_idx (requested_timestep (Float.sub 1 (Float.double 0.3)))
                   (List.map (Float.to latent_dtype)
                             [1000; 750; 500; 250]%Q) = ok k
    /\ Scenario.calls_of
         (text2music_run Scenario.audio2audio
            (Stub.inputs 1 None (Some (Scenario.clip 10 2%R))))
       = ok [Decode first CondFull; SchedulerStep first;
             Decode 3 CondFull; SchedulerStep 3]
    /\ k = 1 /\ first = 2.
Proof.
  exists 1, 2. repeat split; vm_compute; reflexivity.
Qed.

(** The request is computed in the latents' dtype: for strength 0.489 the
    [float32] product [0.511 * 1000] lies just below 511 and is truncated
    to 510; in [bfloat16] it is 512. *)
Lemma requested_timestep_in_the_dtype :
  requested_timestep (Float.sub 1 (Float.double 0.489)) = 510%Q
  /\ Float.to Float.bfloat16
       (inject_Z
          (int_of_float
             (Float.to Float.bfloat16
                (Float.to Float.bfloat16 (Float.sub 1 (Float.double 0.489))
                 * 1000))))
     = 512%Q.
Proof. split; vm_compute; reflexivity. Qed.

(** The amended C3 on the same run: the initial timestep is 700, the
    iterations at indices 0 and 1 are skipped, and the loop's first call is
    the predictor's at index 2. *)
Lemma audio2audio_prenoise_and_cutoff_witness :
  exists r final more,
    text2music_setup Scenario.audio2audio
                     (Stub.inputs 1 None (Some (Scenario.clip 10 2%R)))
    = ok r
    /\ init_timestep (rs_ctx r) = 700%Q
    /\ rs_timesteps r = ([1000; 750] ++ 500 :: [250])%Q
    /\ loop (rs_ctx r) 0 (rs_timesteps r) (rs_state r) = ok final
    /\ trace final = Decode 2 CondFull :: more.
Proof.
  let v := eval vm_compute in
             (text2music_setup
                Scenario.audio2audio
                (Stub.inputs 1 None (Some (Scenario.clip 10 2%R)))) in
  lazymatch v with
  | inr ?r =>
      let f := eval vm_compute in
                 (loop (rs_ctx r) 0 (rs_timesteps r) (rs_state r)) in
      lazymatch f with
      | inr ?f =>
          assert (Hloop : loop (rs_ctx r) 0 ([1000; 750] ++ 500 :: [250])%Q
                               (rs_state r) = ok f)
            by (vm_compute; reflexivity);
          destruct (audio2audio_prenoise_and_cutoff
                      Scenario.audio2audio
                      (Stub.inputs 1 None (Some (Scenario.clip 10 2%R)))
                      r (Scenario.clip 10 2%R))
            as (Hinit & _ & _ & _ & _ & _ & Hbegin);
          [reflexivity|reflexivity|reflexivity|vm_compute; reflexivity|];
          destruct (Hbegin [1000; 750]%Q [250]%Q 500%Q (rs_state r) f)
            as (more & Hmore);
          [repeat constructor|vm_compute; discriminate|exact Hloop|];
          exists r, f, more
      end
  end.
  split; [vm_compute; reflexivity|]. split.
  - rewrite Hinit. vm_compute. reflexivity.
  - split; [vm_compute; reflexivity|]. split; [exact Hloop|].
    exact Hmore.
Defined.

End OnTestDoubles.

End Audio2AudioFacts.

(* ------------------------------------------------------------------------- *)
(** ** Extend: reattaching the trimmed slices *)

Module ExtendFacts.
Import Py Tensor Extern Sampler.

(** With only the left slice cached the reassembly concatenates [None]. *)
Lemma reassembly_left_only (target cached : latent) :
  extend_reassembly true target None (Some cached) = raise TypeError.
Proof. reflexivity. Qed.

(** With both slices cached the left step concatenates the right slice
    again, along the batch axis; the left slice is not read. *)
Lemma reassembly_both (target right left : latent) :
  extend_reassembly true target (Some right) (Some left)
  = let* t := cat3_2 target right in cat0_2 right t.
Proof.
  unfold extend_reassembly, cat3, cat0, cat. cbn [all_tensors forallb andb].
  cbn [cat_with bind]. destruct (cat3_2 target right) as [e|t]; [reflexivity|].
  cbn [ok bind cat_with]. now destruct (cat0_2 right t).
Qed.

(** The slice cached on the right is cut from the window that was kept, not
    from what was trimmed.  A clip of 2153 frames whose entries are their
    frame number, padded by 1076 frames on the left, is cut to 2583 frames;
    the 646 cached frames start at source frame 861, which the kept window
    still holds at position 1937, while the trimmed tail starts at source
    frame 1507. *)
Lemma cached_right_slice_repeats_kept_frames :
  match extend_left (Tensor (Shape 1 8 16 2153) (fun _ _ _ l => IZR l))
                    2153 (-1076) with
  | inr p =>
      match cached p with
      | Some c =>
          shp (gt_latents p) = Shape 1 8 16 2583
          /\ shp c = Shape 1 8 16 646
          /\ get c 0 0 0 0 = IZR 861
          /\ get (gt_latents p) 0 0 0 1937 = IZR 861
      | None => False
      end
  | inl _ => False
  end.
Proof. vm_compute. repeat split. Qed.

Section OnTestDoubles.
#[local] Existing Instance Stub.transformer.
#[local] Existing Instance Stub.schedules.
#[local] Existing Instance Stub.guidance.
#[local] Existing Instance Stub.random.

(** C1 fails on the code.  A clip of 200 seconds (2153 frames) extended by
    100 seconds on the right asks for 3229 frames, 646 more than the 2583
    that can be inferred: the setup trims 646 frames on the left and caches
    them in [to_left_pad_gt_latents], with nothing cached on the right.  The
    reassembly then concatenates [to_right_pad_gt_latents], which is [None],
    along axis 0, and raises [TypeError]: no latent of the requested length
    is returned.  Whenever the left slice is cached the reassembly never
    reads it. *)
Theorem extend_left_slice_reassembly_raises :
  (forall target cached : latent,
      extend_reassembly true target None (Some cached) = raise TypeError)
  /\ (forall target right left : latent,
         extend_reassembly true target (Some right) (Some left)
         = let* t := cat3_2 target right in cat0_2 right t)
  /\ (frames_of_seconds 200 = 2153 /\ frames_of_seconds 300 = 3229
      /\ max_infer_fame_length = 2583)
  /\ match text2music_setup
             Scenario.extend_right
             (Stub.inputs 1 (Some (Scenario.clip 2153 2%R)) None) with
     | inr r =>
         is_extend (rs_prepared r) = true
         /\ option_map shp (to_right_pad_gt_latents (rs_prepared r)) = None
         /\ option_map shp (to_left_pad_gt_latents (rs_prepared r))
            = Some (Shape 1 8 16 646)
         /\ shp (latents (rs_state r)) = Shape 1 8 16 2583
     | inl _ => False
     end
  /\ text2music_diffusion_process
       Scenario.extend_right
       (Stub.inputs 1 (Some (Scenario.clip 2153 2%R)) None)
     = raise TypeError.
Proof.
  split; [exact reassembly_left_only|].
  split; [exact reassembly_both|].
  split; [repeat split; vm_compute; reflexivity|].
  split; [|vm_compute; reflexivity].
  vm_compute. repeat split.
Qed.

End OnTestDoubles.

End ExtendFacts.

(* ------------------------------------------------------------------------- *)
(** ** Flow-edit: which momentum buffer a fusion is handed *)

Module FlowEditFacts.
Import Py Tensor Extern FlowEdit.
Import Sampler (cfg_kind, CfgApg, CfgCfg, CfgStar, CfgOther).

Section CalcV.
Context `{TR : Transformer} `{GD : Guidance}.

(** A trajectory that is handed no buffer leaves both buffers alone. *)
Lemma guided_velocity_unbuffered (i : Z) (tr : trajectory) (zt : latent)
      (t : Q) (c : conditioning) (am : Z * Z) (gs : Q) (b : buffers)
      (log : list event) :
  match guided_velocity i tr zt t c am true gs CfgApg None b log with
  | inr (_, b', log') => b' = b /\ log' = log ++ [Apg i tr None]
  | inl _ => True
  end.
Proof.
  unfold guided_velocity, bind.
  destruct (cat0 _) as [e|x]; [exact I|].
  destruct (chunk2 _) as [e|[wc un]]; [exact I|].
  cbn [read]. destruct (apg_forward _ _ _ _) as [p m].
  split; reflexivity.
Qed.

(** A trajectory that is handed a buffer records it. *)
Lemma guided_velocity_buffered (i : Z) (tr : trajectory) (zt : latent)
      (t : Q) (c : conditioning) (am : Z * Z) (gs : Q) (b : buffers)
      (log : list event) (r : buffer) :
  match guided_velocity i tr zt t c am true gs CfgApg (Some r) b log with
  | inr (_, _, log') => log' = log ++ [Apg i tr (Some r)]
  | inl _ => True
  end.
Proof.
  unfold guided_velocity, bind.
  destruct (cat0 _) as [e|x]; [exact I|].
  destruct (chunk2 _) as [e|[wc un]]; [exact I|].
  destruct (apg_forward _ _ _ _) as [p m]. reflexivity.
Qed.

End CalcV.

(** C2 fails on the code.  In the two-trajectory phase the loop calls
    [calc_v] with [momentum_buffer=momentum_buffer] only, so the target
    trajectory's fusion is handed [None]: [momentum_buffer_tar] is neither
    read nor updated there, for any collaborators.  Only the tail phase
    hands [momentum_buffer_tar] to the target's fusion.  On the test doubles
    a two-step run whose first step is in the two-trajectory phase records
    exactly that. *)
Theorem flowedit_target_buffer_not_passed :
  (forall (TR : Transformer) (GD : Guidance) (i : Z) (zt_src zt_tar : latent)
          (t : Q) (src tar : conditioning) (gs : Q) (am : Z * Z)
          (b : buffers) (log : list event),
      match calc_v i (Some zt_src) (Some zt_tar) t src tar true gs gs CfgApg
                   am (Some momentum_buffer) None true b log with
      | inr (_, _, b', log') =>
          of_tar b' = of_tar b
          /\ log' = log ++ [Apg i Source (Some momentum_buffer);
                            Apg i Target None]
      | inl _ => True
      end)
  /\ Scenario.fusions_of
       (Scenario.flowedit Scenario.flow_conditioning Scenario.flow_conditioning
                          (Scenario.clip 10 2%R) [100] 2 15 0 0.5 1)
     = ok [Apg 0 Source (Some momentum_buffer); Apg 0 Target None;
           Apg 1 Target (Some momentum_buffer_tar)].
Proof.
  split; [|vm_compute; reflexivity].
  intros TR GD i zs zt t src tar gs am b log.
  unfold calc_v, bind.
  pose proof (guided_velocity_buffered i Source zs t src am gs b log
                                       momentum_buffer) as Hs.
  destruct (guided_velocity i Source zs t src am true gs CfgApg
                            (Some momentum_buffer) b log)
    as [e|[[p b1] log1]] eqn:E1; [exact I|].
  unfold ok. cbv beta iota.
  pose proof (guided_velocity_unbuffered i Target zt t tar am gs b1 log1)
    as Ht.
  destruct (guided_velocity i Target zt t tar am true gs CfgApg None b1 log1)
    as [e|[[q b2] log2]]; [exact I|].
  destruct Ht as [Hb Hl]. subst b2 log2 log1.
  split.
  - revert E1. unfold guided_velocity, bind.
    destruct (cat0 _) as [e|x]; [discriminate|].
    destruct (chunk2 _) as [e|[wc un]]; [discriminate|].
    destruct (apg_forward _ _ _ _) as [p' m].
    intros H. inversion H; subst. now destruct m.
  - now rewrite <- app_assoc.
Qed.

End FlowEditFacts.

(* ------------------------------------------------------------------------- *)
(** ** Seeds: explicit seeds never consult the process-wide generator *)

Module SeedsFacts.
Import Py Tensor Extern Seeds.

Lemma index_nth (l : list Z) (i : nat) :
  (i < List.length l)%nat -> index l (Z.of_nat i) = ok (nth i l 0).
Proof.
  intros H. unfold index.
  destruct (Z.ltb_spec (Z.of_nat i) 0) as [Hn|_]; [lia|].
  destruct (Z.leb_spec 0 (Z.of_nat i)) as [_|Hn]; [|lia].
  destruct (Z.ltb_spec (Z.of_nat i) (Z.of_nat (List.length l))) as [_|Hn];
    [|lia].
  cbn [andb]. rewrite Nat2Z.id.
  destruct (nth_error l i) as [a|] eqn:E.
  - now rewrite (nth_error_nth _ _ _ E).
  - apply nth_error_None in E. lia.
Qed.

Section SetSeeds.
Context `{ST : Strings} `{RD : Random}.

Lemma current_seed_pure (p : processed) (i : Z) (g : global_rng) :
  explicit p = true ->
  current_seed_for_generator p i g = let* n := seed_of p i in ok (n, g).
Proof.
  destruct p as [|n|l]; [discriminate| |]; intros _; [reflexivity|].
  cbn [current_seed_for_generator seed_of].
  now destruct (i <? Z.of_nat (List.length l)).
Qed.

Lemma seed_rows_pure (p : processed) (k : nat) :
  forall (i : Z) (g : global_rng),
    explicit p = true ->
    seed_rows p i k g = let* ns := seeds_from p i k in ok (ns, g).
Proof.
  induction k as [|k IH]; intros i g H; [reflexivity|].
  cbn [seed_rows seeds_from]. rewrite (current_seed_pure p i g H).
  destruct (seed_of p i) as [e|n]; [reflexivity|].
  cbn [bind ok]. destruct (check_seed n) as [e|u]; [reflexivity|].
  cbn [bind ok]. rewrite (IH (i + 1) g H).
  now destruct (seeds_from p (i + 1) k).
Qed.

(** With explicit seeds [set_seeds] is a function of the seeds and the
    batch size, and returns the process-wide generator untouched. *)
Lemma set_seeds_pure (batch_size : Z) (manual_seeds : seeds_arg)
      (p : processed) (g : global_rng) :
  process_seeds manual_seeds = ok p ->
  explicit p = true ->
  set_seeds batch_size manual_seeds g
  = let* ns := seeds_from p 0 (Z.to_nat batch_size) in
    ok (List.map manual_seed ns, ns, g).
Proof.
  intros Hp He. unfold set_seeds. rewrite Hp. cbn [bind ok].
  rewrite (seed_rows_pure p _ 0 g He).
  now destruct (seeds_from p 0 (Z.to_nat batch_size)).
Qed.

(** Row [i] of the seeds is the seed of row [i]. *)
Lemma seeds_from_rows (p : processed) (k : nat) :
  forall (i : Z) (ns : list Z),
    seeds_from p i k = ok ns ->
    List.length ns = k
    /\ forall j, (j < k)%nat -> seed_of p (i + Z.of_nat j) = ok (nth j ns 0).
Proof.
  induction k as [|k IH]; intros i ns.
  - intros H. inversion H. split; [reflexivity|]. intros j Hj. lia.
  - cbn [seeds_from]. unfold bind.
    destruct (seed_of p i) as [e|n] eqn:En; [discriminate|].
    destruct (check_seed n) as [e|u]; [discriminate|].
    destruct (seeds_from p (i + 1) k) as [e|ns'] eqn:Ens; [discriminate|].
    intros H. inversion H; subst ns; clear H.
    destruct (IH (i + 1) ns' Ens) as [Hlen Hrows].
    split; [cbn; now rewrite Hlen|].
    intros [|j] Hj.
    + now rewrite Z.add_0_r.
    + cbn [nth]. rewrite <- (Hrows j) by lia. f_equal. lia.
Qed.

(** A list that holds anything but integers is no seed at all: the seeds
    are then drawn from the process-wide generator.  [ace_step_nodes.py]
    passes [retake_seeds = [str(seed)]], such a list. *)
Lemma list_of_strings_is_not_explicit (g : global_rng) :
  process_seeds (SeedsList [NotInt]) = ok NoSeeds
  /\ current_seed_for_generator NoSeeds 0 g = ok (randint32 g).
Proof. split; reflexivity. Qed.

Context `{TR : Transformer} `{SC : Schedules} `{GD : Guidance}.

(** C9.  When both seed arguments are explicit (an integer, a non-empty list
    of integers, or a string that parses to either), a call's output latent
    does not depend on the state of the process-wide random generator: two
    invocations with the same configuration, seeds and conditioning return
    the same result.  The generators are seeded one per batch row: row [i]
    gets the [i]-th seed of a list (its last seed past the end), or the one
    integer seed.  The predictor, the encoder and the scheduler are
    functions. *)
Theorem explicit_seeds_deterministic (c : Sampler.config) (batch_size : Z)
        (manual_seeds retake_seeds : seeds_arg) (a : conditioning)
        (p1 p2 : processed) :
  process_seeds manual_seeds = ok p1 ->
  explicit p1 = true ->
  process_seeds retake_seeds = ok p2 ->
  explicit p2 = true ->
  (forall g1 g2 : global_rng,
      seeded_text2music c batch_size manual_seeds retake_seeds a g1
      = seeded_text2music c batch_size manual_seeds retake_seeds a g2)
  /\ (forall (g g' : global_rng) (gens : list generator) (seeds : list Z),
         set_seeds batch_size manual_seeds g = ok (gens, seeds, g') ->
         g' = g
         /\ gens = List.map manual_seed seeds
         /\ List.length seeds = Z.to_nat batch_size
         /\ forall i, (i < Z.to_nat batch_size)%nat ->
                      seed_of p1 (Z.of_nat i) = ok (nth i seeds 0))
  /\ (forall (l : list Z) (i : nat),
         p1 = SeedList l -> (i < List.length l)%nat ->
         seed_of p1 (Z.of_nat i) = ok (nth i l 0)).
Proof.
  intros Hp1 He1 Hp2 He2. split; [|split].
  - intros g1 g2. unfold seeded_text2music.
    rewrite !(set_seeds_pure batch_size manual_seeds p1 _ Hp1 He1).
    destruct (seeds_from p1 0 (Z.to_nat batch_size)) as [e|ns1];
      [reflexivity|].
    cbn [bind ok].
    rewrite !(set_seeds_pure batch_size retake_seeds p2 _ Hp2 He2).
    now destruct (seeds_from p2 0 (Z.to_nat batch_size)).
  - intros g g' gens seeds.
    rewrite (set_seeds_pure batch_size manual_seeds p1 g Hp1 He1).
    unfold bind.
    destruct (seeds_from p1 0 (Z.to_nat batch_size)) as [e|ns] eqn:E;
      [discriminate|].
    intros H. inversion H; subst; clear H.
    destruct (seeds_from_rows p1 _ 0 seeds E) as [Hlen Hrows].
    repeat split; try assumption || reflexivity.
  - intros l i Hl Hi. subst p1. cbn [seed_of].
    destruct (Z.ltb_spec (Z.of_nat i) (Z.of_nat (List.length l))); [|lia].
    now apply index_nth.
Qed.

End SetSeeds.

Section OnTestDoubles.
#[local] Existing Instance Stub.transformer.
#[local] Existing Instance Stub.schedules.
#[local] Existing Instance Stub.guidance.
#[local] Existing Instance Stub.random.
#[local] Existing Instance Stub.strings.

(** C9 on a batch of two seeded [7, 9], retake seed 3, from two different
    states of the process-wide generator. *)
Lemma explicit_seeds_deterministic_witness :
  seeded_text2music Scenario.single_pass 2
                    (SeedsList [IsInt 7; IsInt 9]) (SeedsInt 3)
                    Scenario.call_conditioning (0 : @global_rng Stub.random)
  = seeded_text2music Scenario.single_pass 2
                      (SeedsList [IsInt 7; IsInt 9]) (SeedsInt 3)
                      Scenario.call_conditioning (5 : @global_rng Stub.random)
  /\ seed_of (SeedList [7; 9]) 1 = ok 9.
Proof.
  destruct (explicit_seeds_deterministic
              Scenario.single_pass 2 (SeedsList [IsInt 7; IsInt 9])
              (SeedsInt 3) Scenario.call_conditioning
              (SeedList [7; 9]) (OneSeed 3))
    as (Hsame & _ & Hrow); try reflexivity.
  split.
  - exact (Hsame 0 5).
  - exact (Hrow [7; 9] 1%nat eq_refl ltac:(cbn; lia)).
Defined.

End OnTestDoubles.

End SeedsFacts.
(* ------------------------------------------------------------------------- *)
(** ** The guidance window and the decay of the guidance scale *)

Module WindowFacts.
Import Py Tensor Extern Sampler ScheduleFacts FloatFacts.

(** On a float that is not negative [int] is the floor. *)
Lemma int_of_float_floor (x : Q) : (0 <= x)%Q -> int_of_float x = Qfloor x.
Proof.
  destruct x as [n d]. unfold Qle, int_of_float, Qfloor. cbn.
  intros H. apply Z.quot_div_nonneg; lia.
Qed.

Lemma int_of_float_inject (n : Z) : int_of_float (inject_Z n) = n.
Proof. unfold int_of_float, inject_Z. cbn. apply Z.quot_1_r. Qed.

Lemma int_of_float_mono (x y : Q) :
  (0 <= x)%Q -> (x <= y)%Q -> int_of_float x <= int_of_float y.
Proof.
  intros Hx Hxy. rewrite !int_of_float_floor.
  - now apply Qfloor_resp_le.
  - eapply Qle_trans; eassumption.
  - exact Hx.
Qed.

(** *** Python's floats: the laws of [double] *)

Lemma double_mono (x y : Q) :
  (x <= y)%Q -> (Float.double x <= Float.double y)%Q.
Proof. apply (round_mono 53); lia. Qed.

Lemma double_nonneg (x : Q) : (0 <= x)%Q -> (0 <= Float.double x)%Q.
Proof. apply (round_nonneg 53); lia. Qed.

Lemma double_compat (x y : Q) :
  (x == y)%Q -> (Float.double x == Float.double y)%Q.
Proof. apply (round_compat 53); lia. Qed.

#[local] Instance double_proper : Proper (Qeq ==> Qeq) Float.double.
Proof. intros x y E. now apply double_compat. Qed.

Lemma double_idempotent (x : Q) :
  (Float.double (Float.double x) == Float.double x)%Q.
Proof. apply (round_idempotent 53); lia. Qed.

Lemma double_inject (n : Z) :
  0 <= n < 2 ^ 53 -> (Float.double (inject_Z n) == inject_Z n)%Q.
Proof. apply (round_inject 53); lia. Qed.

(** A float between two floats stays between them. *)
Lemma double_between (lo hi x : Q) :
  (Float.double lo == lo)%Q -> (Float.double hi == hi)%Q ->
  (lo <= x)%Q -> (x <= hi)%Q ->
  (lo <= Float.double x)%Q /\ (Float.double x <= hi)%Q.
Proof.
  intros El Eh L H. split.
  - rewrite <- El. now apply double_mono.
  - rewrite <- Eh. now apply double_mono.
Qed.

Lemma double_0 : (Float.double 0 == 0)%Q.
Proof. reflexivity. Qed.

Lemma double_half : (Float.double (1 # 2) == 1 # 2)%Q.
Proof. vm_compute. reflexivity. Qed.

Lemma double_1 : (Float.double 1 == 1)%Q.
Proof. vm_compute. reflexivity. Qed.

(** [(1 - g) / 2] and [g / 2 + 0.5] in floats, for an interval [g] in
    [0, 1]: one is at most a half, the other at least, and at most 1. *)
Lemma window_fractions (g : Q) :
  (0 <= g)%Q -> (g <= 1)%Q ->
  let lo := Float.div (Float.sub 1 (Float.double g)) 2 in
  let hi := Float.add (Float.div (Float.double g) 2) 0.5 in
  (0 <= lo)%Q /\ (lo <= 1 # 2)%Q /\ (1 # 2 <= hi)%Q /\ (hi <= 1)%Q.
Proof.
  intros G0 G1 lo hi. subst lo hi.
  unfold Float.div, Float.sub, Float.add.
  destruct (double_between 0 1 g double_0 double_1 G0 G1) as [A0 A1].
  set (g' := Float.double g) in *. clearbody g'.
  destruct (double_between 0 1 (1 - g') double_0 double_1) as [B0 B1];
    [lra|lra|].
  set (a := Float.double (1 - g')) in *. clearbody a.
  destruct (double_between 0 (1 # 2) (a / 2) double_0 double_half)
    as [C0 C1].
  { apply Qle_shift_div_l; [reflexivity|lra]. }
  { apply Qle_shift_div_r; [reflexivity|lra]. }
  destruct (double_between 0 (1 # 2) (g' / 2) double_0 double_half)
    as [D0 D1].
  { apply Qle_shift_div_l; [reflexivity|lra]. }
  { apply Qle_shift_div_r; [reflexivity|lra]. }
  set (b := Float.double (g' / 2)) in *. clearbody b.
  destruct (double_between (1 # 2) 1 (b + 0.5) double_half double_1)
    as [E0 E1].
  { assert (H : (0.5 == 1 # 2)%Q) by reflexivity. lra. }
  { assert (H : (0.5 == 1 # 2)%Q) by reflexivity. lra. }
  repeat split; assumption.
Qed.

Section Window.
Context `{TR : Transformer} `{SC : Schedules} `{GD : Guidance} `{RD : Random}.

(** X1.  For a guidance interval between 0 and 1 and a step count that a
    float holds exactly, the guidance window [[start_idx, end_idx)], as
    Python's floats give it, lies inside the schedule:
    [0 <= start_idx <= end_idx <= num_inference_steps]. *)
Theorem guidance_window_inside_schedule (c : config) (n : Z) :
  (0 <= guidance_interval c)%Q ->
  (guidance_interval c <= 1)%Q ->
  0 <= n < 2 ^ 53 ->
  let '(start_idx, end_idx) := guidance_window c n in
  0 <= start_idx /\ start_idx <= end_idx /\ end_idx <= n.
Proof.
  intros H0 H1 Hn. unfold guidance_window.
  destruct (window_fractions (guidance_interval c) H0 H1)
    as (L0 & L1 & U0 & U1).
  set (lo := Float.div (Float.sub 1 (Float.double (guidance_interval c))) 2)
    in *.
  set (hi := Float.add (Float.div (Float.double (guidance_interval c)) 2) 0.5)
    in *.
  clearbody lo hi.
  pose proof (double_inject n Hn) as En.
  assert (Hn' : (0 <= inject_Z n)%Q).
  { change 0%Q with (inject_Z 0). rewrite <- Zle_Qle. lia. }
  set (m := Float.double (inject_Z n)) in *.
  assert (Hm : (0 <= m)%Q) by (rewrite En; exact Hn').
  unfold Float.mul.
  assert (A : (0 <= m * lo)%Q) by (apply Qmult_le_0_compat; assumption).
  assert (B : (m * lo <= m * hi)%Q).
  { rewrite !(Qmult_comm m). apply Qmult_le_compat_r; [lra|exact Hm]. }
  assert (C : (m * hi <= m)%Q).
  { rewrite <- (Qmult_1_r m) at 2. rewrite !(Qmult_comm m).
    apply Qmult_le_compat_r; [exact U1|exact Hm]. }
  pose proof (double_nonneg _ A) as A'.
  pose proof (double_mono _ _ B) as B'.
  pose proof (double_mono _ _ C) as C'.
  assert (D : (Float.double m == inject_Z n)%Q).
  { unfold m. rewrite double_idempotent. exact En. }
  rewrite D in C'.
  split; [|split].
  - change 0 with (int_of_float 0). apply int_of_float_mono;
      [apply Qle_refl|exact A'].
  - apply int_of_float_mono; assumption.
  - apply Z.le_trans with (int_of_float (inject_Z n));
      [|rewrite int_of_float_inject; lia].
    apply int_of_float_mono; [|exact C'].
    eapply Qle_trans; eassumption.
Qed.

(** The interval 0.8 on 60 steps guides steps 5 to 53. *)
Lemma guidance_window_inside_schedule_witness :
  let '(start_idx, end_idx) :=
    guidance_window (Stub.settings 10%Q 60 15%Q 0.8%Q 0%Q None None None None) 60 in
  0 <= start_idx /\ start_idx <= end_idx /\ end_idx <= 60.
Proof.
  apply (guidance_window_inside_schedule
           (Stub.settings 10%Q 60 15%Q 0.8%Q 0%Q None None None None) 60).
  - vm_compute. discriminate.
  - vm_compute. discriminate.
  - lia.
Defined.

End Window.

Section Decay.
Context `{TR : Transformer} `{SC : Schedules} `{GD : Guidance}.

Lemma current_guidance_scale_decaying (x : loop_ctx) (i : Z) :
  (0 < guidance_interval_decay (cfg x))%Q ->
  end_idx x - start_idx x - 1 <> 0 ->
  current_guidance_scale x i
  = ok (Cases.decayed x (Float.double
                     (inject_Z (i - start_idx x)
                      / inject_Z (end_idx x - start_idx x - 1)))).
Proof.
  intros Hd Hw. unfold current_guidance_scale.
  apply Qltb_true in Hd. rewrite Hd.
  apply Z.eqb_neq in Hw. now rewrite Hw.
Qed.

(** The decayed scale does not grow with the progress, and is at most the
    configured scale. *)
Lemma decayed_antitone (x : loop_ctx) (p q : Q) :
  (0 <= guidance_interval_decay (cfg x))%Q ->
  (min_guidance_scale (cfg x) <= guidance_scale (cfg x))%Q ->
  (0 <= p)%Q -> (p <= q)%Q ->
  (Cases.decayed x q <= Cases.decayed x p)%Q
  /\ (Cases.decayed x p <= Float.double (guidance_scale (cfg x)))%Q.
Proof.
  intros Hd Hm Hp Hpq. unfold Cases.decayed, Float.sub, Float.mul.
  pose proof (double_mono _ _ Hm) as GM.
  pose proof (double_nonneg _ Hd) as D0.
  set (g := Float.double (guidance_scale (cfg x))) in *.
  set (m := Float.double (min_guidance_scale (cfg x))) in *.
  set (d := Float.double (guidance_interval_decay (cfg x))) in *.
  assert (Eg : (Float.double g == g)%Q) by apply double_idempotent.
  clearbody g m d.
  assert (A0 : (0 <= Float.double (g - m))%Q) by (apply double_nonneg; lra).
  set (a := Float.double (g - m)) in *. clearbody a.
  assert (B0 : (0 <= a * p)%Q) by (apply Qmult_le_0_compat; assumption).
  assert (B1 : (a * p <= a * q)%Q).
  { rewrite !(Qmult_comm a). apply Qmult_le_compat_r; assumption. }
  pose proof (double_nonneg _ B0) as B0'.
  pose proof (double_mono _ _ B1) as B1'.
  set (bp := Float.double (a * p)) in *. set (bq := Float.double (a * q)) in *.
  clearbody bp bq.
  assert (C0 : (0 <= bp * d)%Q) by (apply Qmult_le_0_compat; assumption).
  assert (C1 : (bp * d <= bq * d)%Q) by (apply Qmult_le_compat_r; assumption).
  pose proof (double_nonneg _ C0) as C0'.
  pose proof (double_mono _ _ C1) as C1'.
  set (tp := Float.double (bp * d)) in *. set (tq := Float.double (bq * d)) in *.
  clearbody tp tq.
  split.
  - apply double_mono. lra.
  - rewrite <- Eg at 2. apply double_mono. lra.
Qed.

(** X2.  With a positive decay and a window of more than one step the
    guidance scale starts at [guidance_scale] on the first guided step and
    ends at [guidance_scale - (guidance_scale - min_guidance_scale) * decay]
    on the last one, every operation rounded as Python rounds it.  For a
    decay of 1 that is [guidance_scale - (guidance_scale -
    min_guidance_scale)], which floats need not make [min_guidance_scale]
    again. *)
Theorem guidance_decay_endpoints (x : loop_ctx) :
  (0 < guidance_interval_decay (cfg x))%Q ->
  end_idx x - start_idx x - 1 <> 0 ->
  let g := Float.double (guidance_scale (cfg x)) in
  let m := Float.double (min_guidance_scale (cfg x)) in
  let d := Float.double (guidance_interval_decay (cfg x)) in
  exists first last : Q,
    current_guidance_scale x (start_idx x) = ok first
    /\ current_guidance_scale x (end_idx x - 1) = ok last
    /\ (first == g)%Q
    /\ (last == Float.sub g (Float.mul (Float.sub g m) d))%Q
    /\ ((d == 1)%Q -> (last == Float.sub g (Float.sub g m))%Q).
Proof.
  intros Hd Hw g m d.
  rewrite !current_guidance_scale_decaying by assumption.
  eexists. eexists. split; [reflexivity|]. split; [reflexivity|].
  assert (Hw' : ~ (inject_Z (end_idx x - start_idx x - 1) == 0)%Q).
  { intros E. apply Hw. apply inject_Z_injective. exact E. }
  replace (end_idx x - 1 - start_idx x) with (end_idx x - start_idx x - 1)
    by lia.
  rewrite Z.sub_diag. change (inject_Z 0) with 0%Q.
  unfold Cases.decayed. fold g. fold m. fold d.
  assert (P0 : (Float.double
                  (0 / inject_Z (end_idx x - start_idx x - 1)) == 0)%Q).
  { rewrite (double_compat _ 0); [reflexivity|]. field. exact Hw'. }
  assert (P1 : (Float.double
                  (inject_Z (end_idx x - start_idx x - 1)
                   / inject_Z (end_idx x - start_idx x - 1)) == 1)%Q).
  { rewrite (double_compat _ 1); [apply double_1|]. field. exact Hw'. }
  unfold Float.sub, Float.mul in *.
  set (a := Float.double (g - m)).
  assert (Ea : (Float.double a == a)%Q) by apply double_idempotent.
  assert (Eg : (Float.double g == g)%Q) by apply double_idempotent.
  split; [|split].
  - rewrite <- Eg at 2. apply double_compat.
    rewrite (double_compat (_ * d) 0).
    + rewrite double_0. ring.
    + rewrite (double_compat (a * _) 0); [rewrite double_0; ring|].
      rewrite P0. ring.
  - apply double_compat.
    assert (E : (Float.double
                   (a * Float.double
                          (inject_Z (end_idx x - start_idx x - 1)
                           / inject_Z (end_idx x - start_idx x - 1)))
                 == a)%Q).
    { rewrite <- Ea at 2. apply double_compat. rewrite P1. ring. }
    now rewrite E.
  - intros D1. apply double_compat.
    assert (E : (Float.double
                   (a * Float.double
                          (inject_Z (end_idx x - start_idx x - 1)
                           / inject_Z (end_idx x - start_idx x - 1)))
                 == a)%Q).
    { rewrite <- Ea at 2. apply double_compat. rewrite P1. ring. }
    rewrite E. rewrite (double_compat (a * d) a); [now rewrite Ea|].
    rewrite D1. ring.
Qed.

(** X3.  With a positive decay and [min_guidance_scale <= guidance_scale]
    the scale, as Python's floats give it, never increases along the
    guided steps and never exceeds the configured one: for guided steps
    [i <= j], [scale(j) <= scale(i) <= guidance_scale]. *)
Theorem guidance_decay_monotone (x : loop_ctx) (i j : Z) :
  (0 < guidance_interval_decay (cfg x))%Q ->
  (min_guidance_scale (cfg x) <= guidance_scale (cfg x))%Q ->
  start_idx x <= i -> i <= j -> j < end_idx x ->
  end_idx x - start_idx x - 1 <> 0 ->
  exists gi gj : Q,
    current_guidance_scale x i = ok gi
    /\ current_guidance_scale x j = ok gj
    /\ (gj <= gi)%Q
    /\ (gi <= Float.double (guidance_scale (cfg x)))%Q.
Proof.
  intros Hd0 Hmin Hi Hij Hj Hw.
  rewrite !current_guidance_scale_decaying by assumption.
  eexists. eexists. split; [reflexivity|]. split; [reflexivity|].
  set (w := end_idx x - start_idx x - 1) in *.
  assert (Hwpos : 0 < w) by (unfold w in *; lia).
  assert (Hw' : (0 < inject_Z w)%Q).
  { change 0%Q with (inject_Z 0). now rewrite <- Zlt_Qlt. }
  set (pi := (inject_Z (i - start_idx x) / inject_Z w)%Q).
  set (pj := (inject_Z (j - start_idx x) / inject_Z w)%Q).
  assert (Hpi : (0 <= pi)%Q).
  { unfold pi. apply Qle_shift_div_l; [exact Hw'|]. rewrite Qmult_0_l.
    change 0%Q with (inject_Z 0). rewrite <- Zle_Qle. lia. }
  assert (Hpij : (pi <= pj)%Q).
  { unfold pi, pj. apply Qmult_le_compat_r.
    - rewrite <- Zle_Qle. lia.
    - apply Qinv_le_0_compat, Qlt_le_weak, Hw'. }
  apply decayed_antitone.
  - apply Qlt_le_weak, Hd0.
  - exact Hmin.
  - now apply double_nonneg.
  - now apply double_mono.
Qed.

End Decay.

Section DecayOnTestDoubles.
#[local] Existing Instance Stub.transformer.
#[local] Existing Instance Stub.schedules.
#[local] Existing Instance Stub.guidance.
#[local] Existing Instance Stub.random.

(** Sixty steps guided from 15 to 44, decaying from 15 to 3. *)
Lemma guidance_decay_endpoints_witness :
  exists first last : Q,
    current_guidance_scale Cases.decaying 15 = ok first
    /\ current_guidance_scale Cases.decaying 44 = ok last
    /\ (first == 15)%Q /\ (last == 3)%Q.
Proof.
  destruct (guidance_decay_endpoints Cases.decaying)
    as (first & last & H1 & H2 & E1 & E2 & _).
  - vm_compute. reflexivity.
  - vm_compute. discriminate.
  - exists first, last. split; [exact H1|]. split; [exact H2|].
    split; [rewrite E1|rewrite E2]; vm_compute; reflexivity.
Defined.

Lemma guidance_decay_monotone_witness :
  exists gi gj : Q,
    current_guidance_scale Cases.decaying 20 = ok gi
    /\ current_guidance_scale Cases.decaying 30 = ok gj
    /\ (gj <= gi)%Q /\ (gi <= 15)%Q.
Proof.
  destruct (guidance_decay_monotone Cases.decaying 20 30)
    as (gi & gj & Hi & Hj & M & U).
  - vm_compute. reflexivity.
  - vm_compute. discriminate.
  - vm_compute. discriminate.
  - lia.
  - vm_compute. reflexivity.
  - vm_compute. discriminate.
  - exists gi, gj. split; [exact Hi|]. split; [exact Hj|].
    split; [exact M|]. eapply Qle_trans; [exact U|].
    vm_compute. discriminate.
Defined.

(** With a minimum of 0.1 a full decay from 15 ends just below it:
    [15.0 - (15.0 - 0.1)] is not [0.1] in floats. *)
Lemma full_decay_misses_the_minimum :
  (Float.sub 15 (Float.sub 15 (Float.double 0.1)) < Float.double 0.1)%Q.
Proof. vm_compute. reflexivity. Qed.

End DecayOnTestDoubles.

End WindowFacts.

(* ------------------------------------------------------------------------- *)
(** ** The forward passes of a whole run *)

Module PassFacts.
Import Py Tensor Extern Sampler ScheduleFacts Cases.



Section Loop.
Context `{TR : Transformer} `{SC : Schedules} `{GD : Guidance}.





End Loop.

Section Run.
Context `{TR : Transformer} `{SC : Schedules} `{GD : Guidance} `{RD : Random}.


End Run.

Section OnTestDoubles.
#[local] Existing Instance Stub.transformer.
#[local] Existing Instance Stub.schedules.
#[local] Existing Instance Stub.guidance.
#[local] Existing Instance Stub.random.


(** The window as Python's floats give it: at 60 steps and interval 0.8
    it is [5, 54), at 10 steps [0, 9), since [1 - 0.8] is just below 0.2. *)
Lemma guidance_window_in_floats :
  guidance_window (Stub.settings 1 60 15 0.8 0 None None None None) 60
  = (5, 54)
  /\ guidance_window (Stub.settings 1 10 15 0.8 0 None None None None) 10
     = (0, 9)
  /\ guidance_window (Stub.settings 1 10 15 0.2 0 None None None None) 10
     = (4, 6).
Proof. repeat split; vm_compute; reflexivity. Qed.

End OnTestDoubles.

End PassFacts.

(* ------------------------------------------------------------------------- *)
(** ** Extend: the padding, the mask and the length check *)

Module ExtendSetupFacts.
Import Py Tensor Extern Sampler.

Ltac cases :=
  repeat match goal with
         | |- context [?a <? ?b] => destruct (Z.ltb_spec a b); try lia
         | |- context [?a <=? ?b] => destruct (Z.leb_spec a b); try lia
         | |- context [?a =? ?b] => destruct (Z.eqb_spec a b); try lia
         end.

(** X5.  Extending on the left only, by more frames than the clip has, is
    refused by the length check: the retake noise has only the clip's own
    number of frames to give, so the assembled latent is shorter than the
    padded source and the setup raises [AssertionError]. *)
Theorem extend_left_beyond_clip_length_raises
        (bsz n_min T L E : Z) (gt target retake : latent) :
  shp retake = shp target ->
  dim3 (shp target) = T ->
  dim3 (shp gt) = T ->
  0 <= T < L ->
  L + T <= max_infer_fame_length ->
  E <= T ->
  extend_setup bsz T n_min (- L) E (Some gt) target retake
  = raise AssertionError.
Proof.
  intros Hs Ht Hg HL Hmax HE.
  unfold extend_setup, extend_left, extend_right, pad3, bind, ok.
  rewrite !Z.gtb_ltb. generalize max_infer_fame_length Hmax. intros M HM.
  rewrite Hg. replace (Z.abs (- L)) with L by lia.
  cases. cbn [gt_latents e_frame_length pad_frame_length trim_length cached
              shp dim3].
  rewrite !Z.gtb_ltb. cases. cbn [app].
  unfold cat3, cat. cbn [all_tensors forallb andb cat_with bind].
  unfold cat3_2, slice3, slice, clamp. rewrite Hs, Ht. cbn [shp dim0 dim1 dim2 dim3].
  rewrite !Z.eqb_refl. cbn [andb]. unfold bind, ok.
  cbn [cat_with shp dim3]. cases. reflexivity.
Qed.

(** A left pad that fits: nothing is trimmed or cached. *)
Lemma extend_left_fits (gt : latent) (fl T L : Z) :
  dim3 (shp gt) = T -> 0 <= T -> 0 < L ->
  L + T <= max_infer_fame_length ->
  exists lft,
    extend_left gt fl (- L) = ok lft
    /\ dim3 (shp (gt_latents lft)) = T + L
    /\ e_frame_length lft = T + L
    /\ pad_frame_length lft = L
    /\ trim_length lft = 0
    /\ cached lft = None.
Proof.
  intros Hg HT HL. unfold extend_left, pad3, bind, ok.
  rewrite !Z.gtb_ltb. generalize max_infer_fame_length. intros M HM.
  rewrite Hg. replace (Z.abs (- L)) with L by lia. cases.
  eexists. split; [reflexivity|].
  cbn [gt_latents e_frame_length pad_frame_length trim_length cached shp dim3].
  repeat split; lia.
Qed.

(** A right end beyond the original source, with a result that fits; the
    pad is measured from the latent as it is now and may be negative. *)
Lemma extend_right_fits (g : latent) (fl n T E : Z) :
  dim3 (shp g) = n -> T < E -> 0 <= E ->
  E <= max_infer_fame_length ->
  exists rgt,
    extend_right g fl T E = ok rgt
    /\ dim3 (shp (gt_latents rgt)) = E
    /\ e_frame_length rgt = E
    /\ pad_frame_length rgt = E - n
    /\ trim_length rgt = 0
    /\ cached rgt = None.
Proof.
  intros Hg HT HE. unfold extend_right, pad3, bind, ok.
  rewrite !Z.gtb_ltb. generalize max_infer_fame_length. intros M HM.
  rewrite Hg. cases.
  eexists. split; [reflexivity|].
  cbn [gt_latents e_frame_length pad_frame_length trim_length cached shp dim3].
  repeat split; lia.
Qed.

(** The length of a slice of the last axis. *)
Lemma slice3_length {A} (x : tensor A) (start stop : option Z) :
  dim3 (shp (slice3 x start stop))
  = snd (slice (dim3 (shp x)) start stop)
  /\ dim0 (shp (slice3 x start stop)) = dim0 (shp x)
  /\ dim1 (shp (slice3 x start stop)) = dim1 (shp x)
  /\ dim2 (shp (slice3 x start stop)) = dim2 (shp x).
Proof.
  unfold slice3. destruct (slice _ _ _) as [lo len]. cbn. auto.
Qed.

(** Reading after [x[:, :, :, start:stop] = v]. *)
Lemma get_set_slice3 {A} (x : tensor A) (start stop : option Z) (v : A)
      (i j k l : Z) :
  get (set_slice3 x start stop v) i j k l
  = let l' := bidx (dim3 (shp x)) l in
    if (fst (slice (dim3 (shp x)) start stop) <=? l')
       && (l' <? fst (slice (dim3 (shp x)) start stop)
                 + snd (slice (dim3 (shp x)) start stop))
    then v else get x i j k l.
Proof.
  unfold get, set_slice3. destruct (slice _ _ _) as [lo len]. reflexivity.
Qed.

Lemma shp_set_slice3 {A} (x : tensor A) (start stop : option Z) (v : A) :
  shp (set_slice3 x start stop v) = shp x.
Proof.
  unfold set_slice3. now destruct (slice _ _ _).
Qed.

(** Concatenation along the last axis adds the lengths. *)
Lemma cat3_2_length {A} (x y : tensor A) :
  dim0 (shp x) = dim0 (shp y) ->
  dim1 (shp x) = dim1 (shp y) ->
  dim2 (shp x) = dim2 (shp y) ->
  exists z, cat3_2 x y = ok z
            /\ dim3 (shp z) = dim3 (shp x) + dim3 (shp y)
            /\ dim0 (shp z) = dim0 (shp x)
            /\ dim1 (shp z) = dim1 (shp x)
            /\ dim2 (shp z) = dim2 (shp x).
Proof.
  intros H0 H1 H2. unfold cat3_2. rewrite H0, H1, H2, !Z.eqb_refl.
  cbn [andb]. eexists. split; [reflexivity|]. cbn. auto.
Qed.

(** X6.  Extending on both sides, by [L] frames on the left and [R >= L]
    on the right, pads the right by [R - L] frames only, because the right
    pad is measured from the source already padded on the left: the working
    latent has [T + R] frames, not [T + L + R], and the mask is 1 on the
    first [L] and on the last [R - L] frames. *)
Theorem extend_both_sides_right_pad_is_difference
        (bsz n_min T L R : Z) (gt target retake : latent) :
  shp retake = shp target ->
  dim3 (shp target) = T ->
  dim3 (shp gt) = T ->
  0 < L <= T ->
  L <= R ->
  R - L <= T ->
  T + R <= max_infer_fame_length ->
  exists p rc,
    extend_setup bsz T n_min (- L) (T + R) (Some gt) target retake = ok p
    /\ repaint p = Some rc
    /\ frame_length p = T + R
    /\ dim3 (shp (target_latents p)) = T + R
    /\ dim3 (shp (x0 rc)) = T + R
    /\ forall i j k l,
        0 <= l < T + R ->
        get (repaint_mask rc) i j k l
        = if (l <? L) || (T + L <=? l) then 1%Q else 0%Q.
Proof.
  intros Hs Ht Hg HL HR HRL Hmax.
  destruct (extend_left_fits gt T T L) as (lft & El & Dl & Fl & Pl & Tl & Cl);
    try lia.
  destruct (extend_right_fits (gt_latents lft) (e_frame_length lft)
                              (T + L) T (T + R) Dl)
    as (rgt & Er & Dr & Fr & Pr & Tr & Cr); try lia.
  replace (T + R - (T + L)) with (R - L) in Pr by lia.
  unfold extend_setup. rewrite El. cbn [bind ok]. rewrite Hg, Er.
  cbn [bind ok]. rewrite Fr, Pl, Pr, Tl, Tr, Cl, Cr, Ht, !Z.gtb_ltb.
  destruct (slice3_length retake None (Some L)) as (A3 & A0 & A1 & A2).
  destruct (slice3_length target (Some 0) (Some (T - 0))) as (B3 & B0 & B1 & B2).
  destruct (slice3_length retake (Some (- (R - L))) None) as (C3 & C0 & C1 & C2).
  rewrite Hs in A0, A1, A2, C0, C1, C2.
  unfold slice, clamp in A3, B3, C3. rewrite Hs, Ht in A3, C3.
  rewrite Ht in B3. cbn [snd] in A3, B3, C3.
  destruct (cat3_2_length (slice3 retake None (Some L))
                          (slice3 target (Some 0) (Some (T - 0))))
    as (ab & Eab & AB3 & AB0 & AB1 & AB2); try congruence.
  assert (HL' : (0 <? L) = true) by (apply Z.ltb_lt; lia).
  rewrite HL'. unfold cat3, cat.
  assert (Hmask : forall m : tensor Q,
             m = set_slice3 (full (Shape bsz 8 16 (T + R)) 0%Q) None (Some L)
                            1%Q ->
             forall i j k l, 0 <= l < T + R ->
               get (if 0 <? R - L
                    then set_slice3 m (Some (- (R - L))) None 1%Q else m)
                   i j k l
               = if (l <? L) || (T + L <=? l) then 1%Q else 0%Q).
  { intros m -> i j k l Hl.
    assert (Hb : (T + R =? 1) = false) by (apply Z.eqb_neq; lia).
    assert (Hn : (L <? 0) = false) by (apply Z.ltb_ge; lia).
    destruct (Z.ltb_spec 0 (R - L)) as [Hpos|Hzero];
      rewrite ?get_set_slice3, ?shp_set_slice3, TensorFacts.get_full;
      unfold slice, clamp, bidx; cbn [full shp dim3 fst snd];
      rewrite ?Hb, ?Hn.
    - assert (Hm : (- (R - L) <? 0) = true) by (apply Z.ltb_lt; lia).
      rewrite Hm. cases; reflexivity.
    - cases; reflexivity. }
  destruct (Z.ltb_spec 0 (R - L)) as [Hpos|Hzero].
  - destruct (cat3_2_length ab (slice3 retake (Some (- (R - L))) None))
      as (abc & Eabc & ABC3 & _); try congruence.
    cbn [app all_tensors forallb andb cat_with]. rewrite Eab. cbn [bind ok].
    rewrite Eabc. cbn [bind ok cat_with].
    assert (E3 : dim3 (shp abc) = dim3 (shp (gt_latents rgt))).
    { rewrite ABC3, AB3, A3, B3, C3, Dr. revert HL HR HRL Hpos. clear.
      intros. cases; lia. }
    rewrite E3, Z.eqb_refl.
    eexists. eexists. split; [reflexivity|]. cbn [repaint].
    split; [reflexivity|].
    cbn [frame_length target_latents x0 repaint_mask].
    split; [reflexivity|]. split; [congruence|]. split; [exact Dr|].
    intros i j k l Hl.
    specialize (Hmask _ eq_refl i j k l Hl).
    destruct (Z.ltb_spec 0 (R - L)); [exact Hmask|lia].
  - cbn [app all_tensors forallb andb cat_with]. rewrite Eab. cbn [bind ok cat_with].
    assert (E3 : dim3 (shp ab) = dim3 (shp (gt_latents rgt))).
    { rewrite AB3, A3, B3, Dr. revert HL HR HRL Hzero. clear.
      intros. cases; lia. }
    rewrite E3, Z.eqb_refl.
    eexists. eexists. split; [reflexivity|]. cbn [repaint].
    split; [reflexivity|].
    cbn [frame_length target_latents x0 repaint_mask].
    split; [reflexivity|]. split; [congruence|]. split; [exact Dr|].
    intros i j k l Hl.
    specialize (Hmask _ eq_refl i j k l Hl).
    destruct (Z.ltb_spec 0 (R - L)); [lia|exact Hmask].
Qed.

(** X7.  Extending on both sides with the right extension shorter than the
    left one crops the padded source instead of padding it, and the length
    check refuses the result with [AssertionError]. *)
Theorem extend_right_shorter_than_left_raises
        (bsz n_min T L R : Z) (gt target retake : latent) :
  shp retake = shp target ->
  dim3 (shp target) = T ->
  dim3 (shp gt) = T ->
  0 < R < L ->
  L <= T ->
  T + L <= max_infer_fame_length ->
  extend_setup bsz T n_min (- L) (T + R) (Some gt) target retake
  = raise AssertionError.
Proof.
  intros Hs Ht Hg HR HL Hmax.
  unfold extend_setup, extend_left, extend_right, pad3, bind, ok.
  rewrite !Z.gtb_ltb. generalize max_infer_fame_length Hmax. intros M HM.
  rewrite Hg. replace (Z.abs (- L)) with L by lia.
  cases. cbn [gt_latents e_frame_length pad_frame_length trim_length cached
              shp dim3].
  rewrite !Z.gtb_ltb. cases.
  cbn [gt_latents e_frame_length pad_frame_length trim_length cached
       shp dim3 app].
  rewrite ?Z.gtb_ltb. cases. cbn [app].
  unfold cat3, cat. cbn [all_tensors forallb andb cat_with bind].
  unfold cat3_2, slice3, slice, clamp. rewrite Hs, Ht.
  cbn [shp dim0 dim1 dim2 dim3].
  rewrite !Z.eqb_refl. cbn [andb]. unfold bind, ok.
  cbn [cat_with shp dim3]. cases. reflexivity.
Qed.

(** X8.  When a left extension overflows the longest latent that can be
    inferred, [trim] frames are cut from the right of the padded source and
    a slice of [trim] frames is cached for the reassembly.  The cached
    slice is taken from the latent after the cut: it holds the last [trim]
    frames that were kept, source frames [T - 2 trim .. T - trim - 1] where
    they fall on the source, and none of the frames [T - trim .. T - 1]
    that were cut off. *)
Theorem left_overflow_caches_kept_frames (gt : latent) (fl T L : Z) :
  let trim := L + T - max_infer_fame_length in
  dim3 (shp gt) = T ->
  0 < L ->
  0 < trim ->
  trim <= max_infer_fame_length ->
  exists p c,
    extend_left gt fl (- L) = ok p
    /\ cached p = Some c
    /\ trim_length p = trim
    /\ dim3 (shp (gt_latents p)) = max_infer_fame_length
    /\ dim3 (shp c) = trim
    /\ forall i j k l,
        0 <= l < trim ->
        elt c i j k l
        = elt (gt_latents p) i j k (max_infer_fame_length - trim + l)
        /\ (L <= max_infer_fame_length - trim + l ->
            elt c i j k l = elt gt i j k (T - 2 * trim + l)).
Proof.
  intros trim Hg HL Htrim Hfit. subst trim.
  unfold extend_left, pad3, bind, ok.
  rewrite !Z.gtb_ltb. revert Htrim Hfit.
  generalize max_infer_fame_length. intros M Htrim Hfit.
  rewrite Hg. replace (Z.abs (- L)) with L by lia.
  assert (H1 : (- L <? 0) = true) by (apply Z.ltb_lt; lia).
  assert (H2 : (T + L + 0 <? 0) = false) by (apply Z.ltb_ge; lia).
  assert (H3 : (M <? L + T) = true) by (apply Z.ltb_lt; lia).
  rewrite H1, H2, H3.
  eexists. eexists. split; [reflexivity|].
  cbn [cached]. split; [reflexivity|].
  cbn [trim_length gt_latents]. split; [reflexivity|].
  unfold slice3, slice, clamp. cbn [shp dim0 dim1 dim2 dim3 elt].
  assert (H4 : (M <? 0) = false) by (apply Z.ltb_ge; lia).
  assert (H5 : (- (L + T - M) <? 0) = true) by (apply Z.ltb_lt; lia).
  rewrite H4, H5. cbn [shp dim0 dim1 dim2 dim3 elt].
  replace (Z.min M (T + L + 0)) with M by lia.
  replace (Z.max 0 (M - 0)) with M by lia.
  replace (Z.max 0 (- (L + T - M) + M)) with (M - (L + T - M)) by lia.
  split; [reflexivity|]. split; [lia|].
  intros i j k l Hl. split.
  - reflexivity.
  - intros Hsrc.
    replace (0 + (M - (L + T - M) + l) - L) with (T - 2 * (L + T - M) + l)
      by lia.
    cases. reflexivity.
Qed.

(** A clip of 2153 frames extended by 1076 on the left: 646 frames over. *)
Lemma left_overflow_caches_kept_frames_witness :
  exists p c,
    extend_left (Scenario.clip 2153 0%R) 2153 (- 1076) = ok p
    /\ cached p = Some c
    /\ trim_length p = 646
    /\ dim3 (shp (gt_latents p)) = 2583
    /\ dim3 (shp c) = 646.
Proof.
  destruct (left_overflow_caches_kept_frames
              (Scenario.clip 2153 0%R) 2153 2153 1076)
    as (p & c & H1 & H2 & H3 & H4 & H5 & _).
  - reflexivity.
  - lia.
  - vm_compute. reflexivity.
  - vm_compute. discriminate.
  - exists p, c. repeat split; assumption.
Defined.

(** Six frames asked on the left of a clip of four. *)
Lemma extend_left_beyond_clip_length_raises_witness :
  extend_setup 1 4 0 (- 6) 4 (Some (Scenario.clip 4 0%R))
               (Scenario.clip 4 1%R) (Scenario.clip 4 2%R)
  = raise AssertionError.
Proof.
  apply (extend_left_beyond_clip_length_raises 1 0 4 6 4);
    try reflexivity; try lia.
  vm_compute. discriminate.
Defined.

(** Two frames on the left and five on the right of a clip of four: nine
    frames in all, masked on frames 0, 1 and 6, 7, 8. *)
Lemma extend_both_sides_right_pad_is_difference_witness :
  exists p rc,
    extend_setup 1 4 0 (- 2) (4 + 5) (Some (Scenario.clip 4 0%R))
                 (Scenario.clip 4 1%R) (Scenario.clip 4 2%R) = ok p
    /\ repaint p = Some rc
    /\ frame_length p = 4 + 5
    /\ dim3 (shp (target_latents p)) = 4 + 5
    /\ dim3 (shp (x0 rc)) = 4 + 5
    /\ forall i j k l,
        0 <= l < 4 + 5 ->
        get (repaint_mask rc) i j k l
        = if (l <? 2) || (4 + 2 <=? l) then 1%Q else 0%Q.
Proof.
  apply (extend_both_sides_right_pad_is_difference 1 0 4 2 5);
    try reflexivity; try lia.
  vm_compute. discriminate.
Defined.

(** Three frames on the left and one on the right of a clip of four. *)
Lemma extend_right_shorter_than_left_raises_witness :
  extend_setup 1 4 0 (- 3) (4 + 1) (Some (Scenario.clip 4 0%R))
               (Scenario.clip 4 1%R) (Scenario.clip 4 2%R)
  = raise AssertionError.
Proof.
  apply (extend_right_shorter_than_left_raises 1 0 4 3 1);
    try reflexivity; try lia.
  vm_compute. discriminate.
Defined.

End ExtendSetupFacts.

(* ------------------------------------------------------------------------- *)
(** ** Repainting: a start index the loop never reaches *)

Module RepaintStartFacts.
Import Py Tensor Extern Sampler TensorFacts ScheduleFacts.

Lemma extend_setup_is_extend (bsz frames n b e : Z) (src : option latent)
      (target retake : latent) (p : prepared) :
  extend_setup bsz frames n b e src target retake = ok p ->
  is_extend p = true.
Proof.
  unfold extend_setup, bind. destruct src as [gt|]; [|discriminate].
  destruct (extend_left _ _ _) as [err|lft]; [discriminate|].
  destruct (extend_right _ _ _ _) as [err|rgt]; [discriminate|].
  destruct (cat3 _) as [err|t]; [discriminate|].
  destruct (Z.eqb _ _); [|discriminate].
  intros H. now inversion H.
Qed.

Section Setup.
Context `{TR : Transformer}.

(** What a repaint that does not extend hands to the loop: the start index
    computed from the retake variance, and the fresh noise as the latent. *)
Lemma retake_setup_repaint (c : config) (steps bsz frames : Z)
      (src : option latent) (target retake : latent) (p : prepared)
      (rc : repaint_ctx) :
  retake_setup c steps bsz frames src target retake = ok p ->
  is_extend p = false ->
  repaint p = Some rc ->
  n_min rc = repaint_start_index steps (retake_variance c)
  /\ target_latents p = target.
Proof.
  unfold retake_setup.
  match goal with |- (if ?b then _ else _) = _ -> _ => destruct b end.
  - unfold bind. destruct (retake_blend _ _ _); [discriminate|].
    intros H. inversion H. discriminate.
  - match goal with |- (if ?b then _ else _) = _ -> _ => destruct b end.
    + unfold repaint_setup, bind.
      destruct (retake_blend _ _ _) as [err|noise]; [discriminate|].
      destruct (where_ _ _ _) as [err|noise']; [discriminate|].
      destruct src as [x|]; [|discriminate].
      intros H _ Hr. inversion H; subst p; clear H. cbn in Hr.
      inversion Hr. now split.
    + intros H He. apply extend_setup_is_extend in H. congruence.
Qed.

(** X15.  In a repaint that does not extend, with the window's frames
    [0 <= start] and [0 <= end <= frame_length], the mask is 1 on the frames
    from [start] up to but not including [end] and 0 on every other frame.
    A window with [end <= start], such as the repaint node's default of 0
    and 0, masks nothing. *)
Theorem repaint_mask_covers_window (bsz frames n : Z) (variance : Q)
        (b e : Z) (src : option latent) (target retake : latent)
        (p : prepared) :
  repaint_setup bsz frames n variance b e src target retake = ok p ->
  0 <= b ->
  0 <= e <= frames ->
  exists rc,
    repaint p = Some rc
    /\ (forall i j k l,
           0 <= l < frames ->
           get (repaint_mask rc) i j k l
           = if (b <=? l) && (l <? e) then 1%Q else 0%Q)
    /\ (e <= b ->
        forall i j k l, 0 <= l < frames ->
                        get (repaint_mask rc) i j k l = 0%Q).
Proof.
  unfold repaint_setup, bind.
  destruct (retake_blend _ _ _) as [err|noise]; [discriminate|].
  destruct (where_ _ _ _) as [err|noise']; [discriminate|].
  destruct src as [x|]; [|discriminate].
  intros H Hb He. inversion H; subst p; clear H.
  eexists. split; [reflexivity|]. cbn [repaint_mask].
  assert (M : forall i j k l,
             0 <= l < frames ->
             get (set_slice3 (full (Shape bsz 8 16 frames) 0%Q)
                             (Some b) (Some e) 1%Q) i j k l
             = if (b <=? l) && (l <? e) then 1%Q else 0%Q).
  { intros i j k l Hl.
    rewrite ExtendSetupFacts.get_set_slice3, TensorFacts.get_full.
    unfold slice, clamp, bidx. cbn [full shp dim3 fst snd].
    assert (H1 : (b <? 0) = false) by (apply Z.ltb_ge; lia).
    assert (H2 : (e <? 0) = false) by (apply Z.ltb_ge; lia).
    rewrite H1, H2.
    destruct (Z.eqb_spec frames 1) as [F|F].
    - assert (l = 0) by lia. subst l.
      ExtendSetupFacts.cases; reflexivity.
    - ExtendSetupFacts.cases; reflexivity. }
  split; [exact M|].
  intros Hw i j k l Hl. rewrite (M i j k l Hl).
  ExtendSetupFacts.cases; reflexivity.
Qed.

End Setup.

Section Loop.
Context `{TR : Transformer} `{SC : Schedules} `{GD : Guidance}.

(** Iterations before the repaint start index do nothing. *)
Lemma loop_before_repaint_start (x : loop_ctx) (rc : repaint_ctx)
      (ts : list Q) :
  forall (i : Z) (s : loop_state),
    rp x = Some rc ->
    i + Z.of_nat (List.length ts) <= n_min rc ->
    loop x i ts s = ok s.
Proof.
  induction ts as [|t rest IH]; intros i s Hrp Hn; [reflexivity|].
  cbn [List.length] in Hn. cbn [loop]. unfold loop_body.
  rewrite Hrp.
  assert (Hi : (i <? n_min rc) = true) by (apply Z.ltb_lt; lia).
  rewrite Hi.
  destruct (Qltb (init_timestep x) t); cbn [bind ok]; apply IH;
    assumption || lia.
Qed.

End Loop.

Section Run.
Context `{TR : Transformer} `{SC : Schedules} `{GD : Guidance} `{RD : Random}.

(** X9.  A repaint (not an extension) whose start index
    [int(steps * (1 - retake_variance))], as Python's floats give it, is
    not below the number of timesteps never reaches the predictor: the run
    records no call and returns the fresh noise it drew first, not the
    source latent.  [steps] is [infer_steps], or [max(oss_steps)] when
    steps are given, which is then more than the number of timesteps: so
    it is with variance 0, and with given steps already for larger
    variances. *)
Theorem repaint_start_beyond_schedule_returns_noise
        (c : config) (a : inputs) (r : run_setup) :
  add_retake_noise c = true ->
  audio2audio_enable c = false ->
  text2music_setup c a = ok r ->
  is_extend (rs_prepared r) = false ->
  repaint (rs_prepared r) <> None ->
  Z.of_nat (List.length (rs_timesteps r))
  <= repaint_start_index (Cases.counted_steps c) (retake_variance c) ->
  exists noise g,
    randn_tensor (Shape (text_batch (encoder_text_hidden_states a)) 8 16
                        (working_frame_length c a))
                 (random_generators a) = ok (noise, g)
    /\ text2music_run c a = ok (noise, []).
Proof.
  intros Hretake Ha2a Hsetup Hext Hrep Hn.
  unfold text2music_run. rewrite Hsetup. cbn [bind ok].
  revert Hsetup. unfold text2music_setup, bind.
  destruct (make_scheduler _) as [e|s]; [discriminate|].
  destruct (make_schedule c s) as [e|[[[ts n] steps] s']] eqn:Esch;
    [discriminate|].
  assert (Hsteps : steps = Cases.counted_steps c).
  { revert Esch. unfold make_schedule, Cases.counted_steps, bind.
    destruct (oss_steps c) as [|o os].
    - destruct (retrieve_timesteps _ _) as [[? ?] ?].
      intros H. now inversion H.
    - destruct (retrieve_timesteps _ _) as [[? ?] ?].
      destruct (map_result _ _) as [e|chosen]; [discriminate|].
      destruct (retrieve_timesteps_sigmas _ _) as [[? ?] ?].
      intros H. now inversion H. }
  subst steps.
  unfold initial_latent, bind. rewrite Hretake, Ha2a.
  destruct (randn_tensor _ (random_generators a)) as [e|[target g]];
    [discriminate|].
  destruct (randn_tensor _ (retake_random_generators a)) as [e|[retake g']];
    [discriminate|].
  destruct (retake_setup _ _ _ _ _ _ _) as [e|p] eqn:Ep; [discriminate|].
  unfold ok. intros H. inversion H; subst r; clear H.
  cbn [rs_ctx rs_state rs_timesteps rs_prepared] in *.
  destruct (repaint p) as [rc|] eqn:Erc; [|congruence].
  destruct (retake_setup_repaint _ _ _ _ _ _ _ _ _ Ep Hext Erc) as [Hmin Htar].
  match goal with
  | |- context [make_loop_ctx ?c ?a ?b ?ts ?n ?p ?q] =>
      pose proof (LoopFacts.make_loop_ctx_fields c a b ts n p q) as F
  end.
  cbv zeta in F. destruct F as (_ & Hrp & _).
  rewrite Erc in Hrp.
  exists target, g. split; [reflexivity|].
  rewrite (loop_before_repaint_start _ rc ts 0 _ Hrp) by (rewrite Hmin; lia).
  rewrite Hext. cbn [extend_reassembly latents trace].
  now rewrite Htar.
Qed.

End Run.

Section OnTestDoubles.
#[local] Existing Instance Stub.transformer.
#[local] Existing Instance Stub.schedules.
#[local] Existing Instance Stub.guidance.
#[local] Existing Instance Stub.random.

(** The first ten frames of a clip of 21. *)
Lemma repaint_mask_covers_window_witness :
  exists p rc,
    repaint_setup 1 21 2 0.5 0 10 (Some (Scenario.clip 21 2%R))
                  (Scenario.clip 21 0%R) (Scenario.clip 21 1%R) = ok p
    /\ repaint p = Some rc
    /\ get (repaint_mask rc) 0 0 0 9 = 1%Q
    /\ get (repaint_mask rc) 0 0 0 10 = 0%Q.
Proof.
  let v := eval vm_compute in
             (repaint_setup 1 21 2 0.5 0 10 (Some (Scenario.clip 21 2%R))
                            (Scenario.clip 21 0%R) (Scenario.clip 21 1%R)) in
  lazymatch v with
  | inr ?p =>
      assert (Hp : repaint_setup 1 21 2 0.5 0 10
                                 (Some (Scenario.clip 21 2%R))
                                 (Scenario.clip 21 0%R) (Scenario.clip 21 1%R)
                   = ok p)
        by (vm_compute; reflexivity);
      destruct (repaint_mask_covers_window _ _ _ _ _ _ _ _ _ _ Hp)
        as (rc & Hrc & Hm & _); [lia|lia|];
      exists p, rc
  end.
  split; [exact Hp|]. split; [exact Hrc|].
  split; [apply (Hm 0 0 0 9); lia|apply (Hm 0 0 0 10); lia].
Defined.

(** Four steps, variance 0: the start index is 4 and the schedule has the
    indices 0 to 3. *)
Lemma repaint_start_beyond_schedule_returns_noise_witness :
  exists noise g,
    randn_tensor (Shape 1 8 16 21) (random_generators
                                      (Stub.inputs 1 (Some (Scenario.clip 21 2%R))
                                                   None))
    = ok (noise, g)
    /\ text2music_run Cases.repaint_no_variance
                      (Stub.inputs 1 (Some (Scenario.clip 21 2%R)) None)
       = ok (noise, []).
Proof.
  let v := eval vm_compute in
             (text2music_setup
                Cases.repaint_no_variance
                (Stub.inputs 1 (Some (Scenario.clip 21 2%R)) None)) in
  lazymatch v with
  | inr ?r =>
      assert (Hsetup : text2music_setup
                         Cases.repaint_no_variance
                         (Stub.inputs 1 (Some (Scenario.clip 21 2%R)) None)
                       = ok r)
        by (vm_compute; reflexivity);
      apply (repaint_start_beyond_schedule_returns_noise
               Cases.repaint_no_variance
               (Stub.inputs 1 (Some (Scenario.clip 21 2%R)) None) r)
  end.
  - reflexivity.
  - reflexivity.
  - exact Hsetup.
  - reflexivity.
  - discriminate.
  - vm_compute. discriminate.
Defined.

(** The start index as Python's floats give it: [1 - 0.8] is just below
    0.2, so 60 steps start at 11, and [1 - 0.9] just below 0.1, so 10
    steps start at 0. *)
Lemma repaint_start_index_in_floats :
  repaint_start_index 60 0.8 = 11
  /\ repaint_start_index 10 0.9 = 0
  /\ repaint_start_index 60 0.5 = 30.
Proof. repeat split; vm_compute; reflexivity. Qed.

End OnTestDoubles.

End RepaintStartFacts.

(* ------------------------------------------------------------------------- *)
(** ** [set_seeds]: arguments that are ignored, accepted or refused *)

Module SeedArgumentFacts.
Import Py Tensor Extern Seeds Cases.

Lemma all_ints_non_int (l : list member) :
  In NotInt l -> all_ints l = None.
Proof.
  induction l as [|m rest IH]; [intros []|].
  intros [H|H].
  - subst m. reflexivity.
  - cbn [all_ints]. rewrite (IH H). now destruct (int_member m).
Qed.

Lemma all_ints_length (l : list member) (ns : list Z) :
  all_ints l = Some ns -> List.length ns = List.length l.
Proof.
  revert ns. induction l as [|m rest IH]; intros ns.
  - intros H. now inversion H.
  - cbn [all_ints]. destruct (int_member m); [|discriminate].
    destruct (all_ints rest) as [ns'|]; [|discriminate].
    intros H. inversion H. cbn. now rewrite (IH ns').
Qed.




Section SetSeeds.
Context `{ST : Strings} `{RD : Random}.




(** X11.  A list with a member that is not an [int], such as the list of
    one decimal string the repaint and extend nodes pass as
    [retake_seeds], is treated as no seeds at all: [set_seeds] behaves as
    for [None] and draws every seed from the process-wide generator. *)
Theorem list_with_non_int_is_ignored (batch_size : Z) (l : list member)
        (g : global_rng) :
  In NotInt l ->
  set_seeds batch_size (SeedsList l) g = set_seeds batch_size SeedsNone g.
Proof.
  intros H. unfold set_seeds. cbn [process_seeds].
  now rewrite (all_ints_non_int l H).
Qed.

(** X12.  A seed string with a comma is split at the commas and every
    piece goes through [int]: one piece that is not an integer, such as the
    empty piece after a trailing comma, makes [set_seeds] raise
    [ValueError]. *)
Theorem seed_string_with_bad_piece_raises (batch_size : Z) (s piece : string)
        (g : global_rng) :
  has_comma s = true ->
  In piece (split_comma s EmptyString) ->
  int_of_string piece = None ->
  set_seeds batch_size (SeedsStr s) g = raise ValueError.
Proof.
  intros Hc Hin Hbad. unfold set_seeds. cbn [process_seeds]. rewrite Hc.
  match goal with
  | |- context [bind (?f (split_comma s EmptyString)) _] => set (parse := f)
  end.
  assert (H : parse (split_comma s EmptyString) = raise ValueError).
  { revert Hin. generalize (split_comma s EmptyString). intros ps.
    induction ps as [|p rest IH]; [intros []|].
    intros [E|Hin]; cbn.
    - subst p. now rewrite Hbad.
    - destruct (int_of_string p); [|reflexivity].
      now rewrite (IH Hin). }
  now rewrite H.
Qed.

Lemma seed_rows_length (p : processed) (k : nat) :
  forall (i : Z) (g g' : global_rng) (ns : list Z),
    seed_rows p i k g = ok (ns, g') -> List.length ns = k.
Proof.
  induction k as [|k IH]; intros i g g' ns.
  - intros H. now inversion H.
  - cbn [seed_rows]. unfold bind.
    destruct (current_seed_for_generator p i g) as [e|[n g1]];
      [discriminate|].
    destruct (check_seed n) as [e|u]; [discriminate|].
    destruct (seed_rows p (i + 1) k g1) as [e|[ns' g2]] eqn:E;
      [discriminate|].
    intros H. inversion H; subst. cbn. f_equal. exact (IH _ _ _ _ E).
Qed.

(** X29.  The generators [set_seeds] returns for a batch of at least one
    row always fit the first noise draw of the samplers: [randn_tensor] for
    a shape of [batch_size] rows returns a tensor of that shape, drawn from
    the one generator for a batch of one and row by row otherwise. *)
Theorem seeded_generators_fit_the_batch (batch_size : Z)
        (manual_seeds : seeds_arg) (g g' : global_rng)
        (gens : list generator) (seeds : list Z) (c f t : Z) :
  set_seeds batch_size manual_seeds g = ok (gens, seeds, g') ->
  1 <= batch_size ->
  List.length gens = Z.to_nat batch_size
  /\ exists noise gens',
      randn_tensor (Shape batch_size c f t) gens = ok (noise, gens')
      /\ shp noise = Shape batch_size c f t.
Proof.
  unfold set_seeds, bind.
  destruct (process_seeds manual_seeds) as [e|p]; [discriminate|].
  destruct (seed_rows p 0 (Z.to_nat batch_size) g) as [e|[ns g1]] eqn:E;
    [discriminate|].
  intros H Hb. inversion H; subst gens seeds g'; clear H.
  apply seed_rows_length in E.
  assert (Hlen : List.length (List.map manual_seed ns) = Z.to_nat batch_size)
    by now rewrite length_map.
  split; [exact Hlen|].
  unfold randn_tensor.
  destruct (List.map manual_seed ns) as [|g1' [|g2' rest]] eqn:G.
  - cbn in Hlen. lia.
  - destruct (randn g1' _) as [d g2]. eexists. eexists.
    split; reflexivity.
  - cbn [dim0 dim1 dim2 dim3].
    destruct (Z.ltb_spec (Z.of_nat (List.length (g1' :: g2' :: rest)))
                         batch_size); [lia|].
    destruct (Z.leb_spec batch_size 0); [lia|].
    destruct (randn_rows _ _ _ _) as [rows gens'].
    eexists. eexists. split; reflexivity.
Qed.

End SetSeeds.

Section OnTestDoubles.
#[local] Existing Instance Stub.random.
#[local] Existing Instance Stub.strings.

(** The list of one string the nodes pass, for a batch of two. *)
Lemma list_with_non_int_is_ignored_witness :
  set_seeds 2 (SeedsList [NotInt]) (5 : @global_rng Stub.random)
  = set_seeds 2 SeedsNone (5 : @global_rng Stub.random).
Proof.
  apply (list_with_non_int_is_ignored 2 [NotInt]). left. reflexivity.
Defined.


(** A seed of 65 bits is refused. *)
Lemma seed_of_65_bits_is_refused :
  set_seeds 1 (SeedsInt (2 ^ 64)) (5 : @global_rng Stub.random)
  = raise RuntimeError.
Proof. vm_compute. reflexivity. Qed.

(** The string [7,] has the pieces [7] and the empty string. *)
Lemma seed_string_with_bad_piece_raises_witness :
  set_seeds 2 (SeedsStr "7,") (5 : @global_rng Stub.random)
  = raise ValueError.
Proof.
  apply (seed_string_with_bad_piece_raises 2 "7," EmptyString).
  - reflexivity.
  - right. left. reflexivity.
  - reflexivity.
Defined.

(** Two rows seeded 7 and 9. *)
Lemma seeded_generators_fit_the_batch_witness :
  exists noise gens',
    randn_tensor (Shape 2 8 16 21)
                 (List.map manual_seed [7; 9]) = ok (noise, gens')
    /\ shp noise = Shape 2 8 16 21.
Proof.
  refine (proj2 (seeded_generators_fit_the_batch
                   2 (SeedsList [IsInt 7; IsInt 9])
                   (5 : @global_rng Stub.random) 5
                   (List.map manual_seed [7; 9]) [7; 9] 8 16 21 _ _)).
  - reflexivity.
  - lia.
Defined.

End OnTestDoubles.

End SeedArgumentFacts.

(* ------------------------------------------------------------------------- *)
(** ** Flow edit: windows that skip or never freeze the target *)

Module FlowWindowFacts.
Import Py Tensor Extern FlowEdit.
Import Sampler (cfg_kind, CfgApg, CfgCfg, CfgStar, CfgOther).

Section Loop.
Context `{TR : Transformer} `{SC : Schedules} `{GD : Guidance} `{RD : Random}.

(** Iterations before [n_min] do nothing. *)
Lemma flow_loop_before_start (x : flow_ctx) (ts : list Q) :
  forall (i : Z) (s : flow_state),
    i + Z.of_nat (List.length ts) <= f_n_min x ->
    flow_loop x i ts s = ok s.
Proof.
  induction ts as [|t rest IH]; intros i s Hn; [reflexivity|].
  cbn [List.length] in Hn. cbn [flow_loop]. unfold flow_body.
  assert (Hi : (i <? f_n_min x) = true) by (apply Z.ltb_lt; lia).
  rewrite Hi. cbn [bind ok]. apply IH. lia.
Qed.



(** X13.  When [int(infer_steps * n_min)] is not below the number of
    timesteps, as with [n_min = 1], every iteration is skipped: the edit
    returns the source latent as it is and calls no fusion. *)
Theorem flowedit_start_beyond_schedule_returns_source
        (src tar : conditioning) (src_latents : latent)
        (random_generators : list generator) (infer_steps : Z)
        (guidance_scale n_min n_max : Q) (n_avg : Z) :
  Z.of_nat (List.length
              (fst (fst (retrieve_timesteps FlowMatchEulerDiscreteScheduler
                                            infer_steps))))
  <= int_of_float (inject_Z infer_steps * n_min) ->
  flowedit_run src tar src_latents random_generators infer_steps
               guidance_scale n_min n_max n_avg
  = ok (src_latents, []).
Proof.
  intros Hn. unfold flowedit_run.
  destruct (retrieve_timesteps _ _) as [[ts n] sc]. cbn [fst] in Hn.
  rewrite flow_loop_before_start by (cbn [f_n_min]; lia).
  reflexivity.
Qed.


End Loop.

Section OnTestDoubles.
#[local] Existing Instance Stub.transformer.
#[local] Existing Instance Stub.schedules.
#[local] Existing Instance Stub.guidance.
#[local] Existing Instance Stub.random.

(** Two steps and [n_min = 1]. *)
Lemma flowedit_start_beyond_schedule_returns_source_witness :
  flowedit_run Scenario.flow_conditioning Scenario.flow_conditioning
               (Scenario.clip 10 2%R)
               ([100] : list (@generator Stub.random)) 2 15 1 1 1
  = ok (Scenario.clip 10 2%R, []).
Proof.
  apply (flowedit_start_beyond_schedule_returns_source
           Scenario.flow_conditioning Scenario.flow_conditioning
           (Scenario.clip 10 2%R)
               ([100] : list (@generator Stub.random)) 2 15 1 1 1).
  vm_compute. discriminate.
Defined.


End OnTestDoubles.

End FlowWindowFacts.

(* ------------------------------------------------------------------------- *)
(** ** [__call__]: which tasks take a source, and what they hand on *)

Module CallFacts.
Import Py Tensor Extern Sampler Call.

Section Call.
Context `{ST : Seeds.Strings} `{FS : Files}.

(** The reference latent is loaded exactly when the task is overridden. *)
Lemma load_reference_without_override (a : arguments) :
  effective_task a = task a ->
  task a <> "audio2audio"%string ->
  load_reference a = ok None.
Proof.
  unfold effective_task, load_reference.
  destruct (audio2audio_enable a), (ref_audio_input a); try reflexivity.
  intros H Hn. now destruct Hn.
Qed.

Lemma effective_task_cases (a : arguments) :
  (effective_task a = "audio2audio"%string
   /\ audio2audio_enable a = true /\ ref_audio_input a <> None)
  \/ (effective_task a = task a
      /\ (audio2audio_enable a = false \/ ref_audio_input a = None)).
Proof.
  unfold effective_task.
  destruct (audio2audio_enable a), (ref_audio_input a);
    (left; repeat split; congruence) || (right; split; auto).
Qed.

(** What a plan records, read back from a call that returned. *)
Lemma plan_call_fields (a : arguments) (drawn : Q) (p : plan) :
  plan_call a drawn = ok p ->
  p_task p = effective_task a
  /\ p_add_retake_noise p = member_of (effective_task a) retake_tasks
  /\ p_edit p = String.eqb (effective_task a) "edit"
  /\ load_source (effective_task a) (src_audio_path a) = ok (p_src_latents p)
  /\ load_reference a = ok (p_ref_latents p)
  /\ (p_repaint_start p, p_repaint_end p)
     = (if String.eqb (effective_task a) "retake"
        then (0%Q, p_duration p)
        else (repaint_start a, repaint_end a)).
Proof.
  unfold plan_call, bind.
  destruct (parse_oss_steps _) as [e|oss]; [discriminate|].
  destruct (get_text_embeddings _) as [e|u]; [discriminate|].
  destruct (repeat_rows _) as [e|u']; [discriminate|].
  destruct (if use_erg_tag a then _ else _) as [e|u'']; [discriminate|].
  destruct (len_of (lyrics a)) as [e|n]; [discriminate|].
  destruct (String.eqb (effective_task a) "retake") eqn:R;
    destruct (load_source _ _) as [e|src]; try discriminate;
    destruct (load_reference a) as [e|ref]; try discriminate;
    destruct (if String.eqb (effective_task a) "edit" then _ else _)
      as [e|m]; try discriminate;
    intros H; inversion H; subst p; clear H; cbn; rewrite ?R;
    repeat split.
Qed.

(** The source assertion, once the call has come to it. *)
Lemma plan_call_refuses_source (a : arguments) (drawn : Q) (path : string)
      (steps : list Z) (n : Z) :
  src_audio_path a = Some path ->
  member_of (effective_task a) source_tasks = false ->
  parse_oss_steps (oss_steps a) = ok steps ->
  get_text_embeddings (prompt a) = ok tt ->
  0 <= batch_size a ->
  (use_erg_tag a = true -> get_text_embeddings_null (prompt a) = ok tt) ->
  len_of (lyrics a) = ok n ->
  plan_call a drawn = raise AssertionError.
Proof.
  intros Hs Ht Ho He Hb Hn Hl. unfold plan_call. rewrite Ho, He.
  cbn [bind ok]. unfold repeat_rows.
  assert (B : (batch_size a <? 0) = false) by (apply Z.ltb_ge; lia).
  rewrite B. cbn [bind ok].
  assert (N : (if use_erg_tag a then get_text_embeddings_null (prompt a)
               else ok tt) = ok tt).
  { destruct (use_erg_tag a); [now apply Hn|reflexivity]. }
  rewrite N, Hl. cbn [bind ok].
  unfold load_source. rewrite Hs, Ht. cbn [negb].
  now destruct (String.eqb (effective_task a) "retake").
Qed.

(** X17.  With [audio2audio_enable] and a reference file the [task]
    argument is not read: whatever it says, a call that returns ran the
    task audio2audio through [text2music_diffusion_process] with the
    reference latent, without retake noise and without a source latent,
    and with the repaint window as given. *)
Theorem audio2audio_overrides_task (a : arguments) (drawn : Q) (p : plan)
        (ref : string) :
  audio2audio_enable a = true ->
  ref_audio_input a = Some ref ->
  plan_call a drawn = ok p ->
  p_task p = "audio2audio"%string
  /\ p_edit p = false
  /\ p_add_retake_noise p = false
  /\ p_src_latents p = None
  /\ src_audio_path a = None
  /\ p_ref_latents p = Some (infer_latents ref)
  /\ p_repaint_start p = repaint_start a
  /\ p_repaint_end p = repaint_end a.
Proof.
  intros Ha Hr H.
  destruct (plan_call_fields a drawn p H) as (Ht & Hn & He & Hs & Hf & Hw).
  assert (E : effective_task a = "audio2audio"%string).
  { unfold effective_task. now rewrite Ha, Hr. }
  rewrite E in *. cbn in Hn, He, Hw.
  unfold load_reference in Hf. rewrite Hr, Ha in Hf.
  destruct (path_exists ref); [|discriminate]. cbn in Hf.
  unfold load_source in Hs.
  destruct (src_audio_path a) as [s|]; [discriminate|].
  inversion Hs. inversion Hf. inversion Hw.
  repeat split; assumption || reflexivity.
Qed.

End Call.

Section Seeded.
Context `{ST : Seeds.Strings} `{FS : Files} `{RD : Random}.

(** X16.  A source path is accepted for the tasks repaint, edit and extend
    only: with any other task, among them retake, which the assertion's own
    message names, and audio2audio, a call that gives [src_audio_path]
    raises [AssertionError] before any audio is loaded, provided it comes
    to the assertion: both seedings return, the step list parses, the text
    encoder returns on the prompt, the batch size is not negative and
    lyrics are given. *)
Theorem source_path_with_other_task_raises (a : arguments) (drawn : Q)
        (g g1 g2 : global_rng) (gens rgens : list generator)
        (seeds rseeds : list Z) (path : string) (steps : list Z) (n : Z) :
  src_audio_path a = Some path ->
  member_of (effective_task a) source_tasks = false ->
  Seeds.set_seeds (batch_size a) (manual_seeds a) g = ok (gens, seeds, g1) ->
  Seeds.set_seeds (batch_size a) (retake_seeds a) g1
  = ok (rgens, rseeds, g2) ->
  parse_oss_steps (oss_steps a) = ok steps ->
  get_text_embeddings (prompt a) = ok tt ->
  0 <= batch_size a ->
  (use_erg_tag a = true -> get_text_embeddings_null (prompt a) = ok tt) ->
  len_of (lyrics a) = ok n ->
  call a drawn g = raise AssertionError.
Proof.
  intros Hs Ht H1 H2 Ho He Hb Hn Hl. unfold call.
  rewrite H1. cbn [bind ok]. rewrite H2. cbn [bind ok].
  now rewrite (plan_call_refuses_source a drawn path steps n).
Qed.

End Seeded.

Section Sampler.
Context `{ST : Seeds.Strings} `{FS : Files}.
Context `{TR : Transformer} `{SC : Schedules} `{GD : Guidance} `{RD : Random}.

(** X18.  The task retake is always a retake of the whole clip: a call that
    returns with it has no source and no reference latent, adds retake
    noise, and sets the window to the whole duration, so the sampler's
    setup takes the branch that blends the two noises, with no mask and no
    extension. *)
Theorem retake_task_blends_whole_clip (a : arguments) (drawn : Q) (p : plan)
        (given : config) (steps bsz : Z) (target retake : latent) :
  plan_call a drawn = ok p ->
  p_task p = "retake"%string ->
  let c := sampler_config given a p in
  let frames := frames_of_seconds (duration c) in
  p_src_latents p = None
  /\ p_ref_latents p = None
  /\ add_retake_noise c = true
  /\ retake_setup c steps bsz frames (p_src_latents p) target retake
     = (let* blend := retake_blend (retake_variance given) target retake in
        ok {| target_latents := blend; frame_length := frames;
              is_extend := false; repaint := None;
              to_right_pad_gt_latents := None;
              to_left_pad_gt_latents := None |}).
Proof.
  intros H Hp c frames.
  destruct (plan_call_fields a drawn p H) as (Ht & Hn & He & Hs & Hf & Hw).
  rewrite Hp in Ht. rewrite <- Ht in *. cbn in Hn, Hw.
  assert (Hsrc : p_src_latents p = None).
  { unfold load_source in Hs.
    destruct (src_audio_path a); [discriminate|]. now inversion Hs. }
  assert (Href : p_ref_latents p = None).
  { destruct (effective_task_cases a) as [[E _]|[E _]]; [congruence|].
    rewrite load_reference_without_override in Hf.
    - now inversion Hf.
    - exact E.
    - rewrite <- E, <- Ht. discriminate. }
  split; [exact Hsrc|]. split; [exact Href|]. split; [exact Hn|].
  inversion Hw as [[Hstart Hend]].
  unfold retake_setup. subst c frames.
  cbn [Sampler.repaint_start Sampler.repaint_end Sampler.duration
       Sampler.retake_variance sampler_config].
  rewrite Hstart, Hend.
  change (frames_of_seconds 0) with 0.
  rewrite Z.sub_0_r, Z.eqb_refl, Z.gtb_ltb, !Z.ltb_irrefl.
  reflexivity.
Qed.


End Sampler.

Section OnTestDoubles.
#[local] Existing Instance Stub.strings.
#[local] Existing Instance Stub.transformer.
#[local] Existing Instance Stub.random.
#[local] Existing Instance Cases.files.

(** A retake that names a source file. *)
Lemma source_path_with_other_task_raises_witness :
  call (Cases.call "retake" (Some "src.wav"%string) None false) 60%Q
       (5 : @global_rng Stub.random)
  = raise AssertionError.
Proof.
  apply (source_path_with_other_task_raises
           (Cases.call "retake" (Some "src.wav"%string) None false) 60%Q
           (5 : @global_rng Stub.random) 6 7
           (List.map manual_seed [5]) (List.map manual_seed [6]) [5] [6]
           "src.wav" [] 2); try reflexivity.
  cbn. lia.
Defined.

(** The same call with the seed string [7,] does not come to the
    assertion: the seeding raises first. *)
Lemma seed_string_raises_before_the_assertion :
  call (Cases.seeded
          (Cases.call "retake" (Some "src.wav"%string) None false) "7,")
       60%Q (5 : @global_rng Stub.random)
  = raise ValueError.
Proof. vm_compute. reflexivity. Qed.

(** An edit asked for together with a reference file. *)
Lemma audio2audio_overrides_task_witness :
  match plan_call (Cases.call "edit" None (Some "ref.wav"%string) true)
                  60%Q with
  | inr p => p_task p = "audio2audio"%string /\ p_edit p = false
             /\ p_add_retake_noise p = false
  | inl _ => False
  end.
Proof.
  destruct (plan_call (Cases.call "edit" None (Some "ref.wav"%string) true)
                      60%Q) as [e|p] eqn:E.
  - vm_compute in E. discriminate.
  - destruct (audio2audio_overrides_task
                (Cases.call "edit" None (Some "ref.wav"%string) true)
                60%Q p "ref.wav"%string eq_refl eq_refl E)
      as (H1 & H2 & H3 & _).
    repeat split; assumption.
Defined.

(** A retake of a two-second clip. *)
Lemma retake_task_blends_whole_clip_witness :
  match plan_call (Cases.call "retake" None None false) 60%Q with
  | inr p =>
      p_src_latents p = None /\ p_ref_latents p = None
      /\ p_repaint_end p = 2%Q
  | inl _ => False
  end.
Proof.
  destruct (plan_call (Cases.call "retake" None None false) 60%Q)
    as [e|p] eqn:E.
  - vm_compute in E. discriminate.
  - destruct (retake_task_blends_whole_clip
                _ _ p (Scenario.retake 1) 4 1
                (Scenario.clip 21 0%R) (Scenario.clip 21 1%R) E)
      as (H1 & H2 & _).
    + vm_compute in E. inversion E. reflexivity.
    + split; [exact H1|]. split; [exact H2|].
      vm_compute in E. inversion E. reflexivity.
Defined.


End OnTestDoubles.

End CallFacts.

(* ------------------------------------------------------------------------- *)
(** ** Lyrics: the language of a line and the tokens of the lines *)

Module LyricsFacts.
Import Py Lyrics.
Local Open Scope string_scope.
Local Open Scope list_scope.

Lemma supported_in (lang : string) :
  supported lang = true -> In lang SUPPORT_LANGUAGES.
Proof.
  unfold supported. rewrite existsb_exists.
  intros (x & Hin & E). apply String.eqb_eq in E. now subst x.
Qed.

(** No supported code holds [zh] or [spa] unless it is [zh] itself. *)
Lemma supported_is_normal (lang : string) :
  In lang SUPPORT_LANGUAGES ->
  (if contains "zh" lang then "zh" else lang) = lang
  /\ contains "spa" lang = false.
Proof.
  unfold SUPPORT_LANGUAGES. cbn [In].
  intros H.
  repeat (destruct H as [H|H]; [subst lang; split; reflexivity|]).
  destruct H.
Qed.

Lemma split_lines_app (a b : string) :
  forall cur,
    split_lines (a ++ String newline b)%string cur
    = split_lines a cur ++ split_lines b "".
Proof.
  induction a as [|c a IH]; intros cur.
  - cbn [append split_lines]. now rewrite Ascii.eqb_refl.
  - cbn [append split_lines].
    destruct (Ascii.eqb c newline); [cbn [app]; f_equal|]; apply IH.
Qed.

Section Lyrics.
Context `{TK : Tokenizer}.

(** X20.  The language a line is encoded with is always one of the 17
    supported codes: it is what [get_lang] found when that is supported and
    [en] otherwise.  The two rewrites that follow the support check, [zh]
    for a code that holds [zh] and [es] for one that holds [spa], never
    change anything, so a code such as [zh-cn] or [spa] is encoded as
    [en]. *)
Theorem language_of_is_supported (line : string) :
  supported (language_of line) = true
  /\ language_of line
     = (if supported (get_lang line) then get_lang line else "en").
Proof.
  unfold language_of. generalize (get_lang line). intros lang.
  destruct (supported lang) eqn:S; cbn [negb].
  - destruct (supported_is_normal lang (supported_in lang S)) as [Hz Hs].
    rewrite Hz, Hs. now split.
  - split; reflexivity.
Qed.

(** The tokens of some lines after [acc] are [acc] followed by the tokens
    of the lines after nothing. *)
Lemma tokenize_lines_from (debug : bool) (lines : list string) :
  forall acc,
    fold_left (tokenize_line debug) lines acc
    = acc ++ fold_left (tokenize_line debug) lines [].
Proof.
  induction lines as [|line lines IH]; intros acc.
  - cbn. now rewrite app_nil_r.
  - cbn [fold_left]. rewrite IH.
    rewrite (IH (tokenize_line debug [] line)). rewrite app_assoc. f_equal.
    unfold tokenize_line.
    destruct (String.eqb (strip line) ""); [reflexivity|].
    destruct (encode _ _) as [t|]; [|now rewrite app_nil_r].
    destruct (debug && batch_decode_raises t); [now rewrite app_nil_r|].
    reflexivity.
Qed.

(** X21.  [tokenize_lyrics] works line by line: the tokens of two lyrics
    joined by a newline are the tokens of the first followed by the tokens
    of the second without its start token 261. *)
Theorem tokenize_lyrics_line_by_line (a b : string) (debug : bool) :
  tokenize_lyrics (a ++ String newline b)%string debug
  = tokenize_lyrics a debug ++ tl (tokenize_lyrics b debug).
Proof.
  unfold tokenize_lyrics. rewrite split_lines_app, fold_left_app.
  rewrite tokenize_lines_from. f_equal.
  now rewrite (tokenize_lines_from debug (split_lines b "") [261]).
Qed.

(** X22.  Lines that are blank after [strip] never reach the language
    segmenter or the tokenizer: lyrics made of such lines only give the
    start token 261 followed by one end token 2 per line. *)
Theorem blank_lyrics_tokens (lyrics : string) (debug : bool) :
  Forall (fun line => strip line = "") (split_lines lyrics "") ->
  tokenize_lyrics lyrics debug
  = 261 :: repeat 2 (List.length (split_lines lyrics "")).
Proof.
  unfold tokenize_lyrics. generalize (split_lines lyrics ""). intros lines H.
  rewrite tokenize_lines_from. cbn [app]. f_equal.
  induction H as [|line lines Hl _ IH]; [reflexivity|].
  cbn [fold_left List.length repeat].
  rewrite tokenize_lines_from, IH.
  unfold tokenize_line. now rewrite Hl.
Qed.

(** X23.  Every line that [text2lyric.tokenize_lyrics] tags with a
    language becomes [[lang]] followed by the processed text and a
    newline, and any text that starts with such a tag matches the structure
    pattern of [ACEStepPipeline.tokenize_lyrics], which asks for an opening
    bracket closed on the same line: a tagged line is encoded as [en]
    there, whatever its tag. *)
Theorem tagged_line_is_structure_line (pieces : list string) (line : string)
        (text : string) :
  String.eqb (strip line) "" = false ->
  structure_pattern_match (strip line) = false ->
  preprocess_text (strip line) (language_of (strip line)) = Some text ->
  exists piece,
    text2lyric_line pieces line = pieces ++ [piece]
    /\ piece = ("[" ++ language_of (strip line) ++ "]" ++ text
                ++ String newline "")%string
    /\ forall rest,
        structure_pattern_match
          ("[" ++ language_of (strip line) ++ "]" ++ rest)%string = true.
Proof.
  intros Hb Hs Hp. unfold text2lyric_line. rewrite Hb, Hs, Hp.
  eexists. split; [reflexivity|]. split; [reflexivity|].
  destruct (language_of_is_supported (strip line)) as [S _].
  apply supported_in in S. revert S.
  generalize (language_of (strip line)). intros lang.
  unfold SUPPORT_LANGUAGES. cbn [In]. intros H rest.
  repeat (destruct H as [H|H]; [subst lang; reflexivity|]).
  destruct H.
Qed.

End Lyrics.

Section OnTestDoubles.
#[local] Existing Instance Cases.tokenizer.

(** Two newlines: three blank lines. *)
Lemma blank_lyrics_tokens_witness :
  tokenize_lyrics (String newline (String newline "")) false
  = [261; 2; 2; 2].
Proof.
  apply (blank_lyrics_tokens (String newline (String newline "")) false).
  vm_compute. repeat constructor.
Defined.

(** A line the segmenter counts as English, then Chinese. *)
Lemma tagged_line_is_structure_line_witness :
  exists piece,
    text2lyric_line [] "la" = [] ++ [piece]
    /\ piece = ("[" ++ "zh" ++ "]" ++ "la" ++ String newline "")%string
    /\ forall rest,
        structure_pattern_match ("[" ++ "zh" ++ "]" ++ rest)%string = true.
Proof.
  exact (tagged_line_is_structure_line [] "la" "la"
                                       eq_refl eq_refl eq_refl).
Defined.

End OnTestDoubles.

End LyricsFacts.

(* ------------------------------------------------------------------------- *)
(** ** [AudioCacher]: what is deleted, what is forgotten *)

Module CacherFacts.
Import Py Cacher.
Local Open Scope string_scope.
Local Open Scope list_scope.

Lemma eqb_false_sym (p q : string) : q <> p -> String.eqb p q = false.
Proof. intros H. apply String.eqb_neq. congruence. Qed.

Lemma exists_unlink (p q : string) (fs : list string) :
  existsb (String.eqb q) (unlink p fs)
  = existsb (String.eqb q) fs && negb (String.eqb p q).
Proof.
  unfold unlink. induction fs as [|x fs IH]; [reflexivity|].
  cbn [filter existsb].
  destruct (String.eqb p x) eqn:E; cbn [negb existsb].
  - apply String.eqb_eq in E. subst x. rewrite IH.
    destruct (String.eqb q p) eqn:F.
    + apply String.eqb_eq in F. subst q. rewrite String.eqb_refl.
      cbn. now rewrite andb_false_r.
    + reflexivity.
  - rewrite IH. destruct (String.eqb q x) eqn:F; [|reflexivity].
    apply String.eqb_eq in F. subst x. rewrite E. reflexivity.
Qed.

Lemma unlink_absent (p : string) (fs : list string) :
  existsb (String.eqb p) fs = false -> unlink p fs = fs.
Proof.
  unfold unlink. induction fs as [|x fs IH]; [reflexivity|].
  cbn [existsb filter]. intros H. apply orb_false_iff in H.
  destruct H as [E H]. rewrite E. cbn [negb]. now rewrite IH.
Qed.

Lemma unlink_app (p : string) (a b : list string) :
  unlink p (a ++ b) = unlink p a ++ unlink p b.
Proof. apply filter_app. Qed.

Lemma list_remove_last (p : string) (l : list string) :
  existsb (String.eqb p) l = false -> list_remove p (l ++ [p]) = l.
Proof.
  induction l as [|x l IH]; cbn [app list_remove existsb].
  - now rewrite String.eqb_refl.
  - intros H. apply orb_false_iff in H. destruct H as [E H].
    rewrite E. now rewrite IH.
Qed.

Section Cacher.
Context `{DK : Disk}.

(** The files after [cleanup_file]. *)
Lemma cleanup_file_files (p : string) (st : state) :
  files (snd (cleanup_file p st))
  = if negb (String.eqb p "") && path_exists p st && negb (remove_raises p)
    then unlink p (files st) else files st.
Proof.
  unfold cleanup_file.
  destruct (String.eqb p ""); [reflexivity|].
  destruct (path_exists p st); [|reflexivity].
  now destruct (remove_raises p).
Qed.

(** X24.  [cleanup_file] on a path that is not empty returns [True] only
    when the file does not exist afterwards, and then it has left every
    other file alone and dropped the path's first entry from the tracking
    list; it returns [False] only when the file exists and its removal
    raised, and then nothing has changed. *)
Theorem cleanup_file_outcome (filepath : string) (st : state) :
  filepath <> "" ->
  let '(done, st') := cleanup_file filepath st in
  if done
  then path_exists filepath st' = false
       /\ (forall other, other <> filepath ->
                         path_exists other st' = path_exists other st)
       /\ files_to_cleanup_in_context st'
          = forget filepath (files_to_cleanup_in_context st)
  else st' = st /\ path_exists filepath st = true
       /\ remove_raises filepath = true.
Proof.
  intros Hne. unfold cleanup_file.
  assert (E : String.eqb filepath "" = false) by now apply String.eqb_neq.
  rewrite E.
  destruct (path_exists filepath st) eqn:X.
  - destruct (remove_raises filepath) eqn:R.
    + now repeat split.
    + unfold path_exists. cbn [files files_to_cleanup_in_context].
      split; [|split; [|reflexivity]].
      * rewrite exists_unlink, String.eqb_refl. cbn. apply andb_false_r.
      * intros other Ho. rewrite exists_unlink.
        rewrite (eqb_false_sym filepath other Ho). cbn. apply andb_true_r.
  - unfold path_exists in *. cbn [files files_to_cleanup_in_context].
    split; [exact X|]. split; [reflexivity|reflexivity].
Qed.

Lemma cleanup_loop_files (q : string) (l : list string) :
  forall st,
    path_exists q (fold_left (fun s f_path => snd (cleanup_file f_path s))
                             l st)
    = path_exists q st
      && negb (tracked q l && negb (String.eqb q "")
               && negb (remove_raises q)).
Proof.
  induction l as [|p l IH]; intros st.
  - cbn. now rewrite andb_true_r.
  - cbn [fold_left]. rewrite IH. unfold path_exists at 1.
    rewrite cleanup_file_files. unfold tracked. cbn [existsb].
    fold (tracked q l). fold (path_exists q st).
    destruct (String.eqb q p) eqn:E.
    + apply String.eqb_eq in E. subst p.
      fold (path_exists q st).
      destruct (String.eqb q ""), (path_exists q st) eqn:X,
        (remove_raises q), (tracked q l); cbn;
        rewrite ?exists_unlink, ?String.eqb_refl; try reflexivity;
        unfold path_exists in X; rewrite ?X; reflexivity.
    + destruct (negb (String.eqb p "") && path_exists p st
                && negb (remove_raises p)).
      * rewrite exists_unlink.
        assert (F : String.eqb p q = false).
        { apply String.eqb_neq. apply String.eqb_neq in E. congruence. }
        rewrite F. cbn [negb orb]. rewrite andb_true_r. reflexivity.
      * reflexivity.
Qed.

(** X25.  After [cleanup_all_tracked_files] the tracking list is empty, and
    a file exists exactly when it existed before and was not tracked, or
    could not be removed: every tracked file whose removal raises stays on
    disk and is tracked no more. *)
Theorem cleanup_all_forgets_what_it_cannot_remove (st : state) :
  let st' := cleanup_all_tracked_files st in
  files_to_cleanup_in_context st' = []
  /\ forall path,
      path_exists path st'
      = path_exists path st
        && (negb (tracked path (files_to_cleanup_in_context st))
            || String.eqb path "" || remove_raises path).
Proof.
  cbv zeta. split; [reflexivity|]. intros path.
  unfold cleanup_all_tracked_files. unfold path_exists at 1. cbn [files].
  fold (path_exists path
          (fold_left (fun s f_path => snd (cleanup_file f_path s))
                     (files_to_cleanup_in_context st) st)).
  rewrite cleanup_loop_files. f_equal.
  now destruct (tracked path _), (String.eqb path ""), (remove_raises path).
Qed.

(** X26.  Caching a tensor and then cleaning the returned path, as the
    repaint, edit and extend nodes do, is a round trip when the removal
    does not raise: the disk and the tracking list are as they were before
    the file was cached. *)
Theorem cache_then_cleanup_restores (prefix : string)
        (audio_format : option string) (st st1 : state) (path : string) :
  cache_audio_tensor prefix audio_format st = (ok path, st1) ->
  path <> "" ->
  remove_raises path = false ->
  tracked path (files_to_cleanup_in_context st) = false ->
  path_exists path st1 = true
  /\ cleanup_file path st1 = (true, st).
Proof.
  unfold cache_audio_tensor.
  destruct (temp_name _ _ _) as [name|] eqn:N; [|discriminate].
  destruct (save_raises name); [discriminate|].
  intros H Hne Hr Ht. inversion H; subst path st1; clear H.
  apply temp_name_new in N.
  assert (X : path_exists name
                {| files := files st ++ [name];
                   default_format := default_format st;
                   files_to_cleanup_in_context :=
                     files_to_cleanup_in_context st ++ [name] |} = true).
  { unfold path_exists. cbn [files]. rewrite existsb_app. cbn.
    rewrite String.eqb_refl. now rewrite orb_true_r. }
  split; [exact X|].
  unfold cleanup_file. rewrite X, Hr.
  assert (E : String.eqb name "" = false) by now apply String.eqb_neq.
  rewrite E. cbn [files default_format files_to_cleanup_in_context].
  f_equal. destruct st as [fs fmt l].
  cbn [files default_format files_to_cleanup_in_context] in *. f_equal.
  - rewrite unlink_app, (unlink_absent name fs N). cbn.
    rewrite String.eqb_refl. cbn. apply app_nil_r.
  - unfold forget, tracked. rewrite existsb_app. cbn.
    rewrite String.eqb_refl, orb_true_r.
    now apply list_remove_last.
Qed.

(** X27.  When [torchaudio.save] raises, [cache_audio_tensor] raises
    [RuntimeError] and tracks nothing; the temporary file it had created is
    removed again, unless that removal raises as well, and then the file
    stays on disk untracked. *)
Theorem failed_save_tracks_nothing (prefix : string)
        (audio_format : option string) (st : state) (name : string) :
  temp_name (files st) prefix
            (String "."%char
               (lstrip_dot
                  (match audio_format with
                   | Some f => if String.eqb f "" then default_format st
                               else f
                   | None => default_format st
                   end))) = Some name ->
  save_raises name = true ->
  exists st',
    cache_audio_tensor prefix audio_format st = (raise RuntimeError, st')
    /\ files_to_cleanup_in_context st' = files_to_cleanup_in_context st
    /\ files st' = if remove_raises name then files st ++ [name]
                   else files st.
Proof.
  intros N S. unfold cache_audio_tensor. rewrite N, S.
  pose proof (temp_name_new _ _ _ _ N) as New.
  unfold path_exists. cbn [files]. rewrite existsb_app. cbn [existsb].
  rewrite String.eqb_refl, orb_true_r.
  destruct (remove_raises name); eexists; (split; [reflexivity|]);
    cbn [files files_to_cleanup_in_context]; (split; [reflexivity|]).
  - reflexivity.
  - rewrite unlink_app, (unlink_absent name (files st) New). cbn.
    rewrite String.eqb_refl. cbn. apply app_nil_r.
Qed.

End Cacher.

Section OnTestDoubles.
#[local] Existing Instance Cases.disk.

(** The tracked file is removed. *)
Lemma cleanup_file_outcome_witness :
  let '(done, st') := cleanup_file "a.wav" Cases.cached in
  if done
  then path_exists "a.wav" st' = false
       /\ (forall other, other <> "a.wav" ->
                         path_exists other st'
                         = path_exists other Cases.cached)
       /\ files_to_cleanup_in_context st'
          = forget "a.wav" (files_to_cleanup_in_context Cases.cached)
  else st' = Cases.cached /\ path_exists "a.wav" Cases.cached = true
       /\ remove_raises "a.wav" = true.
Proof.
  apply (cleanup_file_outcome "a.wav" Cases.cached). discriminate.
Defined.

(** A source clip cached and cleaned again. *)
Lemma cache_then_cleanup_restores_witness :
  cleanup_file "src_audio_0.wav"
               (snd (cache_audio_tensor "src_audio_" None Cases.cached))
  = (true, Cases.cached).
Proof.
  refine (proj2 (cache_then_cleanup_restores
                   "src_audio_" None Cases.cached
                   (snd (cache_audio_tensor "src_audio_" None Cases.cached))
                   "src_audio_0.wav" _ _ _ _)).
  - reflexivity.
  - discriminate.
  - reflexivity.
  - reflexivity.
Defined.

(** A clip that cannot be saved. *)
Lemma failed_save_tracks_nothing_witness :
  exists st',
    cache_audio_tensor "bad_" None Cases.cached = (raise RuntimeError, st')
    /\ files_to_cleanup_in_context st'
       = files_to_cleanup_in_context Cases.cached
    /\ files st' = files Cases.cached.
Proof.
  exact (failed_save_tracks_nothing "bad_" None Cases.cached "bad_0.wav"
                                    eq_refl eq_refl).
Defined.

End OnTestDoubles.

End CacherFacts.

(* ------------------------------------------------------------------------- *)
(** ** [oss_steps]: the timesteps that are selected *)

Module OssFacts.
Import Py Tensor Extern Sampler Cases.





Section Schedule.
Context `{SC : Schedules}.


End Schedule.

Section OnTestDoubles.
#[local] Existing Instance Stub.schedules.


End OnTestDoubles.

End OssFacts.
